(** * PPanGGOLiN: the in-memory pangenome graph

    A shallow embedding of [src/ppanggolin/pangenome.py] (Region, Edge,
    GeneFamily, Pangenome), of [src/ppanggolin/geneFamily.py] (the newer
    GeneFamily) and of two functions of
    [src/ppanggolin/formats/writeSequences.py], with the properties of the
    specification that concern them and further properties of the code.

    Python objects that are mutated and shared (gene families, edges) live in
    a store and are named by references; a method is a function from the store
    to a result and the store it leaves behind, so that what an exception
    leaves mutated can be read off. *)

From Stdlib Require Import ZArith NArith Lia.
From stdpp Require Import base option list strings gmap.

(** ** Python values and control *)

Module Py.

(** The exceptions the embedded code raises.  [DanglingRef] has no Python
    counterpart: it is what the model answers when a reference names no
    object of the store, which no Python state does. *)
Inductive exn : Set :=
| TypeError | KeyError | AttributeError | ValueError | IndexError
| NameError | AssertionError | Exception | DanglingRef.

Inductive result (A : Type) : Type :=
| Ok (a : A)
| Raise (e : exn).
Arguments Ok {A} a.
Arguments Raise {A} e.

Definition rbind {A B} (r : result A) (k : A -> result B) : result B :=
  match r with Ok a => k a | Raise e => Raise e end.

Definition of_option {A} (e : exn) (o : option A) : result A :=
  match o with Some a => Ok a | None => Raise e end.

(** [l[i]] on a Python list: negative indices count from the end. *)
Definition index {A} (l : list A) (i : Z) : result A :=
  let len := Z.of_nat (length l) in
  let j := if (i <? 0)%Z then (i + len)%Z else i in
  if ((j <? 0) || (len <=? j))%Z then Raise IndexError
  else of_option IndexError (l !! Z.to_nat j).

(** A method on a store [S]: the result and the store after the call, also
    when the call raises. *)
Definition M (S A : Type) : Type := S -> result A * S.

Definition ret {S A} (a : A) : M S A := fun s => (Ok a, s).
Definition raise {S A} (e : exn) : M S A := fun s => (Raise e, s).
Definition bind {S A B} (m : M S A) (k : A -> M S B) : M S B :=
  fun s => match m s with
           | (Ok a, s') => k a s'
           | (Raise e, s') => (Raise e, s')
           end.
Definition get {S} : M S S := fun s => (Ok s, s).
Definition modify {S} (f : S -> S) : M S unit := fun s => (Ok tt, f s).
Definition lift {S A} (r : result A) : M S A := fun s => (r, s).

(** [for x in xs: body] *)
Fixpoint for_each {S A} (xs : list A) (body : A -> M S unit) : M S unit :=
  match xs with
  | [] => ret tt
  | x :: xs' => bind (body x) (fun _ => for_each xs' body)
  end.

(** A [dict]: insertion ordered, assignment to a present key keeps its
    place. *)
Section Dict.
Context {K V : Type} `{EqDecision K}.

Definition dict : Type := list (K * V).

Fixpoint dget (k : K) (d : dict) : option V :=
  match d with
  | [] => None
  | (k', v') :: d' => if decide (k' = k) then Some v' else dget k d'
  end.

Fixpoint dset (k : K) (v : V) (d : dict) : dict :=
  match d with
  | [] => [(k, v)]
  | (k', v') :: d' =>
      if decide (k' = k) then (k, v) :: d' else (k', v') :: dset k v d'
  end.

Definition keys (d : dict) : list K := map fst d.
Definition values (d : dict) : list V := map snd d.
Definition len (d : dict) : nat := length d.
End Dict.
Arguments dict : clear implicits.

End Py.

Import Py.

Declare Scope py_scope.
Notation "'let*' x ':=' c 'in' k" := (bind c (fun x => k))
  (at level 10, x name, c at level 100, k at level 200) : py_scope.
Notation "'let?' x ':=' c 'in' k" := (rbind c (fun x => k))
  (at level 10, x name, c at level 100, k at level 200) : py_scope.
Open Scope py_scope.

(** ** ppanggolin.genome: the external collaborators *)

Module genome.

(** Modelled from the spec: class Organism of ppanggolin.genome is not part
    of the sources at hand.  The spec gives it a unique name; [org_id] stands
    for the identity of the Python object, so that two Organism values are the
    same object exactly when they are equal. *)
Record Organism : Set := { org_id : nat; org_name : string }.

#[global] Instance Organism_eq_dec : EqDecision Organism.
Proof. solve_decision. Defined.

(** Modelled from the spec: class Gene of ppanggolin.genome is not part of
    the sources at hand.  A gene has an ID, a 0-based position on its contig,
    back-references to its organism and its contig, and, once assigned, to
    its family.  The back-references are references into the store. *)
Record Gene : Set := {
  gene_ID : string;
  position : Z;
  organism : option Organism;
  contig : nat;
  family : option nat
}.

#[global] Instance Gene_eq_dec : EqDecision Gene.
Proof. solve_decision. Defined.

(** Modelled from the spec: class Contig of ppanggolin.genome is not part of
    the sources at hand.  A contig owns an ordered sequence of genes and a
    circularity flag. *)
Record Contig : Set := { genes : list Gene; is_circular : bool }.

End genome.

(** ** src/ppanggolin/pangenome.py *)

Module pangenome.
Import genome.

(** *** The objects *)

(** class Region.  [reg_id] is [id(self)], which [__hash__] returns. *)
Record Region : Set := {
  reg_id : nat;
  region_genes : list Gene;
  region_name : string;
  region_score : Z
}.

(** class Edge; [source] and [target] are references to gene families,
    [organisms] the [defaultdict(list)] of gene pairs per organism. *)
Record Edge : Type := {
  source : nat;
  target : nat;
  organisms : dict (option Organism) (list (Gene * Gene))
}.

(** class GeneFamily of pangenome.py.  [_edges] maps a neighbouring family
    to the edge to it; [bitarray] is [None] until [mkBitarray] has created
    the attribute. *)
Record GeneFamily : Type := {
  fam_name : string;
  fam_ID : Z;
  _edges : dict nat nat;
  _genePerOrg : dict (option Organism) (list Gene);
  fam_genes : list Gene;
  removed : bool;
  sequence : string;
  partition : string;
  bitarray : option N
}.

(** class Pangenome.  The key of [_edgeGetter] is the frozenset of the two
    genes' families; [_orgIndex] is [None] until [getIndex] has created the
    attribute.  The constant [status] and [parameters] dictionaries are read
    by no method below and are left out. *)
Record Pangenome : Type := {
  _famGetter : dict string nat;
  max_fam_id : Z;
  _orgGetter : dict string Organism;
  _edgeGetter : dict (gset (option nat)) nat;
  regions : list Region;
  _orgIndex : option (dict (option Organism) nat)
}.

(** The store: gene families, edges and contigs by reference (a reference
    is the index of the object in its list), the number of Organism objects
    created so far, and the pangenome. *)
Record World : Type := {
  fam_heap : list GeneFamily;
  edge_heap : list Edge;
  contig_heap : list Contig;
  org_count : nat;
  pan : Pangenome
}.

Definition with_fam_heap (h : list GeneFamily) (w : World) : World :=
  {| fam_heap := h; edge_heap := edge_heap w; contig_heap := contig_heap w;
     org_count := org_count w; pan := pan w |}.
Definition with_edge_heap (h : list Edge) (w : World) : World :=
  {| fam_heap := fam_heap w; edge_heap := h; contig_heap := contig_heap w;
     org_count := org_count w; pan := pan w |}.
Definition with_org_count (n : nat) (w : World) : World :=
  {| fam_heap := fam_heap w; edge_heap := edge_heap w; contig_heap := contig_heap w;
     org_count := n; pan := pan w |}.
Definition with_pan (p : Pangenome) (w : World) : World :=
  {| fam_heap := fam_heap w; edge_heap := edge_heap w; contig_heap := contig_heap w;
     org_count := org_count w; pan := p |}.

Definition with_orgGetter (d : dict string Organism) (p : Pangenome) : Pangenome :=
  {| _famGetter := _famGetter p; max_fam_id := max_fam_id p; _orgGetter := d;
     _edgeGetter := _edgeGetter p; regions := regions p; _orgIndex := _orgIndex p |}.
Definition with_edgeGetter (d : dict (gset (option nat)) nat) (p : Pangenome) : Pangenome :=
  {| _famGetter := _famGetter p; max_fam_id := max_fam_id p; _orgGetter := _orgGetter p;
     _edgeGetter := d; regions := regions p; _orgIndex := _orgIndex p |}.
Definition with_regions (r : list Region) (p : Pangenome) : Pangenome :=
  {| _famGetter := _famGetter p; max_fam_id := max_fam_id p; _orgGetter := _orgGetter p;
     _edgeGetter := _edgeGetter p; regions := r; _orgIndex := _orgIndex p |}.
Definition with_orgIndex (i : option (dict (option Organism) nat)) (p : Pangenome) : Pangenome :=
  {| _famGetter := _famGetter p; max_fam_id := max_fam_id p; _orgGetter := _orgGetter p;
     _edgeGetter := _edgeGetter p; regions := regions p; _orgIndex := i |}.

Definition with_edges (d : dict nat nat) (f : GeneFamily) : GeneFamily :=
  {| fam_name := fam_name f; fam_ID := fam_ID f; _edges := d;
     _genePerOrg := _genePerOrg f; fam_genes := fam_genes f; removed := removed f;
     sequence := sequence f; partition := partition f; bitarray := bitarray f |}.
Definition with_bitarray (b : option N) (f : GeneFamily) : GeneFamily :=
  {| fam_name := fam_name f; fam_ID := fam_ID f; _edges := _edges f;
     _genePerOrg := _genePerOrg f; fam_genes := fam_genes f; removed := removed f;
     sequence := sequence f; partition := partition f; bitarray := b |}.
Definition with_organisms (d : dict (option Organism) (list (Gene * Gene))) (e : Edge) : Edge :=
  {| source := source e; target := target e; organisms := d |}.

(** Reading and writing an object of the store through its reference. *)
Definition get_family (f : nat) : M World GeneFamily :=
  fun w => (of_option DanglingRef (fam_heap w !! f), w).
Definition put_family (f : nat) (x : GeneFamily) : M World unit :=
  modify (fun w => with_fam_heap (<[f := x]> (fam_heap w)) w).
Definition get_edge (e : nat) : M World Edge :=
  fun w => (of_option DanglingRef (edge_heap w !! e), w).
Definition put_edge (e : nat) (x : Edge) : M World unit :=
  modify (fun w => with_edge_heap (<[e := x]> (edge_heap w)) w).
Definition get_pan : M World Pangenome := fun w => (Ok (pan w), w).
Definition put_pan (p : Pangenome) : M World unit := modify (with_pan p).

(** *** class GeneFamily *)

(** [GeneFamily.namedPartition] *)
Definition namedPartition (f : GeneFamily) : result string :=
  if decide (partition f = "") then Raise Exception
  else if String.prefix "P" (partition f) then Ok "persistent"
  else if String.prefix "C" (partition f) then Ok "cloud"
  else if String.prefix "S" (partition f) then Ok "shell"
  else Ok "undefined".

(** *** class Region *)

(** [Region.contig]: the contig of the first gene. *)
Definition Region_contig (w : World) (self : Region) : result Contig :=
  let? g := index (region_genes self) 0 in
  of_option DanglingRef (contig_heap w !! contig g).

(** [curr_fam is not None and curr_fam not in multigenics and
    curr_fam.namedPartition == "persistent"], evaluated left to right.
    [multigenics] is a set of gene family objects, so a set of references. *)
Definition accept_left (w : World) (multigenics : list nat) (curr_fam : option nat)
  : result bool :=
  match curr_fam with
  | None => Ok false
  | Some f =>
      if bool_decide (f ∈ multigenics) then Ok false
      else
        let? fam := of_option DanglingRef (fam_heap w !! f) in
        let? p := namedPartition fam in
        Ok (bool_decide (p = "persistent"))
  end.

(** [curr_fam is not None and curr_fam not in multigenics] *)
Definition accept_right (multigenics : list nat) (curr_fam : option nat) : bool :=
  match curr_fam with
  | None => false
  | Some f => negb (bool_decide (f ∈ multigenics))
  end.

(** The guard of the first [while] of [getBorderingGenes]:
    [len(border[0]) < n and (pos != 0 and not self.contig.is_circular)]. *)
Definition left_guard (w : World) (self : Region) (n : Z) (border : list nat) (pos : Z)
  : result bool :=
  if (Z.of_nat (length border) <? n)%Z then
    if negb (pos =? 0)%Z then
      let? c := Region_contig w self in Ok (negb (is_circular c))
    else Ok false
  else Ok false.

(** One turn of the first [while]: the border list and the position after it,
    and whether the turn ended in [break]. *)
Definition left_body (w : World) (self : Region) (multigenics : list nat) (init : Z)
    (border : list nat) (pos : Z) : result (list nat * Z * bool) :=
  let? curr_fam :=
    (if (pos =? 0)%Z then
       let? c := Region_contig w self in
       if is_circular c then
         let? c' := Region_contig w self in
         let? g := index (genes c') (-1) in Ok (family g)
       else Ok None
     else
       let? c := Region_contig w self in
       let? g := index (genes c) (pos - 1) in Ok (family g)) in
  let? acc := accept_left w multigenics curr_fam in
  let border := if acc then border ++ from_option (fun f => [f]) [] curr_fam else border in
  let pos := (pos - 1)%Z in
  let? pos :=
    (if (pos =? -1)%Z then
       let? c := Region_contig w self in
       if is_circular c then
         let? c' := Region_contig w self in Ok (Z.of_nat (length (genes c')))
       else Ok pos
     else Ok pos) in
  Ok (border, pos, (pos =? init)%Z).

(** The first [while]; [None] when the fuel runs out before the loop ends. *)
Fixpoint left_loop (fuel : nat) (w : World) (self : Region) (n : Z)
    (multigenics : list nat) (init : Z) (border : list nat) (pos : Z)
  : option (result (list nat)) :=
  match fuel with
  | O => None
  | S fuel' =>
      match left_guard w self n border pos with
      | Raise e => Some (Raise e)
      | Ok false => Some (Ok border)
      | Ok true =>
          match left_body w self multigenics init border pos with
          | Raise e => Some (Raise e)
          | Ok (border', pos', true) => Some (Ok border')
          | Ok (border', pos', false) =>
              left_loop fuel' w self n multigenics init border' pos'
          end
      end
  end.

(** The guard of the second [while]:
    [len(border[1]) < n and (pos != len(self.contig.genes)-1 and not
    self.contig.is_circular)]. *)
Definition right_guard (w : World) (self : Region) (n : Z) (border : list nat) (pos : Z)
  : result bool :=
  if (Z.of_nat (length border) <? n)%Z then
    let? c := Region_contig w self in
    if negb (pos =? Z.of_nat (length (genes c)) - 1)%Z then
      let? c' := Region_contig w self in Ok (negb (is_circular c'))
    else Ok false
  else Ok false.

(** One turn of the second [while].  The module never imports [logging], so
    the call on the line before its [break] raises NameError. *)
Definition right_body (w : World) (self : Region) (multigenics : list nat) (init : Z)
    (border : list nat) (pos : Z) : result (list nat * Z * bool) :=
  let? c0 := Region_contig w self in
  let? curr_fam :=
    (if (pos =? Z.of_nat (length (genes c0)) - 1)%Z then
       let? c := Region_contig w self in
       if is_circular c then
         let? c' := Region_contig w self in
         let? g := index (genes c') 0 in Ok (family g)
       else Ok None
     else
       let? c := Region_contig w self in
       let? g := index (genes c) (pos + 1) in Ok (family g)) in
  let border :=
    if accept_right multigenics curr_fam
    then border ++ from_option (fun f => [f]) [] curr_fam else border in
  let pos := (pos + 1)%Z in
  let? c1 := Region_contig w self in
  let? pos :=
    (if (pos =? Z.of_nat (length (genes c1)))%Z then
       let? c := Region_contig w self in
       if is_circular c then Ok (-1)%Z else Ok pos
     else Ok pos) in
  if (pos =? init)%Z then Raise NameError else Ok (border, pos, false).

Fixpoint right_loop (fuel : nat) (w : World) (self : Region) (n : Z)
    (multigenics : list nat) (init : Z) (border : list nat) (pos : Z)
  : option (result (list nat)) :=
  match fuel with
  | O => None
  | S fuel' =>
      match right_guard w self n border pos with
      | Raise e => Some (Raise e)
      | Ok false => Some (Ok border)
      | Ok true =>
          match right_body w self multigenics init border pos with
          | Raise e => Some (Raise e)
          | Ok (border', pos', true) => Some (Ok border')
          | Ok (border', pos', false) =>
              right_loop fuel' w self n multigenics init border' pos'
          end
      end
  end.

(** [Region.getBorderingGenes(n, multigenics)] run with [fuel] turns for each
    loop: [border[0]] and [border[1]]. *)
Definition getBorderingGenes_fuel (fuel : nat) (w : World) (self : Region) (n : Z)
    (multigenics : list nat) : option (result (list nat * list nat)) :=
  match index (region_genes self) (-1) with
  | Raise e => Some (Raise e)
  | Ok last =>
      match left_loop fuel w self n multigenics (position last) [] (position last) with
      | None => None
      | Some (Raise e) => Some (Raise e)
      | Some (Ok b0) =>
          match index (region_genes self) 0 with
          | Raise e => Some (Raise e)
          | Ok first =>
              match right_loop fuel w self n multigenics (position first) []
                      (position first) with
              | None => None
              | Some (Raise e) => Some (Raise e)
              | Some (Ok b1) => Some (Ok (b0, b1))
              end
          end
      end
  end.

(** Turns that are enough for either loop: on a linear contig the position
    moves by one towards an end of the contig or out of the list. *)
Definition enough_fuel (w : World) (self : Region) : nat :=
  let len := match Region_contig w self with
             | Ok c => length (genes c) | Raise _ => O end in
  let far g := Z.to_nat (Z.abs (position g)) in
  S (S (len + len + foldr (fun g m => far g `max` m) O (region_genes self))).

Definition getBorderingGenes (w : World) (self : Region) (n : Z) (multigenics : list nat)
  : option (result (list nat * list nat)) :=
  getBorderingGenes_fuel (enough_fuel w self) w self n multigenics.

(** *** class Edge *)

(** [Edge.addGenes] on the edge object [self]. *)
Definition Edge_addGenes (self : nat) (sourceGene targetGene : Gene) : M World unit :=
  let org := organism sourceGene in
  if decide (org <> organism targetGene) then raise Exception
  else
    let* e := get_edge self in
    let pairs := default [] (dget org (organisms e)) in
    put_edge self (with_organisms (dset org (pairs ++ [(sourceGene, targetGene)]) (organisms e)) e).

(** [Edge.__init__]: the reference of the new edge object.  The object is
    entered in the store once the two family checks have passed; from then on
    the two families hold it, whatever happens next. *)
Definition Edge_init (sourceGene targetGene : Gene) : M World nat :=
  match family sourceGene with
  | None => raise Exception
  | Some src =>
      match family targetGene with
      | None => raise Exception
      | Some tgt =>
          let* w := get in
          let self := length (edge_heap w) in
          let* _ := modify (fun w => with_edge_heap
                      (edge_heap w ++ [{| source := src; target := tgt; organisms := [] |}]) w) in
          let* s := get_family src in
          let* _ := put_family src (with_edges (dset tgt self (_edges s)) s) in
          let* t := get_family tgt in
          let* _ := put_family tgt (with_edges (dset src self (_edges t)) t) in
          let* _ := Edge_addGenes self sourceGene targetGene in
          ret self
      end
  end.

(** [Edge.genePairs] *)
Definition genePairs (e : Edge) : list (Gene * Gene) := concat (values (organisms e)).

(** *** class Pangenome *)

(** What [addOrganism] may be given. *)
Inductive organism_arg : Set :=
| AnOrganism (o : Organism)
| AStr (s : string)
| AnotherObject.

(** [Pangenome.addOrganism]: the organism, or [None] for the object that is
    neither an Organism nor a string and is handed back as it came. *)
Definition addOrganism (newOrg : organism_arg) : M World (option Organism) :=
  match newOrg with
  | AnOrganism o =>
      let* p := get_pan in
      let oldLen := len (_orgGetter p) in
      let* _ := put_pan (with_orgGetter (dset (org_name o) o (_orgGetter p)) p) in
      let* p' := get_pan in
      if decide (len (_orgGetter p') = oldLen) then raise KeyError
      else ret (Some o)
  | AStr name =>
      let* p := get_pan in
      match dget name (_orgGetter p) with
      | Some org => ret (Some org)
      | None =>
          let* w := get in
          let org := {| org_id := org_count w; org_name := name |} in
          let* _ := modify (with_org_count (S (org_count w))) in
          let* _ := put_pan (with_orgGetter (dset (org_name org) org (_orgGetter p)) p) in
          ret (Some org)
      end
  | AnotherObject => ret None
  end.

(** [Pangenome.addEdge] *)
Definition addEdge (gene1 gene2 : Gene) : M World nat :=
  let key : gset (option nat) := {[ family gene1; family gene2 ]} in
  let* p := get_pan in
  match dget key (_edgeGetter p) with
  | None =>
      let* edge := Edge_init gene1 gene2 in
      let* p := get_pan in
      let* _ := put_pan (with_edgeGetter (dset key edge (_edgeGetter p)) p) in
      ret edge
  | Some edge =>
      let* _ := Edge_addGenes edge gene1 gene2 in
      ret edge
  end.

(** The loop of [getIndex]: [for index, org in enumerate(...): idx[org] = index] *)
Fixpoint enumerate_into (orgs : list Organism) (start : nat)
    (idx : dict (option Organism) nat) : dict (option Organism) nat :=
  match orgs with
  | [] => idx
  | org :: orgs' => enumerate_into orgs' (S start) (dset (Some org) start idx)
  end.

(** [Pangenome.getIndex] *)
Definition getIndex : M World (dict (option Organism) nat) :=
  let* p := get_pan in
  match _orgIndex p with
  | None =>
      let idx := enumerate_into (values (_orgGetter p)) O [] in
      let* _ := put_pan (with_orgIndex (Some idx) p) in
      ret idx
  | Some idx => ret idx
  end.

(** [GeneFamily.mkBitarray] of pangenome.py on the family object [self]. *)
Definition mkBitarray (self : nat) (index : dict (option Organism) nat) : M World unit :=
  let* f := get_family self in
  let* _ := put_family self (with_bitarray (Some 0%N) f) in
  for_each (keys (_genePerOrg f)) (fun org =>
    let* i := lift (of_option KeyError (dget org index)) in
    let* f := get_family self in
    put_family self (with_bitarray (Some (N.setbit (default 0%N (bitarray f)) (N.of_nat i))) f)).

(** [Pangenome.computeFamilyBitarrays] *)
Definition computeFamilyBitarrays : M World (dict (option Organism) nat) :=
  let* p := get_pan in
  match _orgIndex p with
  | None =>
      let* idx := getIndex in
      let* p := get_pan in
      let* _ := for_each (values (_famGetter p)) (fun fam => mkBitarray fam idx) in
      ret idx
  | Some idx => ret idx
  end.

(** What [addRegions] may be given: a Region, a list or a set of Regions, or
    an object that is none of these. *)
Inductive region_arg : Set :=
| ARegion (r : Region)
| AList (l : list Region)
| ASet (s : list Region)
| ANumber (z : Z).

(** [isinstance(x, collections.abc.Iterable)]: whether the class of [x] has
    an [__iter__].  Region defines [__getitem__] and [__len__] only. *)
Definition isinstance_Iterable (x : region_arg) : bool :=
  match x with
  | ARegion _ => false
  | AList _ | ASet _ => true
  | ANumber _ => false
  end.

(** A set of Regions.  [Region.__hash__] is [id(self)], so two members are
    the same member exactly when they are the same object. *)
Definition set_add (r : Region) (s : list Region) : list Region :=
  if existsb (fun r' => Nat.eqb (reg_id r') (reg_id r)) s then s else s ++ [r].
Definition set_union (s t : list Region) : list Region := foldl (fun s r => set_add r s) s t.

(** [s |= x] on a [set]: [set.__ior__] answers NotImplemented unless [x] is a
    set or a frozenset, and Region has no [__ror__], which ends in TypeError. *)
Definition set_ior (s : list Region) (x : region_arg) : result (list Region) :=
  match x with
  | ASet t => Ok (set_union s t)
  | ARegion _ | AList _ | ANumber _ => Raise TypeError
  end.

(** [set(x)] on an iterable. *)
Definition set_of (x : region_arg) : result (list Region) :=
  match x with
  | AList l | ASet l => Ok (set_union [] l)
  | ARegion _ | ANumber _ => Raise TypeError
  end.

Definition isinstance_Region (x : region_arg) : bool :=
  match x with ARegion _ => true | _ => false end.

(** [Pangenome.addRegions] *)
Definition addRegions (regionGroup : region_arg) : M World unit :=
  let* p := get_pan in
  if isinstance_Iterable regionGroup then
    let* t := lift (set_of regionGroup) in
    let* r := lift (set_ior (regions p) (ASet t)) in
    put_pan (with_regions r p)
  else if isinstance_Region regionGroup then
    let* r := lift (set_ior (regions p) regionGroup) in
    put_pan (with_regions r p)
  else raise TypeError.

(** *** The rest of class Region *)

(** [Region.__eq__]: the families of the genes, forward or reversed.  Two
    families are equal when they are the same object, or both [None]. *)
Definition Region_eq (self : Region) (other : region_arg) : result bool :=
  match other with
  | ARegion other =>
      if decide (map family (region_genes self) = map family (region_genes other))
      then Ok true
      else if decide (map family (region_genes self)
                      = map family (rev (region_genes other)))
      then Ok true
      else Ok false
  | AList _ | ASet _ | ANumber _ => Raise TypeError
  end.

(** [Region.append] for a Gene. *)
Definition Region_append (value : Gene) (self : Region) : Region :=
  {| reg_id := reg_id self; region_genes := region_genes self ++ [value];
     region_name := region_name self; region_score := region_score self |}.

(** [Region.organism] *)
Definition Region_organism (self : Region) : result (option Organism) :=
  let? g := index (region_genes self) 0 in Ok (organism g).

(** [Region.__len__] and [Region.__getitem__] *)
Definition Region_len (self : Region) : Z := Z.of_nat (length (region_genes self)).
Definition Region_getitem (self : Region) (i : Z) : result Gene := index (region_genes self) i.


(** *** The rest of class GeneFamily *)

Definition with_partition (s : string) (f : GeneFamily) : GeneFamily :=
  {| fam_name := fam_name f; fam_ID := fam_ID f; _edges := _edges f;
     _genePerOrg := _genePerOrg f; fam_genes := fam_genes f; removed := removed f;
     sequence := sequence f; partition := s; bitarray := bitarray f |}.
Definition with_sequence (s : string) (f : GeneFamily) : GeneFamily :=
  {| fam_name := fam_name f; fam_ID := fam_ID f; _edges := _edges f;
     _genePerOrg := _genePerOrg f; fam_genes := fam_genes f; removed := removed f;
     sequence := s; partition := partition f; bitarray := bitarray f |}.
Definition with_genePerOrg (d : dict (option Organism) (list Gene)) (f : GeneFamily)
  : GeneFamily :=
  {| fam_name := fam_name f; fam_ID := fam_ID f; _edges := _edges f;
     _genePerOrg := d; fam_genes := fam_genes f; removed := removed f;
     sequence := sequence f; partition := partition f; bitarray := bitarray f |}.

(** [GeneFamily.addSequence] and [GeneFamily.addPartition] on the family
    object [self]. *)
Definition addSequence (self : nat) (seq : string) : M World unit :=
  let* f := get_family self in put_family self (with_sequence seq f).
Definition addPartition (self : nat) (partition : string) : M World unit :=
  let* f := get_family self in put_family self (with_partition partition f).

(** [GeneFamily.getOrgDict]: [_genePerOrg] is set by [__init__], so the
    handler of AttributeError is never entered. *)
Definition getOrgDict (self : nat) : M World (dict (option Organism) (list Gene)) :=
  let* f := get_family self in ret (_genePerOrg f).

(** [GeneFamily.getGenesPerOrg]: [self._genePerOrg[org]] on a
    [defaultdict(set)], which enters an empty set under a key it does not
    have. *)
Definition getGenesPerOrg (self : nat) (org : option Organism) : M World (list Gene) :=
  let* f := get_family self in
  match dget org (_genePerOrg f) with
  | Some s => ret s
  | None =>
      let* _ := put_family self (with_genePerOrg (dset org [] (_genePerOrg f)) f) in
      ret []
  end.

(** [GeneFamily.neighbors], [GeneFamily.edges] and [GeneFamily.organisms] *)
Definition neighbors (self : nat) : M World (list nat) :=
  let* f := get_family self in ret (keys (_edges f)).
Definition edges_of (self : nat) : M World (list nat) :=
  let* f := get_family self in ret (values (_edges f)).
Definition organisms_of (self : nat) : M World (list (option Organism)) :=
  let* f := get_family self in ret (keys (_genePerOrg f)).

(** *** The rest of class Pangenome *)

Definition with_famGetter (d : dict string nat) (p : Pangenome) : Pangenome :=
  {| _famGetter := d; max_fam_id := max_fam_id p; _orgGetter := _orgGetter p;
     _edgeGetter := _edgeGetter p; regions := regions p; _orgIndex := _orgIndex p |}.
Definition with_max_fam_id (n : Z) (p : Pangenome) : Pangenome :=
  {| _famGetter := _famGetter p; max_fam_id := n; _orgGetter := _orgGetter p;
     _edgeGetter := _edgeGetter p; regions := regions p; _orgIndex := _orgIndex p |}.

(** [Pangenome.__init__] *)
Definition Pangenome_init : Pangenome :=
  {| _famGetter := []; max_fam_id := 0; _orgGetter := []; _edgeGetter := [];
     regions := []; _orgIndex := None |}.

(** [Pangenome.number_of_organisms] and [Pangenome.number_of_geneFamilies] *)
Definition number_of_organisms : M World Z :=
  let* p := get_pan in ret (Z.of_nat (len (_orgGetter p))).
Definition number_of_geneFamilies : M World Z :=
  let* p := get_pan in ret (Z.of_nat (len (_famGetter p))).

(** [GeneFamily.__init__] of pangenome.py *)
Definition GeneFamily_init (ID : Z) (name : string) : GeneFamily :=
  {| fam_name := name; fam_ID := ID; _edges := []; _genePerOrg := []; fam_genes := [];
     removed := false; sequence := ""; partition := ""; bitarray := None |}.

(** [Pangenome._createGeneFamily]: the reference of the new family. *)
Definition _createGeneFamily (name : string) : M World nat :=
  let* p := get_pan in
  let* w := get in
  let newFam := length (fam_heap w) in
  let* _ := modify (fun w => with_fam_heap
              (fam_heap w ++ [GeneFamily_init (max_fam_id p) name]) w) in
  let* _ := put_pan (with_max_fam_id (max_fam_id p + 1) p) in
  let* p := get_pan in
  let* f := get_family newFam in
  let* _ := put_pan (with_famGetter (dset (fam_name f) newFam (_famGetter p)) p) in
  ret newFam.

(** [Pangenome.addGeneFamily] *)
Definition addGeneFamily (name : string) : M World nat :=
  let* p := get_pan in
  match dget name (_famGetter p) with
  | Some fam => ret fam
  | None => _createGeneFamily name
  end.

(** [Pangenome.getGeneFamily] *)
Definition getGeneFamily (name : string) : M World nat :=
  let* p := get_pan in lift (of_option KeyError (dget name (_famGetter p))).

End pangenome.

(** ** src/ppanggolin/geneFamily.py *)

Module geneFamily.
Import genome.

(** class GeneFamily of geneFamily.py, with the attributes its [__init__]
    sets.  The sets of spots and modules hold references. *)
Record GeneFamily : Type := {
  name : string;
  ID : Z;
  _edges : dict nat nat;
  _genePerOrg : dict Organism (list Gene);
  _genes_getter : dict string Gene;
  removed : bool;
  sequence : string;
  partition : string;
  _spots : list nat;
  _modules : list nat;
  bitarray : option N
}.

Definition with_genePerOrg (d : dict Organism (list Gene)) (f : GeneFamily) : GeneFamily :=
  {| name := name f; ID := ID f; _edges := _edges f; _genePerOrg := d;
     _genes_getter := _genes_getter f; removed := removed f; sequence := sequence f;
     partition := partition f; _spots := _spots f; _modules := _modules f;
     bitarray := bitarray f |}.
Definition with_genes_getter (d : dict string Gene) (f : GeneFamily) : GeneFamily :=
  {| name := name f; ID := ID f; _edges := _edges f; _genePerOrg := _genePerOrg f;
     _genes_getter := d; removed := removed f; sequence := sequence f;
     partition := partition f; _spots := _spots f; _modules := _modules f;
     bitarray := bitarray f |}.
Definition with_bitarray (b : option N) (f : GeneFamily) : GeneFamily :=
  {| name := name f; ID := ID f; _edges := _edges f; _genePerOrg := _genePerOrg f;
     _genes_getter := _genes_getter f; removed := removed f; sequence := sequence f;
     partition := partition f; _spots := _spots f; _modules := _modules f;
     bitarray := b |}.
Definition with_partition (s : string) (f : GeneFamily) : GeneFamily :=
  {| name := name f; ID := ID f; _edges := _edges f; _genePerOrg := _genePerOrg f;
     _genes_getter := _genes_getter f; removed := removed f; sequence := sequence f;
     partition := s; _spots := _spots f; _modules := _modules f;
     bitarray := bitarray f |}.

(** [GeneFamily.__init__] *)
Definition __init__ (family_id : Z) (name : string) : result GeneFamily :=
  if decide (name = "") then Raise AssertionError
  else Ok {| name := name; ID := family_id; _edges := []; _genePerOrg := [];
             _genes_getter := []; removed := false; sequence := ""; partition := "";
             _spots := []; _modules := []; bitarray := None |}.

(** [GeneFamily.__len__] *)
Definition __len__ (self : GeneFamily) : Z := Z.of_nat (len (_genes_getter self)).

(** [GeneFamily.__setitem__] *)
Definition __setitem__ (identifier : string) (gene : Gene) : M GeneFamily unit :=
  let* self := get in
  if decide (is_Some (dget identifier (_genes_getter self))) then raise KeyError
  else modify (with_genes_getter (dset identifier gene (_genes_getter self))).

(** [GeneFamily.__getitem__] *)
Definition __getitem__ (identifier : string) : M GeneFamily Gene :=
  let* self := get in
  lift (of_option KeyError (dget identifier (_genes_getter self))).

(** [del d[k]] on a dict. *)
Definition ddel {V} (k : string) (d : dict string V) : dict string V :=
  filter (fun kv => kv.1 <> k) d.

(** [GeneFamily.__delitem__] *)
Definition __delitem__ (identifier : string) : M GeneFamily unit :=
  let* self := get in
  match dget identifier (_genes_getter self) with
  | None => raise KeyError
  | Some _ => modify (with_genes_getter (ddel identifier (_genes_getter self)))
  end.

(** [s.add(x)] on a set of genes kept in a [defaultdict(set)] under [org]. *)
Definition cache_add (org : Organism) (gene : Gene) (d : dict Organism (list Gene))
  : dict Organism (list Gene) :=
  let s := default [] (dget org d) in
  dset org (if decide (gene ∈ s) then s else s ++ [gene]) d.

(** [GeneFamily.add]; [self_ref] is the reference of the family, which the
    gene's [family] attribute receives. *)
Definition add (self_ref : nat) (gene : Gene) : M GeneFamily unit :=
  let gene' := {| gene_ID := gene_ID gene; position := position gene;
                  organism := organism gene; contig := contig gene;
                  family := Some self_ref |} in
  let* _ := __setitem__ (gene_ID gene) gene' in
  match organism gene with
  | Some org =>
      let* self := get in
      modify (with_genePerOrg (cache_add org gene' (_genePerOrg self)))
  | None => ret tt
  end.

(** [GeneFamily.get] and [GeneFamily.remove] *)
Definition get_gene (identifier : string) : M GeneFamily Gene := __getitem__ identifier.
Definition remove (identifier : string) : M GeneFamily unit := __delitem__ identifier.

(** [GeneFamily.named_partition] *)
Definition named_partition (self : GeneFamily) : result string :=
  if decide (partition self = "") then Raise ValueError
  else if String.prefix "P" (partition self) then Ok "persistent"
  else if String.prefix "C" (partition self) then Ok "cloud"
  else if String.prefix "S" (partition self) then Ok "shell"
  else Ok "undefined".

(** [GeneFamily.genes] *)
Definition genes_of (self : GeneFamily) : list Gene := values (_genes_getter self).

(** [GeneFamily.get_org_dict] *)
Definition get_org_dict : M GeneFamily (dict Organism (list Gene)) :=
  let* self := get in
  let* _ :=
    (if decide (len (_genePerOrg self) = 0) then
       for_each (genes_of self) (fun gene =>
         match organism gene with
         | None => raise AttributeError
         | Some org =>
             let* self := get in
             modify (with_genePerOrg (cache_add org gene (_genePerOrg self)))
         end)
     else ret tt) in
  let* self := get in
  ret (_genePerOrg self).

(** [GeneFamily.organisms], the organisms the generator yields. *)
Definition organisms_of : M GeneFamily (list Organism) :=
  let* self := get in
  let* _ := (if decide (len (_genePerOrg self) = 0)
             then let* _ := get_org_dict in ret tt else ret tt) in
  let* self := get in
  ret (keys (_genePerOrg self)).

(** [GeneFamily.get_genes_per_org] *)
Definition get_genes_per_org (org : Organism) : M GeneFamily (list Gene) :=
  let* self := get in
  let* _ := (if decide (len (_genePerOrg self) = 0)
             then let* _ := get_org_dict in ret tt else ret tt) in
  let* self := get in
  lift (of_option KeyError (dget org (_genePerOrg self))).

(** [for org in self.organisms: self.bitarray[index[org]] = 1] *)
Definition set_organism_bits (index : dict Organism nat) : M GeneFamily unit :=
  let* orgs := organisms_of in
  for_each orgs (fun org =>
    let* i := lift (of_option KeyError (dget org index)) in
    let* self := get in
    modify (with_bitarray (Some (N.setbit (default 0%N (bitarray self)) (N.of_nat i))))).

(** [GeneFamily.mk_bitarray] *)
Definition mk_bitarray (index : dict Organism nat) (partition : string) : M GeneFamily unit :=
  let* _ := modify (with_bitarray (Some 0%N)) in
  if decide (partition = "all") then set_organism_bits index
  else if decide (partition ∈ ["shell"; "cloud"]) then
    let* self := get in
    let* p := lift (named_partition self) in
    if decide (p = partition) then set_organism_bits index else ret tt
  else if decide (partition = "accessory") then
    let* self := get in
    let* p := lift (named_partition self) in
    if decide (p ∈ ["shell"; "cloud"]) then set_organism_bits index else ret tt
  else ret tt.

(** What an attribute of the object may hold, as far as [len] can tell. *)
Inductive attribute : Set :=
| VStr (s : string)
| VInt (z : Z)
| VBool (b : bool)
| VNone
| VSized (n : nat).

(** [len(x)] *)
Definition py_len (x : attribute) : result Z :=
  match x with
  | VStr s => Ok (Z.of_nat (String.length s))
  | VSized n => Ok (Z.of_nat n)
  | VInt _ | VBool _ | VNone => Raise TypeError
  end.

Section MetaFeatures.

(** Modelled from the spec: class MetaFeatures of ppanggolin.metadata, the
    base class of GeneFamily, is not part of the sources at hand; the spec
    calls it a metadata capability mixin.  [MetaFeatures] stands for the
    attributes an object has from it, by name. *)
Variable MetaFeatures : dict string attribute.

(** [self.<attr>] for a name that is not a method or a property of the
    class: the attributes [__init__] assigns, then what the base class
    provides.  Neither [__init__] nor the body of class GeneFamily binds the
    name [_genes]. *)
Definition getattr (self : GeneFamily) (attr : string) : result attribute :=
  if decide (attr = "name") then Ok (VStr (name self))
  else if decide (attr = "ID") then Ok (VInt (ID self))
  else if decide (attr = "_edges") then Ok (VSized (len (_edges self)))
  else if decide (attr = "_genePerOrg") then Ok (VSized (len (_genePerOrg self)))
  else if decide (attr = "_genes_getter") then Ok (VSized (len (_genes_getter self)))
  else if decide (attr = "removed") then Ok (VBool (removed self))
  else if decide (attr = "sequence") then Ok (VStr (sequence self))
  else if decide (attr = "partition") then Ok (VStr (partition self))
  else if decide (attr = "_spots") then Ok (VSized (length (_spots self)))
  else if decide (attr = "_modules") then Ok (VSized (length (_modules self)))
  else if decide (attr = "bitarray") then
    Ok (match bitarray self with Some b => VInt (Z.of_N b) | None => VNone end)
  else of_option AttributeError (dget attr MetaFeatures).

(** [GeneFamily.number_of_genes]: [len(self._genes)] *)
Definition number_of_genes (self : GeneFamily) : result Z :=
  let? v := getattr self "_genes" in py_len v.

End MetaFeatures.

End geneFamily.

(** * [src/ppanggolin/formats/writeSequences.py] *)

Module writeSequences.
Import Py.

(** A Python [str] of which slices are taken is a list of characters. *)
Definition str := list Ascii.ascii.

Definition newline : Ascii.ascii := Ascii.ascii_of_nat 10.

(** How a slice bound is adjusted to a sequence of length [n]: a negative
    bound counts from the end, and the result is clamped to [0..n]. *)
Definition adjust_index (n : nat) (i : Z) : nat :=
  if (i <? 0)%Z then Z.to_nat (Z.max (i + Z.of_nat n) 0)
  else Z.to_nat (Z.min i (Z.of_nat n)).

(** [sequence[lo:hi]] *)
Definition slice (sequence : str) (lo hi : Z) : str :=
  let start := adjust_index (length sequence) lo in
  let stop := adjust_index (length sequence) hi in
  take (stop - start) (drop start sequence).

(** The [while] loop of [write_spaced_fasta]; [None] is a run that the fuel
    did not suffice for. *)
Fixpoint write_spaced_fasta_loop (fuel : nat) (sequence : str) (space : Z)
    (seq : str) (j : Z) : option str :=
  match fuel with
  | 0 => None
  | S fuel =>
      if (j <? Z.of_nat (length sequence))%Z then
        write_spaced_fasta_loop fuel sequence space
          (seq ++ slice sequence j (j + space) ++ [newline]) (j + space)
      else Some seq
  end.

(** [write_spaced_fasta] *)
Definition write_spaced_fasta (fuel : nat) (sequence : str) (space : Z) : option str :=
  write_spaced_fasta_loop fuel sequence space [] 0.

(** The truth value of an optional string argument: [None] and the empty
    string are false. *)
Definition truthy (x : option string) : bool :=
  match x with
  | Some s => bool_decide (s <> "")
  | None => false
  end.

Definition is_not_None (x : option string) : bool :=
  match x with Some _ => true | None => false end.

(** [x in values], for an argument that may be [None]. *)
Definition among (values : list string) (x : option string) : bool :=
  match x with
  | Some s => bool_decide (s ∈ values)
  | None => false
  end.

(** [sub in s] on strings. *)
Fixpoint contains (sub s : string) : bool :=
  String.prefix sub s ||
  match s with
  | EmptyString => false
  | String _ s' => contains sub s'
  end.

(** The keyword arguments that [check_pangenome_to_write_sequences] hands to
    [check_pangenome_info]. *)
Record needs : Set := {
  need_annotations : bool;
  need_families : bool;
  need_graph : bool;
  need_partitions : bool;
  need_spots : bool;
  need_regions : bool;
  need_modules : bool
}.

(** [check_pangenome_to_write_sequences], up to its last statement, the call
    [check_pangenome_info(pangenome, need_annotations=..., ...)]: the result
    is the exception raised before that call, or the arguments of the call.
    [status] is [pangenome.status]. *)
Definition check_pangenome_to_write_sequences (status : dict string string)
    (regions genes genes_prot gene_families prot_families : option string)
  : result needs :=
  if negb (existsb truthy [regions; genes; genes_prot; prot_families; gene_families])
  then Raise AssertionError
  else
    let need_annotations := false in
    let need_families := false in
    let need_graph := false in
    let need_partitions := false in
    let need_spots := false in
    let need_regions := false in
    let need_modules := false in
    let '(need_families, need_annotations) :=
      match prot_families with
      | Some p => (true, if bool_decide (p ∈ ["core"; "softcore"]) then true
                         else need_annotations)
      | None => (need_families, need_annotations)
      end in
    let '(need_annotations, need_families) :=
      if existsb is_not_None [regions; genes; genes_prot; gene_families]
      then (true, true) else (need_annotations, need_families) in
    let '(need_annotations, need_regions) :=
      if is_not_None regions ||
         existsb (fun x => bool_decide (x = Some "rgp")) [genes; gene_families; prot_families]
      then (true, true) else (need_annotations, need_regions) in
    let need_partitions :=
      if existsb (among ["persistent"; "shell"; "cloud"]) [genes; gene_families; prot_families]
      then true else need_partitions in
    let need_modules :=
      fold_left (fun need x =>
                   match x with
                   | Some s => if contains "module_" s then true else need
                   | None => need
                   end) [genes; gene_families; prot_families] need_modules in
    if negb (need_annotations || need_families || need_graph || need_partitions ||
             need_spots || need_regions || need_modules)
    then Raise ValueError
    else
      let? geneSequences := of_option KeyError (dget "geneSequences" status) in
      if bool_decide (geneSequences ∉ ["inFile"]) && (truthy genes || truthy gene_families)
      then Raise AttributeError
      else
        let? geneFamilySequences := of_option KeyError (dget "geneFamilySequences" status) in
        if bool_decide (geneFamilySequences ∉ ["Loaded"; "Computed"; "inFile"]) &&
           truthy prot_families
        then Raise AttributeError
        else Ok {| need_annotations := need_annotations; need_families := need_families;
                   need_graph := need_graph; need_partitions := need_partitions;
                   need_spots := need_spots; need_regions := need_regions;
                   need_modules := need_modules |}.

End writeSequences.


(** * Properties *)

(** ** Python lists and dicts *)

Section PyFacts.
Context {K V : Type} `{EqDecision K}.
Implicit Types (d : dict K V) (k : K) (v : V).

Lemma index_first_last {A} (l : list A) (x : A) :
  index l 0 = Ok x -> exists y, index l (-1) = Ok y.
Proof.
  destruct l as [|a l]; [discriminate|]. intros _.
  destruct (lookup_lt_is_Some_2 (a :: l) (length l)) as [y Hy]; [simpl; lia|].
  exists y. unfold index. cbn -[Z.of_nat lookup length].
  replace (-1 + Z.of_nat (length (a :: l)))%Z with (Z.of_nat (length l))
    by (simpl length; lia).
  destruct (Z.ltb_spec (Z.of_nat (length l)) 0); [lia|].
  destruct (Z.leb_spec (Z.of_nat (length (a :: l))) (Z.of_nat (length l)));
    [simpl length in *; lia|].
  cbn [orb]. rewrite Nat2Z.id, Hy. reflexivity.
Qed.

Lemma index_Ok_range {A} (l : list A) (i : Z) (x : A) :
  index l i = Ok x -> (- Z.of_nat (length l) <= i < Z.of_nat (length l))%Z.
Proof.
  unfold index. destruct (Z.ltb_spec i 0);
  match goal with |- context [(?a <? 0)%Z] => destruct (Z.ltb_spec a 0) end;
  match goal with |- context [(?a <=? ?b)%Z] => destruct (Z.leb_spec a b) end;
  cbn [orb]; try discriminate; intros _; lia.
Qed.

Lemma dget_dset_eq d k v : dget k (dset k v d) = Some v.
Proof.
  induction d as [|[k' v'] d IH]; simpl.
  - destruct (decide (k = k)); congruence.
  - destruct (decide (k' = k)) as [->|Hne]; simpl.
    + destruct (decide (k = k)); congruence.
    + destruct (decide (k' = k)); congruence.
Qed.

Lemma dget_dset_ne d k k' v : k <> k' -> dget k' (dset k v d) = dget k' d.
Proof.
  intros Hne. induction d as [|[k0 v0] d IH]; simpl.
  - destruct (decide (k = k')); congruence.
  - destruct (decide (k0 = k)) as [->|Hne0]; simpl.
    + destruct (decide (k = k')); congruence.
    + destruct (decide (k0 = k')); congruence.
Qed.

Lemma len_dset_present d k v v0 : dget k d = Some v0 -> len (dset k v d) = len d.
Proof.
  unfold len. induction d as [|[k' v'] d IH]; simpl; [discriminate|].
  destruct (decide (k' = k)); simpl; [reflexivity|]. intros Hg. f_equal. auto.
Qed.

Lemma len_dset_absent d k v : dget k d = None -> len (dset k v d) = S (len d).
Proof.
  unfold len. induction d as [|[k' v'] d IH]; simpl; [reflexivity|].
  destruct (decide (k' = k)); simpl; [discriminate|]. intros Hg. f_equal. auto.
Qed.

Lemma keys_dset_present d k v v0 : dget k d = Some v0 -> keys (dset k v d) = keys d.
Proof.
  unfold keys. induction d as [|[k' v'] d IH]; simpl; [discriminate|].
  destruct (decide (k' = k)) as [->|]; simpl; [reflexivity|]. intros Hg. f_equal. auto.
Qed.

Lemma keys_dset_absent d k v : dget k d = None -> keys (dset k v d) = keys d ++ [k].
Proof.
  unfold keys. induction d as [|[k' v'] d IH]; simpl; [reflexivity|].
  destruct (decide (k' = k)); simpl; [discriminate|]. intros Hg. f_equal. auto.
Qed.

Lemma dget_Some_keys d k : is_Some (dget k d) <-> k ∈ keys d.
Proof.
  unfold keys. induction d as [|[k' v'] d IH]; simpl.
  - split; [intros [? ?]; discriminate | intros Hin; inversion Hin].
  - destruct (decide (k' = k)) as [->|Hne].
    + split; [intros _; left | eauto].
    + rewrite IH. split; [right; assumption|].
      intros Hin. inversion Hin; subst; [contradiction | assumption].
Qed.

End PyFacts.

(** ** Region.getBorderingGenes *)

Section BorderingGenes.
Import genome pangenome.
Variables (w : World) (self : Region) (multigenics : list nat).

Lemma left_guard_circular c n border pos :
  Region_contig w self = Ok c -> is_circular c = true ->
  left_guard w self n border pos = Ok false.
Proof.
  intros Hc Hcirc. unfold left_guard. rewrite Hc. simpl. rewrite Hcirc.
  destruct (Z.of_nat (length border) <? n)%Z, (pos =? 0)%Z; reflexivity.
Qed.

Lemma right_guard_circular c n border pos :
  Region_contig w self = Ok c -> is_circular c = true ->
  right_guard w self n border pos = Ok false.
Proof.
  intros Hc Hcirc. unfold right_guard. rewrite Hc. simpl. rewrite Hcirc.
  destruct (Z.of_nat (length border) <? n)%Z,
    (pos =? Z.of_nat (length (genes c)) - 1)%Z; reflexivity.
Qed.

(** What a family in [border[0]] satisfies, and what one in [border[1]]. *)
Definition left_ok (f : nat) : Prop :=
  (f ∉ multigenics) /\
  exists fam, fam_heap w !! f = Some fam /\ namedPartition fam = Ok "persistent".
Definition right_ok (f : nat) : Prop := f ∉ multigenics.

Lemma accept_left_true curr_fam :
  accept_left w multigenics curr_fam = Ok true ->
  exists f, curr_fam = Some f /\ left_ok f.
Proof.
  destruct curr_fam as [f|]; simpl; [|discriminate].
  case_bool_decide as Hin; [discriminate|].
  destruct (fam_heap w !! f) as [fam|] eqn:Hfam; simpl; [|discriminate].
  destruct (namedPartition fam) as [p|] eqn:Hp; simpl; [|discriminate].
  case_bool_decide as Hpers; [|discriminate]. subst p. intros _.
  exists f. split; [reflexivity|]. split; [assumption|]. eauto.
Qed.

Lemma accept_right_true curr_fam :
  accept_right multigenics curr_fam = true ->
  exists f, curr_fam = Some f /\ right_ok f.
Proof.
  destruct curr_fam as [f|]; simpl; [|discriminate].
  case_bool_decide as Hin; [discriminate|]. intros _. exists f. split; auto.
Qed.

Lemma left_body_keeps init border pos border' pos' brk :
  Forall left_ok border ->
  left_body w self multigenics init border pos = Ok (border', pos', brk) ->
  Forall left_ok border'.
Proof.
  intros Hall. unfold left_body.
  match goal with |- context [rbind ?c _] => destruct c as [curr_fam|] end;
    simpl; [|discriminate].
  destruct (accept_left w multigenics curr_fam) as [[|]|] eqn:Hacc;
    simpl; [| |discriminate].
  - apply accept_left_true in Hacc as (f & -> & Hf).
    match goal with |- context [rbind ?c _] => destruct c end; simpl; [|discriminate].
    intros [= <- _ _]. apply Forall_app. split; [assumption|]. simpl. constructor; [assumption | constructor].
  - match goal with |- context [rbind ?c _] => destruct c end; simpl; [|discriminate].
    intros [= <- _ _]. assumption.
Qed.

Lemma left_loop_keeps fuel n init border pos r :
  Forall left_ok border ->
  left_loop fuel w self n multigenics init border pos = Some (Ok r) ->
  Forall left_ok r.
Proof.
  revert border pos. induction fuel as [|fuel IH]; intros border pos Hall; simpl;
    [discriminate|].
  destruct (left_guard w self n border pos) as [[|]|]; [| congruence | discriminate].
  destruct (left_body w self multigenics init border pos) as [[[b' p'] brk]|] eqn:Hbody;
    [|discriminate].
  pose proof (left_body_keeps _ _ _ _ _ _ Hall Hbody) as Hall'.
  destruct brk; [congruence|]. apply IH. assumption.
Qed.

Lemma right_body_keeps init border pos border' pos' brk :
  Forall right_ok border ->
  right_body w self multigenics init border pos = Ok (border', pos', brk) ->
  Forall right_ok border'.
Proof.
  intros Hall. unfold right_body.
  destruct (Region_contig w self) as [c|]; simpl; [|discriminate].
  match goal with |- context [rbind ?c _] => destruct c as [curr_fam|] end;
    simpl; [|discriminate].
  match goal with |- context [rbind ?c _] => destruct c end; simpl; [|discriminate].
  destruct (_ =? init)%Z; [discriminate|].
  destruct (accept_right multigenics curr_fam) eqn:Hacc; intros [= <- _ _]; [|assumption].
  apply accept_right_true in Hacc as (f & -> & Hf).
  apply Forall_app. split; [assumption|]. simpl. constructor; [assumption | constructor].
Qed.

Lemma right_loop_keeps fuel n init border pos r :
  Forall right_ok border ->
  right_loop fuel w self n multigenics init border pos = Some (Ok r) ->
  Forall right_ok r.
Proof.
  revert border pos. induction fuel as [|fuel IH]; intros border pos Hall; simpl;
    [discriminate|].
  destruct (right_guard w self n border pos) as [[|]|]; [| congruence | discriminate].
  destruct (right_body w self multigenics init border pos) as [[[b' p'] brk]|] eqn:Hbody;
    [|discriminate].
  pose proof (right_body_keeps _ _ _ _ _ _ Hall Hbody) as Hall'.
  destruct brk; [congruence|]. apply IH. assumption.
Qed.

Lemma left_guard_true n border pos :
  left_guard w self n border pos = Ok true ->
  pos <> 0%Z /\ exists c, Region_contig w self = Ok c /\ is_circular c = false.
Proof.
  unfold left_guard. destruct (Z.of_nat (length border) <? n)%Z; [|discriminate].
  destruct (Z.eqb_spec pos 0); simpl; [discriminate|].
  destruct (Region_contig w self) as [c|]; simpl; [|discriminate].
  destruct (is_circular c) eqn:Hc; simpl; [discriminate|]. eauto.
Qed.

Lemma right_guard_true n border pos :
  right_guard w self n border pos = Ok true ->
  exists c, Region_contig w self = Ok c /\ is_circular c = false /\
            pos <> (Z.of_nat (length (genes c)) - 1)%Z.
Proof.
  unfold right_guard. destruct (Z.of_nat (length border) <? n)%Z; [|discriminate].
  destruct (Region_contig w self) as [c|]; simpl; [|discriminate].
  destruct (Z.eqb_spec pos (Z.of_nat (length (genes c)) - 1)); simpl; [discriminate|].
  destruct (is_circular c) eqn:Hc; simpl; [discriminate|]. eauto.
Qed.

(** On a linear contig the first loop ends: the position goes down to 0, or
    below the list. *)
Lemma left_loop_returns fuel n init border pos :
  (Z.to_nat (if (0 <=? pos)%Z then pos
             else match Region_contig w self with
                  | Ok c => pos + Z.of_nat (length (genes c)) + 1
                  | Raise _ => 0 end) < fuel)%nat ->
  is_Some (left_loop fuel w self n multigenics init border pos).
Proof.
  revert border pos. induction fuel as [|fuel IH]; intros border pos Hfuel; [lia|].
  simpl. destruct (left_guard w self n border pos) as [[|]|] eqn:Hg; [|eauto..].
  apply left_guard_true in Hg as (Hpos & c & Hc & Hlin).
  unfold left_body. rewrite Hc in *. simpl. rewrite Hlin.
  destruct (Z.eqb_spec pos 0); [contradiction|].
  destruct (index (genes c) (pos - 1)) as [g|] eqn:Hi; simpl; [|eauto].
  apply index_Ok_range in Hi.
  destruct (accept_left w multigenics (family g)) as [acc|]; simpl; [|eauto].
  destruct (Z.eqb_spec (pos - 1) (-1)); [lia|]. simpl.
  destruct (pos - 1 =? init)%Z; [eauto|].
  apply IH. destruct (Z.leb_spec 0 pos), (Z.leb_spec 0 (pos - 1)); lia.
Qed.

(** On a linear contig the second loop ends: the position goes up to the last
    index, or the next gene is out of the list. *)
Lemma right_loop_returns fuel n init border pos :
  (0 < fuel)%nat ->
  match Region_contig w self with
  | Ok c => (pos + 1 < - Z.of_nat (length (genes c)))%Z \/
            (Z.to_nat (Z.of_nat (length (genes c)) - 1 - pos) < fuel)%nat
  | Raise _ => True
  end ->
  is_Some (right_loop fuel w self n multigenics init border pos).
Proof.
  revert border pos. induction fuel as [|fuel IH]; intros border pos Hpos Hfuel; [lia|].
  simpl. destruct (right_guard w self n border pos) as [[|]|] eqn:Hg; [|eauto..].
  apply right_guard_true in Hg as (c & Hc & Hlin & Hne).
  unfold right_body. rewrite Hc in *. simpl. rewrite Hlin.
  destruct (Z.eqb_spec pos (Z.of_nat (length (genes c)) - 1)); [contradiction|].
  destruct (index (genes c) (pos + 1)) as [g|] eqn:Hi; simpl; [|eauto].
  apply index_Ok_range in Hi.
  destruct (Z.eqb_spec (pos + 1) (Z.of_nat (length (genes c)))); [lia|]. simpl.
  destruct (pos + 1 =? init)%Z; [eauto|].
  apply IH; [lia|]. right. lia.
Qed.

Lemma index_Ok_elem {A} (l : list A) (i : Z) (x : A) : index l i = Ok x -> x ∈ l.
Proof.
  unfold index. destruct (_ || _); [discriminate|].
  destruct (l !! _) eqn:Hl; simpl; [|discriminate].
  intros [= <-]. eapply list_elem_of_lookup_2; eassumption.
Qed.

Lemma farthest_bound (l : list Gene) (g : Gene) :
  g ∈ l ->
  (Z.to_nat (Z.abs (position g))
   <= foldr (fun g m => Z.to_nat (Z.abs (position g)) `max` m) O l)%nat.
Proof.
  induction 1 as [g l|g g' l _ IH]; simpl; lia.
Qed.

(** [getBorderingGenes] always gives an answer: a pair of borders or an
    exception. *)
Lemma getBorderingGenes_returns n :
  is_Some (getBorderingGenes w self n multigenics).
Proof.
  unfold getBorderingGenes, getBorderingGenes_fuel.
  destruct (index (region_genes self) (-1)) as [last|] eqn:Hlast; [|eauto].
  pose proof (farthest_bound _ _ (index_Ok_elem _ _ _ Hlast)) as Hfar.
  edestruct (left_loop_returns (enough_fuel w self) n (position last) [] (position last))
    as [[b0|e] ->]; [|clear Hfar|eauto].
  { unfold enough_fuel. destruct (Region_contig w self), (Z.leb_spec 0 (position last)); lia. }
  destruct (index (region_genes self) 0) as [first|] eqn:Hfirst; [|eauto].
  pose proof (farthest_bound _ _ (index_Ok_elem _ _ _ Hfirst)) as Hfar.
  edestruct (right_loop_returns (enough_fuel w self) n (position first) [] (position first))
    as [[b1|e] ->]; [| |eauto..].
  { unfold enough_fuel. lia. }
  { unfold enough_fuel. destruct (Region_contig w self) as [c|]; [|exact I].
    destruct (Z.lt_ge_cases (position first + 1) (- Z.of_nat (length (genes c))));
      [left; assumption | right; lia]. }
Qed.

End BorderingGenes.

Section BorderingExamples.
Import genome pangenome.

Definition mk_family (nm part : string) : GeneFamily :=
  {| fam_name := nm; fam_ID := 0; _edges := []; _genePerOrg := []; fam_genes := [];
     removed := false; sequence := ""; partition := part; bitarray := None |}.

Definition mk_gene (id : string) (pos : Z) (fam : nat) : Gene :=
  {| gene_ID := id; position := pos; organism := None; contig := 0;
     family := Some fam |}.

Definition empty_pangenome : Pangenome :=
  {| _famGetter := []; max_fam_id := 0; _orgGetter := []; _edgeGetter := [];
     regions := []; _orgIndex := None |}.

Definition four_genes : list Gene :=
  [mk_gene "g0" 0 0; mk_gene "g1" 1 1; mk_gene "g2" 2 2; mk_gene "g3" 3 3].

(** A circular contig of four genes, every family persistent, and the region
    made of its gene at position 1. *)
Definition circular_world : World :=
  {| fam_heap := [mk_family "f0" "P"; mk_family "f1" "P"; mk_family "f2" "P";
                  mk_family "f3" "P"];
     edge_heap := [];
     contig_heap := [{| genes := four_genes; is_circular := true |}];
     org_count := 0; pan := empty_pangenome |}.

Definition region_g1 : Region :=
  {| reg_id := 0; region_genes := [mk_gene "g1" 1 1]; region_name := "rgp";
     region_score := 0 |}.

Definition five_genes : list Gene :=
  [mk_gene "g0" 0 0; mk_gene "g1" 1 1; mk_gene "g2" 2 2; mk_gene "g3" 3 3;
   mk_gene "g4" 4 4].

(** A linear contig of five genes whose families are persistent, shell,
    persistent, shell and cloud, and the region made of its middle gene. *)
Definition linear_world : World :=
  {| fam_heap := [mk_family "f0" "P"; mk_family "f1" "S"; mk_family "f2" "P";
                  mk_family "f3" "S"; mk_family "f4" "C"];
     edge_heap := [];
     contig_heap := [{| genes := five_genes; is_circular := false |}];
     org_count := 0; pan := empty_pangenome |}.

Definition region_g2 : Region :=
  {| reg_id := 0; region_genes := [mk_gene "g2" 2 2]; region_name := "rgp";
     region_score := 0 |}.

End BorderingExamples.

(** C1, as the code has it.  The guard of either loop of getBorderingGenes
    asks for a contig that is not circular, so on a circular contig no turn of
    either loop is taken: the call returns at once, for every n, with both
    border lists empty.  It does terminate, but the walk that wraps around the
    contig and stops on its return to the start, which the bodies of the loops
    prepare, never takes place. *)
Theorem getBorderingGenes_circular_no_walk
    (w : pangenome.World) (self : pangenome.Region) (c : genome.Contig)
    (n : Z) (multigenics : list nat) :
  pangenome.Region_contig w self = Ok c ->
  genome.is_circular c = true ->
  pangenome.getBorderingGenes w self n multigenics = Some (Ok ([], [])).
Proof.
  intros Hc Hcirc. unfold pangenome.getBorderingGenes, pangenome.getBorderingGenes_fuel.
  assert (exists first, index (pangenome.region_genes self) 0 = Ok first) as [first Hfirst].
  { unfold pangenome.Region_contig in Hc.
    destruct (index (pangenome.region_genes self) 0); [eauto | discriminate]. }
  destruct (index_first_last _ _ Hfirst) as [last Hlast].
  rewrite Hlast, Hfirst. unfold pangenome.enough_fuel. cbn [pangenome.left_loop].
  rewrite (left_guard_circular _ _ _ _ _ _ Hc Hcirc).
  cbn [pangenome.right_loop].
  rewrite (right_guard_circular _ _ _ _ _ _ Hc Hcirc). reflexivity.
Qed.

(** On the circular contig of four genes, with n = 6 around the one-gene
    region, nothing is collected on either side. *)
Lemma getBorderingGenes_circular_no_walk_witness :
  pangenome.getBorderingGenes circular_world region_g1 6 [] = Some (Ok ([], [])).
Proof.
  apply (getBorderingGenes_circular_no_walk circular_world region_g1
           {| genome.genes := four_genes; genome.is_circular := true |});
    reflexivity.
Defined.

(** C2.  Whenever getBorderingGenes returns its two border lists, every family
    of the left list (border[0]) is outside multigenics and has the named
    partition "persistent", and every family of the right list (border[1]) is
    outside multigenics; on the right a candidate outside multigenics is
    accepted whatever its partition. *)
Theorem getBorderingGenes_border_filter
    (w : pangenome.World) (self : pangenome.Region) (n : Z) (multigenics : list nat)
    (b0 b1 : list nat) :
  pangenome.getBorderingGenes w self n multigenics = Some (Ok (b0, b1)) ->
  (forall f, f ∈ b0 ->
     (f ∉ multigenics) /\
     exists fam, pangenome.fam_heap w !! f = Some fam /\
                 pangenome.namedPartition fam = Ok "persistent") /\
  (forall f, f ∈ b1 -> f ∉ multigenics) /\
  (forall f, f ∉ multigenics -> pangenome.accept_right multigenics (Some f) = true).
Proof.
  unfold pangenome.getBorderingGenes, pangenome.getBorderingGenes_fuel. intros Hrun.
  destruct (index (pangenome.region_genes self) (-1)) as [last|]; [|discriminate].
  destruct (pangenome.left_loop _ _ _ _ _ _ _ _) as [[l|]|] eqn:Hleft; [|discriminate..].
  destruct (index (pangenome.region_genes self) 0) as [first|]; [|discriminate].
  destruct (pangenome.right_loop _ _ _ _ _ _ _ _) as [[r|]|] eqn:Hright; [|discriminate..].
  injection Hrun as <- <-.
  apply left_loop_keeps in Hleft; [|constructor].
  apply right_loop_keeps in Hright; [|constructor].
  rewrite Forall_forall in Hleft, Hright.
  split; [exact Hleft|]. split; [exact Hright|].
  intros f Hf. simpl. rewrite bool_decide_eq_false_2; auto.
Qed.

(** On the linear contig the shell family next to the region is kept on the
    right and skipped on the left. *)
Lemma getBorderingGenes_border_filter_witness :
  pangenome.getBorderingGenes linear_world region_g2 2 [] = Some (Ok ([0], [3; 4]))
  /\ pangenome.namedPartition (mk_family "f3" "S") = Ok "shell"
  /\ ((forall f, f ∈ [0] ->
         (f ∉ []) /\
         exists fam, pangenome.fam_heap linear_world !! f = Some fam /\
                     pangenome.namedPartition fam = Ok "persistent") /\
      (forall f, f ∈ [3; 4] -> f ∉ []) /\
      (forall f, f ∉ [] -> pangenome.accept_right [] (Some f) = true)).
Proof.
  split; [reflexivity|]. split; [reflexivity|].
  apply (getBorderingGenes_border_filter linear_world region_g2 2 [] [0] [3; 4]).
  reflexivity.
Defined.

(** ** Pangenome.addOrganism *)

Section AddOrganism.
Import genome pangenome.

(** What the specification expects of a call with an Organism whose name is
    taken: a conflict, and the getter still answering the Organism that was
    registered. *)
Definition addOrganism_keeps_registered (w : World) (newOrg old : Organism) : Prop :=
  let '(r, w') := addOrganism (AnOrganism newOrg) w in
  r = Raise KeyError /\ dget (org_name newOrg) (_orgGetter (pan w')) = Some old.

Definition ecoli_first : Organism := {| org_id := 0; org_name := "E.coli" |}.
Definition ecoli_second : Organism := {| org_id := 1; org_name := "E.coli" |}.

(** A pangenome in which the first of two Organism objects named E.coli is
    registered. *)
Definition one_organism_world : World :=
  {| fam_heap := []; edge_heap := []; contig_heap := []; org_count := 2;
     pan := with_orgGetter [("E.coli", ecoli_first)] empty_pangenome |}.

End AddOrganism.

(** C3, as stated, fails: the second Organism named E.coli is refused with
    KeyError, but it has taken the place of the first in the getter. *)
Lemma addOrganism_duplicate_replaces_counterexample :
  dget "E.coli" (pangenome._orgGetter (pangenome.pan one_organism_world)) = Some ecoli_first
  /\ ~ addOrganism_keeps_registered one_organism_world ecoli_second ecoli_first.
Proof.
  split; [reflexivity|]. unfold addOrganism_keeps_registered. vm_compute.
  intros [_ H]. discriminate H.
Qed.

(** C3, amended.  When the name of the Organism instance is already
    registered, addOrganism fails with KeyError after it has assigned the
    instance to its name: nothing else of the store changes, the registered
    names and their order are the same, but the name now leads to the instance
    given, not to the Organism registered before. *)
Theorem addOrganism_duplicate_name
    (w : pangenome.World) (newOrg old : genome.Organism) :
  dget (genome.org_name newOrg) (pangenome._orgGetter (pangenome.pan w)) = Some old ->
  let '(r, w') := pangenome.addOrganism (pangenome.AnOrganism newOrg) w in
  r = Raise KeyError /\
  w' = pangenome.with_pan
         (pangenome.with_orgGetter
            (dset (genome.org_name newOrg) newOrg (pangenome._orgGetter (pangenome.pan w)))
            (pangenome.pan w)) w /\
  dget (genome.org_name newOrg) (pangenome._orgGetter (pangenome.pan w')) = Some newOrg /\
  keys (pangenome._orgGetter (pangenome.pan w')) = keys (pangenome._orgGetter (pangenome.pan w)) /\
  (forall other, other <> genome.org_name newOrg ->
     dget other (pangenome._orgGetter (pangenome.pan w'))
     = dget other (pangenome._orgGetter (pangenome.pan w))).
Proof.
  intros Hold. unfold pangenome.addOrganism, bind, pangenome.get_pan, pangenome.put_pan,
    modify, raise, ret. cbn -[len dset dget keys].
  rewrite (len_dset_present _ _ _ _ Hold).
  destruct (decide (len (pangenome._orgGetter (pangenome.pan w))
                    = len (pangenome._orgGetter (pangenome.pan w)))); [|congruence].
  cbn -[len dset dget keys]. split; [reflexivity|]. split; [reflexivity|].
  split; [apply dget_dset_eq|]. split; [eapply keys_dset_present; eassumption|].
  intros other Hne. apply dget_dset_ne. congruence.
Qed.

Lemma addOrganism_duplicate_name_witness :
  let '(r, w') := pangenome.addOrganism (pangenome.AnOrganism ecoli_second) one_organism_world in
  r = Raise KeyError /\
  w' = pangenome.with_pan
         (pangenome.with_orgGetter
            (dset "E.coli" ecoli_second
               (pangenome._orgGetter (pangenome.pan one_organism_world)))
            (pangenome.pan one_organism_world)) one_organism_world /\
  dget "E.coli" (pangenome._orgGetter (pangenome.pan w')) = Some ecoli_second /\
  keys (pangenome._orgGetter (pangenome.pan w'))
  = keys (pangenome._orgGetter (pangenome.pan one_organism_world)) /\
  (forall other, other <> "E.coli" ->
     dget other (pangenome._orgGetter (pangenome.pan w'))
     = dget other (pangenome._orgGetter (pangenome.pan one_organism_world))).
Proof.
  apply (addOrganism_duplicate_name one_organism_world ecoli_second ecoli_first).
  reflexivity.
Defined.

(** ** Pangenome.addRegions *)

(** C5, as the code has it.  A Region has no [__iter__], so addRegions takes
    its second branch, where [self.regions |= regionGroup] asks a set to take
    in an object that is not a set: the call raises TypeError and the region
    set is as before, for every pangenome and every single Region. *)
Theorem addRegions_single_region_raises (w : pangenome.World) (r : pangenome.Region) :
  pangenome.addRegions (pangenome.ARegion r) w = (Raise TypeError, w).
Proof.
  unfold pangenome.addRegions. unfold bind at 1. cbn [pangenome.get_pan].
  cbn [pangenome.isinstance_Iterable pangenome.isinstance_Region].
  unfold bind, lift. cbn [pangenome.set_ior]. reflexivity.
Qed.

(** The same Region in a list is taken in. *)
Lemma addRegions_list_of_one (w : pangenome.World) (r : pangenome.Region) :
  pangenome.addRegions (pangenome.AList [r]) w
  = (Ok tt, pangenome.with_pan
              (pangenome.with_regions
                 (pangenome.set_add r (pangenome.regions (pangenome.pan w)))
                 (pangenome.pan w)) w).
Proof. reflexivity. Qed.

(** ** Pangenome.computeFamilyBitarrays *)

Section ForEach.
Context {S A T : Type} (proj : S -> T).

(** A loop whose body leaves a part of the store alone leaves it alone,
    whether it runs to the end or raises on the way. *)
Lemma for_each_keeps (xs : list A) (body : A -> M S unit) :
  (forall x s, proj (body x s).2 = proj s) ->
  forall s, proj (for_each xs body s).2 = proj s.
Proof.
  intros Hbody. induction xs as [|x xs IH]; intros s; [reflexivity|].
  cbn [for_each]. unfold bind. specialize (Hbody x s).
  destruct (body x s) as [[[]|e] s']; simpl in *; [|assumption].
  rewrite IH. assumption.
Qed.

End ForEach.

Section FamilyBitarrays.
Import genome pangenome.

Lemma mkBitarray_keeps_pan (f : nat) (idx : dict (option Organism) nat) (w : World) :
  pan (mkBitarray f idx w).2 = pan w.
Proof.
  unfold mkBitarray, bind, get_family.
  destruct (fam_heap w !! f) as [F|]; simpl; [|reflexivity].
  rewrite (for_each_keeps pan); [reflexivity|].
  intros org s. unfold bind, lift, get_family.
  destruct (dget org idx); simpl; [|reflexivity].
  destruct (fam_heap s !! f); reflexivity.
Qed.

Lemma getIndex_builds (w : World) :
  _orgIndex (pan w) = None ->
  getIndex w
  = (Ok (enumerate_into (values (_orgGetter (pan w))) 0 []),
     with_pan (with_orgIndex (Some (enumerate_into (values (_orgGetter (pan w))) 0 []))
                 (pan w)) w).
Proof. intros Hidx. unfold getIndex, bind, get_pan. rewrite Hidx. reflexivity. Qed.

(** After a call of computeFamilyBitarrays the organism index exists, whether
    the call returned or raised. *)
Lemma computeFamilyBitarrays_sets_index (w : World) :
  exists idx, _orgIndex (pan (computeFamilyBitarrays w).2) = Some idx /\
              forall idx', (computeFamilyBitarrays w).1 = Ok idx' -> idx' = idx.
Proof.
  unfold computeFamilyBitarrays, bind, get_pan.
  destruct (_orgIndex (pan w)) as [idx|] eqn:Hidx.
  - exists idx. split; [exact Hidx | simpl; congruence].
  - rewrite (getIndex_builds w Hidx).
    set (idx := enumerate_into (values (_orgGetter (pan w))) 0 []).
    set (w1 := with_pan (with_orgIndex (Some idx) (pan w)) w).
    exists idx.
    pose proof (for_each_keeps pan (values (_famGetter (pan w1)))
                  (fun fam => mkBitarray fam idx)
                  (fun x s => mkBitarray_keeps_pan x idx s) w1) as Hpan.
    destruct (for_each _ _ w1) as [[[]|e] w2]; simpl in *;
      rewrite Hpan; (split; [reflexivity | congruence]).
Qed.

End FamilyBitarrays.

(** C9.  A second call of computeFamilyBitarrays, with nothing changed in
    between, finds the organism index in place and computes nothing: the store
    after it is the store after the first call, so every family has the
    bitarray it had, and the call returns the index the first call built or
    found. *)
Theorem computeFamilyBitarrays_idempotent (w : pangenome.World) :
  let '(r1, w1) := pangenome.computeFamilyBitarrays w in
  let '(r2, w2) := pangenome.computeFamilyBitarrays w1 in
  w2 = w1 /\
  (forall f, pangenome.bitarray <$> pangenome.fam_heap w2 !! f
             = pangenome.bitarray <$> pangenome.fam_heap w1 !! f) /\
  (exists idx, pangenome._orgIndex (pangenome.pan w1) = Some idx /\ r2 = Ok idx) /\
  (forall idx, r1 = Ok idx -> r2 = Ok idx).
Proof.
  destruct (computeFamilyBitarrays_sets_index w) as (idx & Hidx & Hr1).
  destruct (pangenome.computeFamilyBitarrays w) as [r1 w1]; simpl in *.
  unfold pangenome.computeFamilyBitarrays at 1, bind, pangenome.get_pan. simpl.
  rewrite Hidx. simpl. split; [reflexivity|]. split; [reflexivity|].
  split; [eauto|]. intros idx' ->. f_equal. symmetry. apply Hr1. reflexivity.
Qed.

(** ** Edge and Pangenome.addEdge *)

Section AddEdge.
Import genome pangenome.

Lemma bind_Ok {S A B} (m : M S A) (k : A -> M S B) (s s' : S) (a : A) :
  m s = (Ok a, s') -> bind m k s = k a s'.
Proof. unfold bind. intros ->. reflexivity. Qed.

Lemma bind_Raise {S A B} (m : M S A) (k : A -> M S B) (s s' : S) (e : exn) :
  m s = (Raise e, s') -> bind m k s = (Raise e, s').
Proof. unfold bind. intros ->. reflexivity. Qed.

(** The edge object as [Edge.__init__] has it when it reaches [addGenes]. *)
Definition bare_edge (src tgt : nat) : Edge :=
  {| source := src; target := tgt; organisms := [] |}.

(** The family heap once the new edge [e] is entered in [_edges] of [src]
    under [tgt], then in [_edges] of [tgt] under [src]. *)
Definition link_families (src tgt e : nat) (h : list GeneFamily) : list GeneFamily :=
  let h1 := match h !! src with
            | Some s => <[src := with_edges (dset tgt e (_edges s)) s]> h
            | None => h end in
  match h1 !! tgt with
  | Some t => <[tgt := with_edges (dset src e (_edges t)) t]> h1
  | None => h1
  end.

(** The store when [Edge.__init__] reaches [addGenes]. *)
Definition registered (src tgt : nat) (w : World) : World :=
  with_fam_heap (link_families src tgt (length (edge_heap w)) (fam_heap w))
    (with_edge_heap (edge_heap w ++ [bare_edge src tgt]) w).

Lemma link_families_linked (src tgt e : nat) (h : list GeneFamily) :
  is_Some (h !! src) -> is_Some (h !! tgt) ->
  (exists s, link_families src tgt e h !! src = Some s /\ dget tgt (_edges s) = Some e) /\
  (exists t, link_families src tgt e h !! tgt = Some t /\ dget src (_edges t) = Some e).
Proof.
  intros [s Hs] [t Ht]. unfold link_families. rewrite Hs.
  pose proof (lookup_lt_Some _ _ _ Hs) as Hlen_s.
  pose proof (lookup_lt_Some _ _ _ Ht) as Hlen_t.
  destruct (decide (src = tgt)) as [->|Hne].
  - rewrite list_lookup_insert_eq by assumption.
    rewrite list_lookup_insert_eq by (rewrite length_insert; assumption).
    split; eexists; (split; [reflexivity|]); simpl; apply dget_dset_eq.
  - rewrite list_lookup_insert_ne by assumption. rewrite Ht. split.
    + rewrite list_lookup_insert_ne by congruence.
      rewrite list_lookup_insert_eq by assumption.
      eexists; split; [reflexivity|]. simpl. apply dget_dset_eq.
    + rewrite list_lookup_insert_eq by (rewrite length_insert; assumption).
      eexists; split; [reflexivity|]. simpl. apply dget_dset_eq.
Qed.

Lemma length_link_families (src tgt e : nat) (h : list GeneFamily) :
  length (link_families src tgt e h) = length h.
Proof.
  unfold link_families. destruct (h !! src); destruct (_ !! tgt);
    rewrite ?length_insert; reflexivity.
Qed.

(** [Edge.__init__] on two genes with families: the edge is entered in the
    store and in both families before [addGenes] is called. *)
Lemma Edge_init_registers (g1 g2 : Gene) (src tgt : nat) (w : World) :
  family g1 = Some src -> family g2 = Some tgt ->
  is_Some (fam_heap w !! src) -> is_Some (fam_heap w !! tgt) ->
  Edge_init g1 g2 w
  = bind (Edge_addGenes (length (edge_heap w)) g1 g2)
      (fun _ => ret (length (edge_heap w))) (registered src tgt w).
Proof.
  intros H1 H2 [s Hs] [t Ht]. unfold Edge_init. rewrite H1, H2.
  unfold registered, link_families. rewrite Hs.
  pose proof (lookup_lt_Some _ _ _ Hs) as Hlen_s.
  assert (exists t', <[src := with_edges (dset tgt (length (edge_heap w)) (_edges s)) s]>
                       (fam_heap w) !! tgt = Some t') as [t' Ht'].
  { apply lookup_lt_is_Some_2. rewrite length_insert. eapply lookup_lt_Some; eassumption. }
  rewrite Ht'.
  unfold bind at 1. cbn [get].
  unfold bind at 1. cbn [modify].
  unfold bind at 1. unfold get_family at 1. cbn [fam_heap with_edge_heap]. rewrite Hs.
  cbn [of_option].
  unfold bind at 1. unfold put_family at 1. cbn [modify].
  unfold bind at 1. unfold get_family at 1. cbn [fam_heap with_edge_heap with_fam_heap].
  rewrite Ht'. cbn [of_option].
  unfold bind at 1. unfold put_family at 1. cbn [modify].
  reflexivity.
Qed.

Lemma Edge_addGenes_other_organism (e : nat) (g1 g2 : Gene) (w : World) :
  organism g1 <> organism g2 -> Edge_addGenes e g1 g2 w = (Raise Exception, w).
Proof.
  intros Hne. unfold Edge_addGenes.
  destruct (decide (organism g1 <> organism g2)); [reflexivity | contradiction].
Qed.

(** [self.organisms[org].append((sourceGene, targetGene))] *)
Definition record_pair (g1 g2 : Gene) (E : Edge) : Edge :=
  with_organisms
    (dset (organism g1) (default [] (dget (organism g1) (organisms E)) ++ [(g1, g2)])
       (organisms E)) E.

Lemma Edge_addGenes_same_organism (e : nat) (g1 g2 : Gene) (E : Edge) (w : World) :
  organism g1 = organism g2 -> edge_heap w !! e = Some E ->
  Edge_addGenes e g1 g2 w
  = (Ok tt, with_edge_heap (<[e := record_pair g1 g2 E]> (edge_heap w)) w).
Proof.
  intros Heq HE. unfold Edge_addGenes.
  destruct (decide (organism g1 <> organism g2)); [contradiction|].
  unfold bind, get_edge. rewrite HE. reflexivity.
Qed.

Lemma dset_absent {K V} `{EqDecision K} (d : dict K V) (k : K) (v : V) :
  dget k d = None -> dset k v d = d ++ [(k, v)].
Proof.
  induction d as [|[k' v'] d IH]; simpl; [reflexivity|].
  destruct (decide (k' = k)); [discriminate|]. intros Hd. f_equal. auto.
Qed.

Lemma frozenset_swap (a b : option nat) : ({[ a; b ]} : gset (option nat)) = {[ b; a ]}.
Proof. apply (comm_L (∪)). Qed.

(** [addEdge] on two genes of families without an edge yet: [Edge.__init__]
    runs, and the edge getter is assigned only if it returns. *)
Lemma addEdge_new_edge (g1 g2 : Gene) (src tgt : nat) (w : World) :
  family g1 = Some src -> family g2 = Some tgt ->
  is_Some (fam_heap w !! src) -> is_Some (fam_heap w !! tgt) ->
  dget {[ Some src; Some tgt ]} (_edgeGetter (pan w)) = None ->
  addEdge g1 g2 w
  = match Edge_addGenes (length (edge_heap w)) g1 g2 (registered src tgt w) with
    | (Ok _, w') =>
        (Ok (length (edge_heap w)),
         with_pan (with_edgeGetter
                     (dset {[ Some src; Some tgt ]} (length (edge_heap w))
                        (_edgeGetter (pan w'))) (pan w')) w')
    | (Raise x, w') => (Raise x, w')
    end.
Proof.
  intros H1 H2 Hs Ht Hnone. unfold addEdge. rewrite H1, H2.
  unfold bind at 1. cbn [get_pan]. rewrite Hnone.
  unfold bind at 1. rewrite (Edge_init_registers g1 g2 src tgt w H1 H2 Hs Ht).
  unfold bind at 1.
  destruct (Edge_addGenes _ g1 g2 _) as [[[]|x] w']; reflexivity.
Qed.

End AddEdge.

Section AddEdgeExamples.
Import genome pangenome.

Definition strain_A : Organism := {| org_id := 0; org_name := "A" |}.
Definition strain_B : Organism := {| org_id := 1; org_name := "B" |}.

Definition gene_of (id : string) (org : Organism) (fam : nat) : Gene :=
  {| gene_ID := id; position := 0; organism := Some org; contig := 0;
     family := Some fam |}.

(** Two gene families without edges, in a pangenome without edges. *)
Definition two_family_world : World :=
  {| fam_heap := [mk_family "f0" "P"; mk_family "f1" "S"]; edge_heap := [];
     contig_heap := []; org_count := 2; pan := empty_pangenome |}.

(** What the specification expects when the two genes are of different
    organisms: a failure that leaves no family's edge map and not the edge
    getter with a new edge. *)
Definition addEdge_fails_cleanly (w : World) (g1 g2 : Gene) : Prop :=
  let '(r, w') := addEdge g1 g2 w in
  (exists x, r = Raise x) /\
  (forall f, _edges <$> fam_heap w' !! f = _edges <$> fam_heap w !! f) /\
  _edgeGetter (pan w') = _edgeGetter (pan w).

End AddEdgeExamples.

(** C4, as stated, fails: for a gene of family f0 in organism A and a gene of
    family f1 in organism B, addEdge raises, but the edge map of f0 has the new
    edge under f1. *)
Lemma addEdge_across_organisms_counterexample :
  ~ addEdge_fails_cleanly two_family_world
      (gene_of "a1" strain_A 0) (gene_of "b1" strain_B 1).
Proof.
  unfold addEdge_fails_cleanly.
  rewrite (addEdge_new_edge _ _ 0 1); [|reflexivity|reflexivity|eexists; reflexivity..|reflexivity].
  rewrite Edge_addGenes_other_organism by discriminate.
  intros (_ & Hfam & _). specialize (Hfam 0). discriminate Hfam.
Qed.

(** C4, amended.  For two genes with families, of different organisms, whose
    families have no edge yet, addEdge always fails (Exception), and the
    pangenome and its edge getter are as before; but the failure comes after
    Edge.__init__ has entered the new edge, still without gene pairs, in the
    edge maps of both families, and there it stays. *)
Theorem addEdge_across_organisms
    (g1 g2 : genome.Gene) (f1 f2 : nat) (w : pangenome.World) :
  genome.family g1 = Some f1 -> genome.family g2 = Some f2 ->
  is_Some (pangenome.fam_heap w !! f1) -> is_Some (pangenome.fam_heap w !! f2) ->
  genome.organism g1 <> genome.organism g2 ->
  dget {[ Some f1; Some f2 ]} (pangenome._edgeGetter (pangenome.pan w)) = None ->
  let '(r, w') := pangenome.addEdge g1 g2 w in
  r = Raise Exception /\
  pangenome.pan w' = pangenome.pan w /\
  pangenome.edge_heap w' = pangenome.edge_heap w ++ [bare_edge f1 f2] /\
  (exists s, pangenome.fam_heap w' !! f1 = Some s /\
             dget f2 (pangenome._edges s) = Some (length (pangenome.edge_heap w))) /\
  (exists t, pangenome.fam_heap w' !! f2 = Some t /\
             dget f1 (pangenome._edges t) = Some (length (pangenome.edge_heap w))).
Proof.
  intros H1 H2 Hs Ht Horg Hnone.
  rewrite (addEdge_new_edge g1 g2 f1 f2 w H1 H2 Hs Ht Hnone).
  rewrite (Edge_addGenes_other_organism _ _ _ _ Horg).
  split; [reflexivity|]. split; [reflexivity|]. split; [reflexivity|].
  apply link_families_linked; assumption.
Qed.

Lemma addEdge_across_organisms_witness :
  let '(r, w') := pangenome.addEdge (gene_of "a1" strain_A 0) (gene_of "b1" strain_B 1)
                    two_family_world in
  r = Raise Exception /\
  pangenome.pan w' = pangenome.pan two_family_world /\
  pangenome.edge_heap w' = [bare_edge 0 1] /\
  (exists s, pangenome.fam_heap w' !! 0 = Some s /\ dget 1 (pangenome._edges s) = Some 0) /\
  (exists t, pangenome.fam_heap w' !! 1 = Some t /\ dget 0 (pangenome._edges t) = Some 0).
Proof.
  apply (addEdge_across_organisms (gene_of "a1" strain_A 0) (gene_of "b1" strain_B 1)
           0 1 two_family_world);
    [reflexivity | reflexivity | eexists; reflexivity | eexists; reflexivity
    | discriminate | reflexivity].
Defined.

(** C8.  For two genes of the same organism whose families have no edge yet,
    addEdge(g1, g2) followed by addEdge(g2, g1) returns the same Edge object
    both times: one object is added to the store, the edge getter gains the one
    entry under the unordered pair of the families, both families hold that
    edge under each other, and its gene pairs are (g1, g2) and (g2, g1), two
    in all. *)
Theorem addEdge_swapped_same_edge
    (g1 g2 : genome.Gene) (f1 f2 : nat) (w : pangenome.World) :
  genome.family g1 = Some f1 -> genome.family g2 = Some f2 ->
  is_Some (pangenome.fam_heap w !! f1) -> is_Some (pangenome.fam_heap w !! f2) ->
  genome.organism g1 = genome.organism g2 ->
  dget {[ Some f1; Some f2 ]} (pangenome._edgeGetter (pangenome.pan w)) = None ->
  let '(r1, w1) := pangenome.addEdge g1 g2 w in
  let '(r2, w2) := pangenome.addEdge g2 g1 w1 in
  let e := length (pangenome.edge_heap w) in
  r1 = Ok e /\ r2 = Ok e /\
  (exists E, pangenome.edge_heap w2 = pangenome.edge_heap w ++ [E] /\
             pangenome.source E = f1 /\ pangenome.target E = f2 /\
             pangenome.genePairs E = [(g1, g2); (g2, g1)] /\
             length (pangenome.genePairs E) = 2) /\
  pangenome._edgeGetter (pangenome.pan w2)
  = pangenome._edgeGetter (pangenome.pan w) ++ [({[ Some f1; Some f2 ]}, e)] /\
  dget {[ Some f2; Some f1 ]} (pangenome._edgeGetter (pangenome.pan w2)) = Some e /\
  (exists s, pangenome.fam_heap w2 !! f1 = Some s /\ dget f2 (pangenome._edges s) = Some e) /\
  (exists t, pangenome.fam_heap w2 !! f2 = Some t /\ dget f1 (pangenome._edges t) = Some e).
Proof.
  intros H1 H2 Hs Ht Horg Hnone.
  rewrite (addEdge_new_edge g1 g2 f1 f2 w H1 H2 Hs Ht Hnone).
  assert (pangenome.edge_heap (registered f1 f2 w) !! length (pangenome.edge_heap w)
          = Some (bare_edge f1 f2)) as Hbare.
  { simpl. apply list_lookup_middle. reflexivity. }
  rewrite (Edge_addGenes_same_organism _ g1 g2 _ _ Horg Hbare).
  set (e := length (pangenome.edge_heap w)).
  set (E1 := record_pair g1 g2 (bare_edge f1 f2)).
  set (w1 := pangenome.with_pan _ _).
  assert (pangenome.edge_heap w1 = pangenome.edge_heap w ++ [E1]) as Hheap1.
  { subst w1. simpl. rewrite insert_app_r_alt by (subst e; lia).
    subst e. rewrite Nat.sub_diag. reflexivity. }
  assert (pangenome._edgeGetter (pangenome.pan w1)
          = dset {[ Some f1; Some f2 ]} e (pangenome._edgeGetter (pangenome.pan w))) as Hget1
    by reflexivity.
  assert (pangenome.fam_heap w1 = link_families f1 f2 e (pangenome.fam_heap w)) as Hfam1
    by reflexivity.
  unfold pangenome.addEdge. rewrite H1, H2. unfold bind at 1. cbn [pangenome.get_pan].
  rewrite (frozenset_swap (Some f2) (Some f1)), Hget1, dget_dset_eq.
  unfold bind at 1.
  assert (pangenome.edge_heap w1 !! e = Some E1) as HE1.
  { rewrite Hheap1. apply list_lookup_middle. reflexivity. }
  rewrite (Edge_addGenes_same_organism _ g2 g1 _ _ (eq_sym Horg) HE1).
  cbn [ret pangenome.edge_heap pangenome.with_edge_heap pangenome.pan
       pangenome.fam_heap].
  split; [reflexivity|]. split; [reflexivity|]. split.
  { exists (record_pair g2 g1 E1). split.
    - rewrite Hheap1, insert_app_r_alt by (subst e; lia).
      subst e. rewrite Nat.sub_diag. reflexivity.
    - subst E1. unfold record_pair, pangenome.genePairs. simpl.
      rewrite <- Horg. destruct (decide (genome.organism g1 = genome.organism g1));
        [|congruence].
      simpl. destruct (decide (genome.organism g1 = genome.organism g1)); [|congruence].
      simpl. auto. }
  rewrite Hget1. split; [apply dset_absent; assumption|].
  split; [apply dget_dset_eq|].
  rewrite Hfam1. apply link_families_linked; assumption.
Qed.

Lemma addEdge_swapped_same_edge_witness :
  let '(r1, w1) := pangenome.addEdge (gene_of "a1" strain_A 0) (gene_of "a2" strain_A 1)
                     two_family_world in
  let '(r2, w2) := pangenome.addEdge (gene_of "a2" strain_A 1) (gene_of "a1" strain_A 0) w1 in
  let e := length (pangenome.edge_heap two_family_world) in
  r1 = Ok e /\ r2 = Ok e /\
  (exists E, pangenome.edge_heap w2 = pangenome.edge_heap two_family_world ++ [E] /\
             pangenome.source E = 0 /\ pangenome.target E = 1 /\
             pangenome.genePairs E
             = [(gene_of "a1" strain_A 0, gene_of "a2" strain_A 1);
                (gene_of "a2" strain_A 1, gene_of "a1" strain_A 0)] /\
             length (pangenome.genePairs E) = 2) /\
  pangenome._edgeGetter (pangenome.pan w2)
  = pangenome._edgeGetter (pangenome.pan two_family_world) ++ [({[ Some 0; Some 1 ]}, e)] /\
  dget {[ Some 1; Some 0 ]} (pangenome._edgeGetter (pangenome.pan w2)) = Some e /\
  (exists s, pangenome.fam_heap w2 !! 0 = Some s /\ dget 1 (pangenome._edges s) = Some e) /\
  (exists t, pangenome.fam_heap w2 !! 1 = Some t /\ dget 0 (pangenome._edges t) = Some e).
Proof.
  apply (addEdge_swapped_same_edge (gene_of "a1" strain_A 0) (gene_of "a2" strain_A 1)
           0 1 two_family_world);
    [reflexivity | reflexivity | eexists; reflexivity | eexists; reflexivity
    | reflexivity | reflexivity].
Defined.

(** ** GeneFamily.mk_bitarray (geneFamily.py) *)

Section MkBitarray.
Import genome geneFamily.

(** The family has at least one gene in the organism. *)
Definition has_gene_in (self : GeneFamily) (org : Organism) : bool :=
  existsb (fun g => bool_decide (organism g = Some org)) (genes_of self).

(** The partition filter, in the words of the specification: [all] always
    matches, [shell] and [cloud] match the family of that named partition,
    [accessory] matches the family whose named partition is shell or cloud. *)
Definition matches_filter (self : GeneFamily) (flt : string) : Prop :=
  flt = "all" \/
  ((flt = "shell" \/ flt = "cloud") /\ named_partition self = Ok flt) \/
  (flt = "accessory" /\
   (named_partition self = Ok "shell" \/ named_partition self = Ok "cloud")).

(** The per-organism cache [_genePerOrg], when it is not empty, has exactly
    the organisms of the genes of the family as its keys.  An empty cache is
    rebuilt from the genes when it is read. *)
Definition cache_coherent (self : GeneFamily) : bool :=
  match _genePerOrg self with
  | [] => true
  | _ =>
      forallb (has_gene_in self) (keys (_genePerOrg self)) &&
      forallb (fun g => match organism g with
                        | Some org => bool_decide (org ∈ keys (_genePerOrg self))
                        | None => true
                        end) (genes_of self)
  end.

Lemma has_gene_in_spec (self : GeneFamily) (org : Organism) :
  has_gene_in self org = true <-> exists g, g ∈ genes_of self /\ organism g = Some org.
Proof.
  unfold has_gene_in. rewrite existsb_exists. split.
  - intros (g & Hin & Hg). apply list_elem_of_In in Hin.
    apply bool_decide_eq_true in Hg. eauto.
  - intros (g & Hin & Hg). exists g. split; [apply list_elem_of_In; assumption|].
    apply bool_decide_eq_true. assumption.
Qed.

Lemma cache_coherent_spec (self : GeneFamily) (org : Organism) :
  cache_coherent self = true -> _genePerOrg self <> [] ->
  (org ∈ keys (_genePerOrg self) <-> has_gene_in self org = true).
Proof.
  unfold cache_coherent. destruct (_genePerOrg self) as [|kv d] eqn:Hd; [congruence|].
  rewrite andb_true_iff, !forallb_forall. intros [Hkeys Hgenes] _. split.
  - intros Hin. apply Hkeys, list_elem_of_In. assumption.
  - rewrite has_gene_in_spec. intros (g & Hin & Hg).
    apply list_elem_of_In in Hin. specialize (Hgenes g Hin). rewrite Hg in Hgenes.
    apply bool_decide_eq_true in Hgenes. assumption.
Qed.

Lemma elem_of_keys_dset {K V} `{EqDecision K} (d : dict K V) (k k' : K) (v : V) :
  k' ∈ keys (dset k v d) <-> k' = k \/ k' ∈ keys d.
Proof.
  destruct (dget k d) as [v0|] eqn:Hk.
  - rewrite (keys_dset_present _ _ _ _ Hk). split; [auto|]. intros [->|?]; [|assumption].
    apply dget_Some_keys. eauto.
  - rewrite (keys_dset_absent _ _ _ Hk), elem_of_app, list_elem_of_singleton. tauto.
Qed.

(** The loop of [get_org_dict]: when it runs to the end, only the cache has
    changed, and it has gained the organisms of the genes as keys. *)
Lemma get_org_dict_loop (gs : list Gene) (s s' : GeneFamily) :
  for_each gs (fun gene =>
    match organism gene with
    | None => raise AttributeError
    | Some org =>
        let* self := get in
        modify (with_genePerOrg (cache_add org gene (_genePerOrg self)))
    end) s = (Ok tt, s') ->
  exists d, s' = with_genePerOrg d s /\
    forall org, org ∈ keys d <->
                org ∈ keys (_genePerOrg s) \/ exists g, g ∈ gs /\ organism g = Some org.
Proof.
  revert s. induction gs as [|g gs IH]; intros s; cbn [for_each].
  - intros [= <-]. exists (_genePerOrg s). split; [destruct s; reflexivity|].
    intros org. split; [auto|]. intros [?|(g & Hin & _)]; [assumption|]. inversion Hin.
  - unfold bind at 1. destruct (organism g) as [o|] eqn:Ho; [|discriminate].
    cbn. intros Hrest. apply IH in Hrest as (d & -> & Hd). exists d. split; [reflexivity|].
    intros org. rewrite Hd. cbn [_genePerOrg with_genePerOrg]. unfold cache_add.
    rewrite elem_of_keys_dset. split.
    + intros [[->|?]|(g' & Hin & Hg')]; [right; exists g; split; [left|assumption] | auto |].
      right. exists g'. split; [right|]; assumption.
    + intros [?|(g' & Hin & Hg')]; [auto|].
      apply elem_of_cons in Hin as [->|Hin]; [left; left; congruence|].
      right. eauto.
Qed.

(** [self.organisms], when it returns: the organisms in which the family has
    genes; nothing but the cache may have changed. *)
Lemma organisms_of_spec (s s' : GeneFamily) (orgs : list Organism) :
  cache_coherent s = true ->
  organisms_of s = (Ok orgs, s') ->
  (exists d, s' = with_genePerOrg d s) /\
  forall org, org ∈ orgs <-> has_gene_in s org = true.
Proof.
  intros Hcoh. unfold organisms_of, get_org_dict, bind, get, ret.
  destruct (decide (len (_genePerOrg s) = 0)) as [Hlen|Hlen].
  - destruct (decide (len (_genePerOrg s) = 0)) as [_|]; [|contradiction].
    destruct (for_each _ _ s) as [[[]|x] s1] eqn:Hloop; [|discriminate].
    apply get_org_dict_loop in Hloop as (d & -> & Hd).
    intros [= <- <-]. split; [eauto|].
    intros org. cbn [_genePerOrg with_genePerOrg]. rewrite Hd, has_gene_in_spec.
    destruct (_genePerOrg s); [|discriminate]. split; [|auto].
    intros [Hin|?]; [inversion Hin | assumption].
  - intros [= <- <-]. split; [exists (_genePerOrg s); destruct s; reflexivity|].
    intros org. apply cache_coherent_spec; [assumption|].
    intros Hnil. rewrite Hnil in Hlen. contradiction.
Qed.

Lemma dget_Some_values {K V} `{EqDecision K} (d : dict K V) (k : K) (v : V) :
  dget k d = Some v -> v ∈ values d.
Proof.
  induction d as [|[k' v'] d IH]; simpl; [discriminate|].
  destruct (decide (k' = k)); [intros [= ->]; left | intros Hd; right; auto].
Qed.

(** An index that gives no position twice tells the organisms apart. *)
Lemma dget_injective {K V} `{EqDecision K} (d : dict K V) (k1 k2 : K) (v : V) :
  NoDup (values d) -> dget k1 d = Some v -> dget k2 d = Some v -> k1 = k2.
Proof.
  induction d as [|[k' v'] d IH]; simpl; [discriminate|].
  rewrite NoDup_cons. intros [Hnotin Hnodup].
  destruct (decide (k' = k1)) as [<-|], (decide (k' = k2)) as [<-|]; [reflexivity|..].
  - intros [= ->] Hd. apply dget_Some_values in Hd. contradiction.
  - intros Hd [= ->]. apply dget_Some_values in Hd. contradiction.
  - auto.
Qed.

(** The loop [for org in ...: self.bitarray[index[org]] = 1], when it runs to
    the end: the bits set are the bits that were set and the positions of the
    organisms. *)
Lemma set_bits_loop (index : dict Organism nat) (orgs : list Organism) (s s' : GeneFamily) :
  for_each orgs (fun org =>
    let* i := lift (of_option KeyError (dget org index)) in
    let* self := get in
    modify (with_bitarray (Some (N.setbit (default 0%N (bitarray self)) (N.of_nat i))))) s
  = (Ok tt, s') ->
  (is_Some (bitarray s) -> is_Some (bitarray s')) /\
  forall p, N.testbit (default 0%N (bitarray s')) p = true <->
            N.testbit (default 0%N (bitarray s)) p = true \/
            exists org i, org ∈ orgs /\ dget org index = Some i /\ p = N.of_nat i.
Proof.
  revert s. induction orgs as [|org orgs IH]; intros s; cbn [for_each].
  - intros [= <-]. split; [auto|]. intros p. split; [auto|].
    intros [?|(org & i & Hin & _)]; [assumption | inversion Hin].
  - unfold bind at 1. unfold bind at 1. unfold lift.
    destruct (dget org index) as [i|] eqn:Hi; [|discriminate]. cbn.
    intros Hrest. apply IH in Hrest as [Hsome Hbits]. cbn in Hsome, Hbits.
    split; [eauto|]. intros p. rewrite Hbits, N.setbit_iff. split.
    + intros [[<-|?]|(org' & i' & Hin & Hi' & ->)]; [right|auto|right].
      * exists org, i. split; [left|auto].
      * exists org', i'. split; [right|]; auto.
    + intros [?|(org' & i' & Hin & Hi' & ->)]; [auto|].
      apply elem_of_cons in Hin as [->|Hin]; [left; left; congruence|].
      right. eauto 6.
Qed.

Lemma set_organism_bits_spec (index : dict Organism nat) (s s' : GeneFamily) :
  cache_coherent s = true -> bitarray s = Some 0%N ->
  set_organism_bits index s = (Ok tt, s') ->
  exists b, bitarray s' = Some b /\
    forall p, N.testbit b p = true <->
              exists org i, has_gene_in s org = true /\ dget org index = Some i /\
                            p = N.of_nat i.
Proof.
  intros Hcoh Hzero. unfold set_organism_bits. unfold bind at 1.
  destruct (organisms_of s) as [[orgs|x] s1] eqn:Horgs; [|discriminate].
  apply organisms_of_spec in Horgs as [[d ->] Horgs]; [|assumption].
  intros Hloop. apply set_bits_loop in Hloop as [Hsome Hbits].
  cbn [bitarray with_genePerOrg] in Hsome, Hbits. rewrite Hzero in Hsome, Hbits.
  destruct Hsome as [b Hb]; [eauto|]. exists b. split; [assumption|].
  intros p. rewrite Hb in Hbits. cbn [default] in Hbits. rewrite Hbits, N.bits_0.
  split.
  - intros [?|(org & i & Hin & Hi & ->)]; [discriminate|].
    exists org, i. rewrite <- Horgs. auto.
  - intros (org & i & Hin & Hi & ->). right. exists org, i. rewrite Horgs. auto.
Qed.

(** What the bits are when no organism loop is run. *)
Lemma no_bits_spec (self : GeneFamily) (index : dict Organism nat) (flt : string) :
  ~ matches_filter self flt ->
  exists b, bitarray (with_bitarray (Some 0%N) self) = Some b /\
    (forall org i, dget org index = Some i ->
       (N.testbit b (N.of_nat i) = true <->
        has_gene_in self org = true /\ matches_filter self flt)) /\
    (forall p, (forall org i, dget org index = Some i -> N.of_nat i <> p) ->
       N.testbit b p = false).
Proof.
  intros Hno. exists 0%N. split; [reflexivity|]. split.
  - intros org i _. rewrite N.bits_0. split; [discriminate | tauto].
  - intros p _. apply N.bits_0.
Qed.

End MkBitarray.

(** C6.  Let the per-organism cache of the family agree with its genes (as
    [__init__] and [add] leave it), and let the index give no position to two
    organisms (as getIndex builds it).  When mk_bitarray(index, filter)
    returns, the bit at position index[org] is 1 exactly when the family has
    at least one gene in org and the family matches the filter, and a bit at a
    position that the index gives to no organism is 0. *)
Theorem mk_bitarray_bits
    (self self' : geneFamily.GeneFamily) (index : dict genome.Organism nat) (flt : string) :
  cache_coherent self = true ->
  NoDup (values index) ->
  geneFamily.mk_bitarray index flt self = (Ok tt, self') ->
  exists b, geneFamily.bitarray self' = Some b /\
    (forall org i, dget org index = Some i ->
       (N.testbit b (N.of_nat i) = true <->
        has_gene_in self org = true /\ matches_filter self flt)) /\
    (forall p, (forall org i, dget org index = Some i -> N.of_nat i <> p) ->
       N.testbit b p = false).
Proof.
  intros Hcoh Hinj.
  assert (forall s', geneFamily.set_organism_bits index
                       (geneFamily.with_bitarray (Some 0%N) self) = (Ok tt, s') ->
            matches_filter self flt ->
            exists b, geneFamily.bitarray s' = Some b /\
              (forall org i, dget org index = Some i ->
                 (N.testbit b (N.of_nat i) = true <->
                  has_gene_in self org = true /\ matches_filter self flt)) /\
              (forall p, (forall org i, dget org index = Some i -> N.of_nat i <> p) ->
                 N.testbit b p = false)) as Hloop.
  { intros s' Hrun Hmatch.
    apply set_organism_bits_spec in Hrun as (b & Hb & Hbits); [|exact Hcoh|reflexivity].
    exists b. split; [assumption|]. split.
    - intros org i Hi. rewrite Hbits. split.
      + intros (org' & i' & Hgene & Hi' & Heq). apply Nat2N.inj in Heq. subst i'.
        rewrite (dget_injective _ _ _ _ Hinj Hi Hi'). auto.
      + intros [Hgene _]. exists org, i. auto.
    - intros p Hfree. destruct (N.testbit b p) eqn:Hp; [|reflexivity].
      apply Hbits in Hp as (org & i & _ & Hi & ->). exfalso. eapply Hfree; eauto. }
  unfold geneFamily.mk_bitarray. unfold bind at 1. cbn [modify].
  destruct (decide (flt = "all")) as [->|Hall].
  { intros Hrun. apply Hloop; [assumption | left; reflexivity]. }
  destruct (decide (flt ∈ ["shell"; "cloud"])) as [Hsc|Hsc].
  { assert (flt = "shell" \/ flt = "cloud") as Hflt.
    { apply elem_of_cons in Hsc as [?|Hsc]; [auto|].
      apply list_elem_of_singleton in Hsc. auto. }
    unfold bind at 1. cbn [get]. unfold bind at 1. unfold lift.
    change (geneFamily.named_partition (geneFamily.with_bitarray (Some 0%N) self))
      with (geneFamily.named_partition self).
    destruct (geneFamily.named_partition self) as [p|x] eqn:Hp; [|discriminate].
    destruct (decide (p = flt)) as [->|Hne].
    - intros Hrun. apply Hloop; [assumption|]. right. left. auto.
    - intros [= <-]. apply no_bits_spec. unfold matches_filter. rewrite Hp.
      intros [?|[[_ [= ?]]|[-> _]]]; [contradiction|contradiction|].
      destruct Hflt; discriminate. }
  destruct (decide (flt = "accessory")) as [->|Hacc].
  { unfold bind at 1. cbn [get]. unfold bind at 1. unfold lift.
    change (geneFamily.named_partition (geneFamily.with_bitarray (Some 0%N) self))
      with (geneFamily.named_partition self).
    destruct (geneFamily.named_partition self) as [p|x] eqn:Hp; [|discriminate].
    destruct (decide (p ∈ ["shell"; "cloud"])) as [Hin|Hnotin].
    - intros Hrun. apply Hloop; [assumption|]. right. right. split; [reflexivity|].
      unfold matches_filter. rewrite Hp.
      apply elem_of_cons in Hin as [->|Hin]; [auto|].
      apply list_elem_of_singleton in Hin. subst p. auto.
    - intros [= <-]. apply no_bits_spec. unfold matches_filter. rewrite Hp.
      intros [?|[[[?|?] _]|[_ [[= ->]|[= ->]]]]]; try discriminate;
        apply Hnotin; [left | right; left]. }
  intros [= <-]. apply no_bits_spec. unfold matches_filter.
  intros [?|[[[Hs|Hc] _]|[? _]]]; [contradiction|rewrite Hs in *|rewrite Hc in *|contradiction];
    apply Hsc; [left | right; left].
Qed.

Section CacheInStep.
Import genome geneFamily.

(** The cache has exactly the organisms of the genes as its keys. *)
Definition cache_in_step (s : GeneFamily) : Prop :=
  forall org, org ∈ keys (_genePerOrg s) <-> has_gene_in s org = true.

Lemma cache_in_step_coherent (s : GeneFamily) : cache_in_step s -> cache_coherent s = true.
Proof.
  intros Hstep. unfold cache_coherent. destruct (_genePerOrg s) as [|kv d] eqn:Hd; [reflexivity|].
  rewrite <- Hd. apply andb_true_iff. split; apply forallb_forall.
  - intros org Hin. apply Hstep, list_elem_of_In. assumption.
  - intros g Hin. destruct (organism g) as [org|] eqn:Hg; [|reflexivity].
    apply bool_decide_eq_true, Hstep, has_gene_in_spec.
    exists g. split; [apply list_elem_of_In|]; assumption.
Qed.

(** A family as [__init__] makes it has its cache in step. *)
Lemma init_in_step (family_id : Z) (nm : string) (s : GeneFamily) :
  __init__ family_id nm = Ok s -> cache_in_step s.
Proof.
  unfold __init__. destruct (decide (nm = "")); [discriminate|]. intros [= <-] org.
  split; [intros Hin; inversion Hin | discriminate].
Qed.

(** [add] keeps the cache in step. *)
Lemma add_in_step (self_ref : nat) (gene : Gene) (s s' : GeneFamily) :
  cache_in_step s -> add self_ref gene s = (Ok tt, s') -> cache_in_step s'.
Proof.
  intros Hstep. unfold add, __setitem__, bind, get, modify, raise, ret.
  destruct (decide (is_Some (dget (gene_ID gene) (_genes_getter s)))) as [|Hfree];
    [discriminate|].
  assert (dget (gene_ID gene) (_genes_getter s) = None) as Hnone.
  { destruct (dget _ _); [exfalso; eauto | reflexivity]. }
  set (gene' := {| gene_ID := gene_ID gene; position := position gene;
                   organism := organism gene; contig := contig gene;
                   family := Some self_ref |}).
  assert (forall t org, genes_of t = genes_of s ++ [gene'] ->
            (has_gene_in t org = true <->
             has_gene_in s org = true \/ organism gene = Some org)) as Hgenes.
  { intros t org Ht. rewrite !has_gene_in_spec, Ht. split.
    - intros (g & Hin & Hg). apply elem_of_app in Hin as [Hin|Hin]; [left; eauto|].
      apply list_elem_of_singleton in Hin. subst g. right. exact Hg.
    - intros [(g & Hin & Hg)|Hg].
      + exists g. split; [apply elem_of_app; left|]; assumption.
      + exists gene'. split; [apply elem_of_app; right; apply list_elem_of_singleton|];
          auto. }
  assert (values (dset (gene_ID gene) gene' (_genes_getter s))
          = genes_of s ++ [gene']) as Hvals.
  { rewrite (dset_absent _ _ _ Hnone). unfold values, genes_of. rewrite map_app. reflexivity. }
  destruct (organism gene) as [o|] eqn:Ho; intros [= <-] org;
    pose proof (Hgenes (with_genes_getter (dset (gene_ID gene) gene' (_genes_getter s)) s)
                  org Hvals) as Hg.
  - cbn [_genePerOrg with_genePerOrg with_genes_getter]. unfold cache_add.
    rewrite elem_of_keys_dset, (Hstep org). split.
    + intros Hk. apply (proj2 Hg). destruct Hk as [->|?]; auto.
    + intros Hh. destruct (proj1 Hg Hh) as [?|[= ->]]; auto.
  - cbn [_genePerOrg with_genes_getter]. rewrite (Hstep org). split.
    + intros Hk. apply (proj2 Hg). auto.
    + intros Hh. destruct (proj1 Hg Hh) as [?|?]; [assumption | discriminate].
Qed.

End CacheInStep.

Section GeneFamilyExamples.
Import genome geneFamily.

Definition strain_C : Organism := {| org_id := 2; org_name := "C" |}.

(** [GeneFamily(7, "fam7")] *)
Definition fresh_family : GeneFamily :=
  {| name := "fam7"; ID := 7; _edges := []; _genePerOrg := []; _genes_getter := [];
     removed := false; sequence := ""; partition := ""; _spots := []; _modules := [];
     bitarray := None |}.

Lemma fresh_family_init : __init__ 7 "fam7" = Ok fresh_family.
Proof. reflexivity. Qed.

Definition gene_a1 : Gene :=
  {| gene_ID := "a1"; position := 0; organism := Some strain_A; contig := 0; family := None |}.
Definition gene_c1 : Gene :=
  {| gene_ID := "c1"; position := 0; organism := Some strain_C; contig := 0; family := None |}.

(** The family after [add(a1)] and [add(c1)]: one gene in A, one in C. *)
Definition family_AC : GeneFamily := (add 7 gene_c1 (add 7 gene_a1 fresh_family).2).2.

(** The family after [add(a1)] and [remove("a1")]: no gene is left, and the
    cache still has organism A. *)
Definition family_emptied : GeneFamily := (remove "a1" (add 7 gene_a1 fresh_family).2).2.

Definition index_ABC : dict Organism nat := [(strain_A, 0); (strain_B, 1); (strain_C, 2)].

(** What the specification expects of the bits at the positions of the index,
    for every family. *)
Definition bit_iff_gene (self : GeneFamily) (index : dict Organism nat) (flt : string)
  : Prop :=
  let '(_, self') := mk_bitarray index flt self in
  forall org i, dget org index = Some i ->
    (N.testbit (default 0%N (bitarray self')) (N.of_nat i) = true <->
     has_gene_in self org = true /\ matches_filter self flt).

End GeneFamilyExamples.

(** C6, as stated for every GeneFamily, fails: [remove] takes the gene out of
    the genes of the family and leaves the per-organism cache as it was, so the
    family emptied of its only gene still gets the bit of organism A. *)
Lemma mk_bitarray_stale_cache_counterexample :
  geneFamily.__len__ family_emptied = 0%Z /\
  (geneFamily.mk_bitarray index_ABC "all" family_emptied).1 = Ok tt /\
  ~ bit_iff_gene family_emptied index_ABC "all".
Proof.
  split; [reflexivity|]. split; [reflexivity|]. unfold bit_iff_gene.
  intros H. specialize (H strain_A 0%nat eq_refl). destruct H as [H _].
  specialize (H eq_refl). destruct H as [H _]. discriminate H.
Qed.

Lemma mk_bitarray_bits_witness :
  exists b,
    geneFamily.bitarray (geneFamily.mk_bitarray index_ABC "all" family_AC).2 = Some b /\
    (forall org i, dget org index_ABC = Some i ->
       (N.testbit b (N.of_nat i) = true <->
        has_gene_in family_AC org = true /\ matches_filter family_AC "all")) /\
    (forall p, (forall org i, dget org index_ABC = Some i -> N.of_nat i <> p) ->
       N.testbit b p = false).
Proof.
  apply (mk_bitarray_bits family_AC _ index_ABC "all");
    [reflexivity | apply (bool_decide_unpack _); vm_compute; exact I | reflexivity].
Defined.

(** The bit pattern of the family present in A and C over the index
    A:0, B:1, C:2 has bits 0 and 2 set and bit 1 clear. *)
Lemma mk_bitarray_A_and_C :
  geneFamily.bitarray (geneFamily.mk_bitarray index_ABC "all" family_AC).2 = Some 5%N.
Proof. reflexivity. Qed.

(** C10.  With a partition argument other than all, shell, cloud and
    accessory, mk_bitarray returns without raising, whatever the family and
    the index: the bitarray is the zero it was set to at the start, no bit of
    it is set, and nothing else of the family has changed. *)
Theorem mk_bitarray_unknown_partition
    (self : geneFamily.GeneFamily) (index : dict genome.Organism nat) (flt : string) :
  flt ∉ ["all"; "shell"; "cloud"; "accessory"] ->
  let '(r, self') := geneFamily.mk_bitarray index flt self in
  r = Ok tt /\
  self' = geneFamily.with_bitarray (Some 0%N) self /\
  forall p, N.testbit (default 0%N (geneFamily.bitarray self')) p = false.
Proof.
  intros Hflt. unfold geneFamily.mk_bitarray. unfold bind at 1. cbn [modify].
  destruct (decide (flt = "all")) as [->|_].
  { exfalso. apply Hflt. left. }
  destruct (decide (flt ∈ ["shell"; "cloud"])) as [Hin|_].
  { exfalso. apply Hflt. right. apply elem_of_cons in Hin as [->|Hin]; [left|].
    apply list_elem_of_singleton in Hin. subst flt. right. left. }
  destruct (decide (flt = "accessory")) as [->|_].
  { exfalso. apply Hflt. do 3 right. left. }
  split; [reflexivity|]. split; [reflexivity|]. intros p. apply N.bits_0.
Qed.

Lemma mk_bitarray_unknown_partition_witness :
  let '(r, self') := geneFamily.mk_bitarray index_ABC "persistent" family_AC in
  r = Ok tt /\
  self' = geneFamily.with_bitarray (Some 0%N) family_AC /\
  forall p, N.testbit (default 0%N (geneFamily.bitarray self')) p = false.
Proof.
  apply (mk_bitarray_unknown_partition family_AC index_ABC "persistent").
  apply (bool_decide_unpack _). vm_compute. exact I.
Defined.

(** ** GeneFamily.number_of_genes (geneFamily.py) *)

(** C7, as the code has it.  number_of_genes reads [self._genes], a name that
    [__init__] never assigns (the genes are in [self._genes_getter]); unless
    the base class provides it, the read raises AttributeError, whatever the
    family holds, where the claim has the number of genes returned. *)
Theorem number_of_genes_raises
    (MetaFeatures : dict string geneFamily.attribute) (self : geneFamily.GeneFamily) :
  dget "_genes" MetaFeatures = None ->
  geneFamily.number_of_genes MetaFeatures self = Raise AttributeError.
Proof.
  intros Hnone. unfold geneFamily.number_of_genes, geneFamily.getattr.
  cbn. rewrite Hnone. reflexivity.
Qed.

(** The family of two genes has length 2 by [__len__], and no
    number_of_genes. *)
Lemma number_of_genes_raises_witness :
  geneFamily.__len__ family_AC = 2%Z /\
  geneFamily.number_of_genes [("_metadata_getter", geneFamily.VSized 0)] family_AC
  = Raise AttributeError.
Proof.
  split; [reflexivity|].
  apply (number_of_genes_raises [("_metadata_getter", geneFamily.VSized 0)] family_AC).
  reflexivity.
Defined.

(** * Further properties of the code *)

(** ** Region.getBorderingGenes: termination, sizes and the linear walk *)

Section BorderingMore.
Import genome pangenome.
Variables (w : World) (self : Region) (multigenics : list nat).

Lemma left_loop_more_fuel fuel k n init border pos r :
  left_loop fuel w self n multigenics init border pos = Some r ->
  left_loop (fuel + k) w self n multigenics init border pos = Some r.
Proof.
  revert border pos. induction fuel as [|fuel IH]; intros border pos; [discriminate|].
  cbn [left_loop Nat.add].
  destruct (left_guard w self n border pos) as [[|]|]; [|auto..].
  destruct (left_body w self multigenics init border pos) as [[[b' p'] [|]]|]; auto.
Qed.

Lemma right_loop_more_fuel fuel k n init border pos r :
  right_loop fuel w self n multigenics init border pos = Some r ->
  right_loop (fuel + k) w self n multigenics init border pos = Some r.
Proof.
  revert border pos. induction fuel as [|fuel IH]; intros border pos; [discriminate|].
  cbn [right_loop Nat.add].
  destruct (right_guard w self n border pos) as [[|]|]; [|auto..].
  destruct (right_body w self multigenics init border pos) as [[[b' p'] [|]]|]; auto.
Qed.

Lemma getBorderingGenes_more_fuel fuel k n r :
  getBorderingGenes_fuel fuel w self n multigenics = Some r ->
  getBorderingGenes_fuel (fuel + k) w self n multigenics = Some r.
Proof.
  unfold getBorderingGenes_fuel.
  destruct (index (region_genes self) (-1)) as [last|]; [|auto].
  destruct (left_loop fuel _ _ _ _ _ _ _) as [[b0|x]|] eqn:Hl; [| |discriminate];
    rewrite (left_loop_more_fuel _ k _ _ _ _ _ Hl); [|auto].
  destruct (index (region_genes self) 0) as [first|]; [|auto].
  destruct (right_loop fuel _ _ _ _ _ _ _) as [[b1|x]|] eqn:Hr; [| |discriminate];
    rewrite (right_loop_more_fuel _ k _ _ _ _ _ Hr); auto.
Qed.

(** The size of a border list never passes [n]. *)
Definition within (n : Z) (border : list nat) : Prop :=
  (Z.of_nat (length border) <= Z.max n 0)%Z.

Lemma left_loop_within fuel n init border pos r :
  within n border ->
  left_loop fuel w self n multigenics init border pos = Some (Ok r) -> within n r.
Proof.
  revert border pos. induction fuel as [|fuel IH]; intros border pos Hb; [discriminate|].
  cbn [left_loop]. destruct (left_guard w self n border pos) as [[|]|] eqn:Hg;
    [| congruence | discriminate].
  assert (Z.of_nat (length border) < n)%Z as Hlt.
  { unfold left_guard in Hg. destruct (Z.ltb_spec (Z.of_nat (length border)) n);
      [assumption | discriminate]. }
  destruct (left_body w self multigenics init border pos) as [[[b' p'] brk]|] eqn:Hbody;
    [|discriminate].
  assert (within n b') as Hb'.
  { unfold left_body in Hbody.
    match type of Hbody with context [rbind ?c _] => destruct c as [curr|] end;
      [|discriminate]. cbn [rbind] in Hbody.
    destruct (accept_left w multigenics curr) as [acc|]; [|discriminate].
    cbn [rbind] in Hbody.
    match type of Hbody with context [rbind ?c _] => destruct c end; [|discriminate].
    cbn [rbind] in Hbody. injection Hbody as <- _ _. unfold within in *.
    destruct acc, curr; cbn [from_option]; rewrite ?length_app, ?app_nil_r; simpl; lia. }
  destruct brk; [intros [= <-]; assumption | apply IH; assumption].
Qed.

Lemma right_loop_within fuel n init border pos r :
  within n border ->
  right_loop fuel w self n multigenics init border pos = Some (Ok r) -> within n r.
Proof.
  revert border pos. induction fuel as [|fuel IH]; intros border pos Hb; [discriminate|].
  cbn [right_loop]. destruct (right_guard w self n border pos) as [[|]|] eqn:Hg;
    [| congruence | discriminate].
  assert (Z.of_nat (length border) < n)%Z as Hlt.
  { unfold right_guard in Hg. destruct (Z.ltb_spec (Z.of_nat (length border)) n);
      [assumption | discriminate]. }
  destruct (right_body w self multigenics init border pos) as [[[b' p'] brk]|] eqn:Hbody;
    [|discriminate].
  assert (within n b') as Hb'.
  { unfold right_body in Hbody.
    destruct (Region_contig w self) as [c|]; [|discriminate]. cbn [rbind] in Hbody.
    match type of Hbody with context [rbind ?c _] => destruct c as [curr|] end;
      [|discriminate]. cbn [rbind] in Hbody.
    match type of Hbody with context [rbind ?c _] => destruct c end; [|discriminate].
    cbn [rbind] in Hbody. destruct (_ =? init)%Z; [discriminate|].
    injection Hbody as <- _ _. unfold within in *.
    destruct (accept_right multigenics curr), curr; cbn [from_option];
      rewrite ?length_app, ?app_nil_r; simpl; lia. }
  destruct brk; [intros [= <-]; assumption | apply IH; assumption].
Qed.

End BorderingMore.

(** X1.  getBorderingGenes terminates on every region, linear or circular
    contig, whatever the gene positions: there is an answer (two border lists
    or an exception) that every run with enough turns for its loops gives. *)
Theorem getBorderingGenes_terminates
    (w : pangenome.World) (self : pangenome.Region) (n : Z) (multigenics : list nat) :
  exists r, forall fuel, (pangenome.enough_fuel w self <= fuel)%nat ->
    pangenome.getBorderingGenes_fuel fuel w self n multigenics = Some r.
Proof.
  destruct (getBorderingGenes_returns w self multigenics n) as [r Hr].
  exists r. intros fuel Hfuel.
  replace fuel with (pangenome.enough_fuel w self + (fuel - pangenome.enough_fuel w self))%nat
    by lia.
  apply getBorderingGenes_more_fuel. exact Hr.
Qed.

(** X2.  Neither border list that getBorderingGenes returns has more than n
    families; with n at most 0 both are empty. *)
Theorem getBorderingGenes_at_most_n
    (w : pangenome.World) (self : pangenome.Region) (n : Z) (multigenics : list nat)
    (b0 b1 : list nat) :
  pangenome.getBorderingGenes w self n multigenics = Some (Ok (b0, b1)) ->
  (Z.of_nat (length b0) <= Z.max n 0)%Z /\ (Z.of_nat (length b1) <= Z.max n 0)%Z.
Proof.
  unfold pangenome.getBorderingGenes, pangenome.getBorderingGenes_fuel. intros Hrun.
  destruct (index (pangenome.region_genes self) (-1)) as [last|]; [|discriminate].
  destruct (pangenome.left_loop _ _ _ _ _ _ _ _) as [[l|]|] eqn:Hleft; [|discriminate..].
  destruct (index (pangenome.region_genes self) 0) as [first|]; [|discriminate].
  destruct (pangenome.right_loop _ _ _ _ _ _ _ _) as [[r|]|] eqn:Hright; [|discriminate..].
  injection Hrun as <- <-.
  apply left_loop_within in Hleft; [|unfold within; simpl; lia].
  apply right_loop_within in Hright; [|unfold within; simpl; lia].
  split; assumption.
Qed.

Lemma getBorderingGenes_at_most_n_witness :
  (Z.of_nat (length [0]) <= Z.max 2 0)%Z /\ (Z.of_nat (length [3; 4]) <= Z.max 2 0)%Z.
Proof.
  apply (getBorderingGenes_at_most_n linear_world region_g2 2 [] [0] [3; 4]).
  reflexivity.
Defined.

Section LinearWalk.
Import genome pangenome.
Variables (w : World) (self : Region) (multigenics : list nat).

(** The families a walk over the genes [gs] keeps on the right: those that
    exist and are outside [multigenics]. *)
Definition kept_right (gs : list Gene) : list nat :=
  omap (fun g => match family g with
                 | Some f => if bool_decide (f ∈ multigenics) then None else Some f
                 | None => None
                 end) gs.

(** The family the left walk keeps at the gene [g], if any: one that
    exists, is outside [multigenics] and is persistent. *)
Definition left_choice (g : Gene) : option nat :=
  match family g with
  | Some f =>
      if bool_decide (f ∈ multigenics) then None
      else match fam_heap w !! f with
           | Some fam =>
               match namedPartition fam with
               | Ok p => if bool_decide (p = "persistent") then Some f else None
               | Raise _ => None
               end
           | None => None
           end
  | None => None
  end.

(** The families a walk over the genes [gs] keeps on the left. *)
Definition kept_left (gs : list Gene) : list nat := omap left_choice gs.

(** Every gene of [gs] that has a family has one with a partition. *)
Definition partitions_set (gs : list Gene) : bool :=
  forallb (fun g => match family g with
                    | Some f => match fam_heap w !! f with
                                | Some fam => negb (bool_decide (partition fam = ""))
                                | None => false
                                end
                    | None => true
                    end) gs.

Lemma index_in_range {A} (l : list A) (i : Z) :
  (0 <= i < Z.of_nat (length l))%Z ->
  exists x, l !! Z.to_nat i = Some x /\ index l i = Ok x.
Proof.
  intros Hi. destruct (lookup_lt_is_Some_2 l (Z.to_nat i)) as [x Hx]; [lia|].
  exists x. split; [assumption|]. unfold index.
  destruct (Z.ltb_spec i 0); [lia|]. destruct (Z.ltb_spec i 0); [lia|].
  destruct (Z.leb_spec (Z.of_nat (length l)) i); [lia|]. cbn [orb]. rewrite Hx. reflexivity.
Qed.

Lemma accept_left_choice (g : Gene) :
  partitions_set [g] = true ->
  accept_left w multigenics (family g)
  = Ok (match left_choice g with Some _ => true | None => false end) /\
  (left_choice g = None \/ left_choice g = family g).
Proof.
  unfold partitions_set, left_choice, accept_left. cbn [forallb].
  destruct (family g) as [f|]; [|intros _; split; auto].
  destruct (bool_decide (f ∈ multigenics)); [intros _; split; auto|].
  destruct (fam_heap w !! f) as [fam|]; [|discriminate]. cbn [of_option rbind].
  rewrite andb_true_r. intros Hset. apply negb_true_iff, bool_decide_eq_false in Hset.
  unfold namedPartition. destruct (decide (partition fam = "")); [contradiction|].
  destruct (String.prefix "P" (partition fam)); [split; [reflexivity | auto]|].
  destruct (String.prefix "C" (partition fam)); [split; [reflexivity | auto]|].
  destruct (String.prefix "S" (partition fam)); split; (reflexivity || auto).
Qed.

Lemma kept_left_cons (g : Gene) (gs : list Gene) :
  kept_left (g :: gs) = from_option (fun f => [f]) [] (left_choice g) ++ kept_left gs.
Proof. unfold kept_left. simpl. destruct (left_choice g); reflexivity. Qed.

(** On a linear contig the first loop, started at [pos], keeps the first
    families the walk down from [pos - 1] to 0 accepts, until there are [n]. *)
Lemma left_loop_linear c fuel n init border pos :
  Region_contig w self = Ok c -> is_circular c = false ->
  (0 <= pos <= Z.of_nat (length (genes c)))%Z -> (pos <= init)%Z ->
  partitions_set (take (Z.to_nat pos) (genes c)) = true ->
  (Z.to_nat pos < fuel)%nat ->
  left_loop fuel w self n multigenics init border pos
  = Some (Ok (border ++ take (Z.to_nat n - length border)
                          (kept_left (rev (take (Z.to_nat pos) (genes c)))))).
Proof.
  intros Hc Hlin. revert border pos.
  induction fuel as [|fuel IH]; intros border pos Hpos Hinit Hset Hfuel; [lia|].
  cbn [left_loop]. unfold left_guard. rewrite Hc. cbn [rbind]. rewrite Hlin.
  destruct (Z.ltb_spec (Z.of_nat (length border)) n) as [Hlt|Hge].
  2:{ replace (Z.to_nat n - length border)%nat with 0%nat by lia.
      rewrite take_0, app_nil_r. reflexivity. }
  destruct (Z.eqb_spec pos 0) as [->|Hne]; cbn [negb].
  { change (Z.to_nat 0) with 0%nat. rewrite take_0. cbn [rev]. unfold kept_left.
    cbn [omap list_omap]. rewrite take_nil, app_nil_r. reflexivity. }
  cbn [negb]. unfold left_body. rewrite Hc. cbn [rbind].
  destruct (Z.eqb_spec pos 0); [contradiction|].
  destruct (index_in_range (genes c) (pos - 1)) as (g & Hg & ->); [lia|]. cbn [rbind].
  assert (take (Z.to_nat pos) (genes c) = take (Z.to_nat (pos - 1)) (genes c) ++ [g]) as Htake.
  { replace (Z.to_nat pos) with (S (Z.to_nat (pos - 1))) by lia.
    apply take_S_r. assumption. }
  rewrite Htake in Hset |- *. unfold partitions_set in Hset.
  rewrite forallb_app, andb_true_iff in Hset. destruct Hset as [Hset Hg_set].
  destruct (accept_left_choice g Hg_set) as [-> Hchoice]. cbn [rbind].
  destruct (Z.eqb_spec (pos - 1) (-1)); [lia|]. cbn [rbind].
  destruct (Z.eqb_spec (pos - 1) init); [lia|].
  rewrite IH; [|lia|lia|exact Hset|lia]. do 2 f_equal.
  rewrite rev_app_distr. cbn [rev app]. rewrite kept_left_cons.
  destruct Hchoice as [Hnone|Hsome].
  { rewrite Hnone. reflexivity. }
  rewrite Hsome. destruct (family g) as [f|]; cbn [from_option]; [|reflexivity].
  rewrite <- app_assoc, length_app. cbn [length app].
  replace (Z.to_nat n - length border)%nat
    with (S (Z.to_nat n - (length border + 1)))%nat by lia.
  reflexivity.
Qed.

Lemma kept_right_cons (g : Gene) (gs : list Gene) :
  kept_right (g :: gs)
  = (if accept_right multigenics (family g)
     then from_option (fun f => [f]) [] (family g) else []) ++ kept_right gs.
Proof.
  unfold kept_right, accept_right. simpl. destruct (family g) as [f|]; [|reflexivity].
  destruct (bool_decide (f ∈ multigenics)); reflexivity.
Qed.

(** On a linear contig the second loop, started at [pos], keeps the first
    families the walk up from [pos + 1] to the last gene accepts, until there
    are [n]. *)
Lemma right_loop_linear c fuel n init border pos :
  Region_contig w self = Ok c -> is_circular c = false ->
  (0 <= pos < Z.of_nat (length (genes c)))%Z -> (init <= pos)%Z ->
  (length (genes c) - Z.to_nat pos <= fuel)%nat ->
  right_loop fuel w self n multigenics init border pos
  = Some (Ok (border ++ take (Z.to_nat n - length border)
                          (kept_right (drop (S (Z.to_nat pos)) (genes c))))).
Proof.
  intros Hc Hlin. revert border pos.
  induction fuel as [|fuel IH]; intros border pos Hpos Hinit Hfuel; [lia|].
  cbn [right_loop]. unfold right_guard. rewrite Hc. cbn [rbind]. rewrite Hlin.
  destruct (Z.ltb_spec (Z.of_nat (length border)) n) as [Hlt|Hge].
  2:{ replace (Z.to_nat n - length border)%nat with 0%nat by lia.
      rewrite take_0, app_nil_r. reflexivity. }
  destruct (Z.eqb_spec pos (Z.of_nat (length (genes c)) - 1)) as [Hlast|Hne]; cbn [negb].
  { rewrite drop_ge by lia. unfold kept_right. cbn [omap list_omap].
    rewrite take_nil, app_nil_r. reflexivity. }
  unfold right_body. rewrite Hc. cbn [rbind].
  destruct (Z.eqb_spec pos (Z.of_nat (length (genes c)) - 1)); [contradiction|].
  destruct (index_in_range (genes c) (pos + 1)) as (g & Hg & ->); [lia|]. cbn [rbind].
  replace (Z.to_nat (pos + 1)) with (S (Z.to_nat pos)) in Hg by lia.
  destruct (Z.eqb_spec (pos + 1) (Z.of_nat (length (genes c)))); [lia|]. cbn [rbind].
  destruct (Z.eqb_spec (pos + 1) init); [lia|].
  rewrite IH; [|lia|lia|lia]. do 2 f_equal.
  replace (Z.to_nat (pos + 1)) with (S (Z.to_nat pos)) by lia.
  rewrite (drop_S _ _ _ Hg), kept_right_cons.
  destruct (accept_right multigenics (family g)); [|reflexivity].
  destruct (family g) as [f|]; cbn [from_option]; [|rewrite app_nil_r; reflexivity].
  rewrite <- app_assoc, length_app. cbn [length app].
  replace (Z.to_nat n - length border)%nat
    with (S (Z.to_nat n - (length border + 1)))%nat by lia.
  reflexivity.
Qed.

End LinearWalk.

(** X3.  On a linear contig, for a region whose first and last gene have
    positions within the contig and when the families met on the left have
    their partition set, getBorderingGenes returns: on the left the first n
    persistent, non-multigenic families met going down from the gene before
    the position of the region's last gene to the start of the contig; on the
    right the first n non-multigenic families met going up from the gene after
    the position of the region's first gene to the end of the contig. *)
Theorem getBorderingGenes_linear
    (w : pangenome.World) (self : pangenome.Region) (c : genome.Contig)
    (first last : genome.Gene) (n : Z) (multigenics : list nat) :
  pangenome.Region_contig w self = Ok c -> genome.is_circular c = false ->
  index (pangenome.region_genes self) 0 = Ok first ->
  index (pangenome.region_genes self) (-1) = Ok last ->
  (0 <= genome.position first < Z.of_nat (length (genome.genes c)))%Z ->
  (0 <= genome.position last < Z.of_nat (length (genome.genes c)))%Z ->
  partitions_set w (take (Z.to_nat (genome.position last)) (genome.genes c)) = true ->
  pangenome.getBorderingGenes w self n multigenics
  = Some (Ok (take (Z.to_nat n)
                (kept_left w multigenics
                   (rev (take (Z.to_nat (genome.position last)) (genome.genes c)))),
              take (Z.to_nat n)
                (kept_right multigenics
                   (drop (S (Z.to_nat (genome.position first))) (genome.genes c))))).
Proof.
  intros Hc Hlin Hfirst Hlast Hpf Hpl Hset.
  unfold pangenome.getBorderingGenes, pangenome.getBorderingGenes_fuel.
  rewrite Hlast, Hfirst.
  pose proof (farthest_bound _ _ (index_Ok_elem _ _ _ Hlast)) as Hfar.
  assert (length (genome.genes c) + length (genome.genes c)
          + Z.to_nat (Z.abs (genome.position last)) + 2
          <= pangenome.enough_fuel w self)%nat as Hfuel.
  { unfold pangenome.enough_fuel. rewrite Hc. lia. }
  rewrite (left_loop_linear w self multigenics c _ n _ [] _ Hc Hlin); [|lia|lia|exact Hset|lia].
  rewrite (right_loop_linear w self multigenics c _ n _ [] _ Hc Hlin); [|lia|lia|lia].
  cbn [length app]. rewrite !Nat.sub_0_r. reflexivity.
Qed.

Lemma getBorderingGenes_linear_witness :
  pangenome.getBorderingGenes linear_world region_g2 2 [] = Some (Ok ([0], [3; 4])).
Proof.
  apply (getBorderingGenes_linear linear_world region_g2
           {| genome.genes := five_genes; genome.is_circular := false |}
           (mk_gene "g2" 2 2) (mk_gene "g2" 2 2) 2 []);
    [reflexivity | reflexivity | reflexivity | reflexivity
    | simpl; lia | simpl; lia | reflexivity].
Defined.

(** ** Region.isContigBorder and Region.__eq__ *)


Section RegionExamples.
Import genome pangenome.


End RegionExamples.


Section RegionEq.
Import genome pangenome.

Lemma map_family_rev (l : list Gene) : map family (rev l) = rev (map family l).
Proof. apply map_rev. Qed.

Lemma Region_eq_true (r1 r2 : Region) :
  Region_eq r1 (ARegion r2) = Ok true <->
  map family (region_genes r1) = map family (region_genes r2) \/
  map family (region_genes r1) = rev (map family (region_genes r2)).
Proof.
  unfold Region_eq. rewrite map_family_rev.
  destruct (decide (map family (region_genes r1) = map family (region_genes r2)));
    [tauto|].
  destruct (decide (map family (region_genes r1) = rev (map family (region_genes r2))));
    [tauto|].
  split; [discriminate | tauto].
Qed.

Lemma Region_eq_bool (r1 r2 : Region) :
  Region_eq r1 (ARegion r2) = Ok true \/ Region_eq r1 (ARegion r2) = Ok false.
Proof. unfold Region_eq. repeat case_decide; auto. Qed.

End RegionEq.

(** X5.  Region.__eq__ between Regions is an equivalence that does not see the
    orientation: a region equals itself and the region with its genes in
    reverse order, r1 == r2 and r2 == r1 give the same answer, and the regions
    equal to a region are equal to each other. *)
Theorem Region_eq_equivalence (r1 r2 r3 : pangenome.Region) :
  pangenome.Region_eq r1 (pangenome.ARegion r1) = Ok true /\
  (pangenome.region_genes r2 = rev (pangenome.region_genes r1) ->
   pangenome.Region_eq r1 (pangenome.ARegion r2) = Ok true) /\
  pangenome.Region_eq r1 (pangenome.ARegion r2)
  = pangenome.Region_eq r2 (pangenome.ARegion r1) /\
  (pangenome.Region_eq r1 (pangenome.ARegion r2) = Ok true ->
   pangenome.Region_eq r2 (pangenome.ARegion r3) = Ok true ->
   pangenome.Region_eq r1 (pangenome.ARegion r3) = Ok true).
Proof.
  assert (forall a b, pangenome.Region_eq a (pangenome.ARegion b) = Ok true ->
                      pangenome.Region_eq b (pangenome.ARegion a) = Ok true) as Hsym.
  { intros a b. rewrite !Region_eq_true. intros [H|H]; rewrite H; [auto|].
    right. rewrite rev_involutive. reflexivity. }
  split; [apply Region_eq_true; auto|]. split.
  { intros Hrev. apply Region_eq_true. right. rewrite Hrev, map_family_rev, rev_involutive.
    reflexivity. }
  split.
  { destruct (Region_eq_bool r1 r2) as [H12|H12], (Region_eq_bool r2 r1) as [H21|H21];
      try congruence.
    - apply Hsym in H12. congruence.
    - apply Hsym in H21. congruence. }
  rewrite !Region_eq_true. intros [H12|H12] [H23|H23]; rewrite H12, H23; auto.
  left. apply rev_involutive.
Qed.

(** ** Pangenome.addRegions with an iterable *)

Section RegionSets.
Import genome pangenome.

(** The object [x] is a member of the set of regions [s]. *)
Definition region_in (x : Region) (s : list Region) : bool :=
  existsb (fun r' => Nat.eqb (reg_id r') (reg_id x)) s.

Lemma region_in_set_add (x r : Region) (s : list Region) :
  region_in x (set_add r s) = region_in x s || Nat.eqb (reg_id r) (reg_id x).
Proof.
  unfold set_add. destruct (existsb _ s) eqn:Hin.
  - destruct (Nat.eqb_spec (reg_id r) (reg_id x)) as [Heq|]; [|rewrite orb_false_r; reflexivity].
    rewrite orb_true_r. unfold region_in. rewrite <- Heq. exact Hin.
  - unfold region_in. rewrite existsb_app. simpl. rewrite orb_false_r. reflexivity.
Qed.

Lemma region_in_set_union (x : Region) (s t : list Region) :
  region_in x (set_union s t) = region_in x s || region_in x t.
Proof.
  unfold set_union. revert s. induction t as [|r t IH]; intros s; simpl.
  - rewrite orb_false_r. reflexivity.
  - rewrite IH, region_in_set_add, <- orb_assoc. reflexivity.
Qed.

Lemma set_add_NoDup (r : Region) (s : list Region) :
  NoDup (map reg_id s) -> NoDup (map reg_id (set_add r s)).
Proof.
  intros Hs. unfold set_add. destruct (existsb _ s) eqn:Hin; [assumption|].
  rewrite map_app. apply NoDup_app. split; [assumption|]. split.
  - intros i Hi Hr. apply list_elem_of_singleton in Hr. subst i.
    apply list_elem_of_fmap in Hi as (r' & Hid & Hr').
    assert (existsb (fun r' => Nat.eqb (reg_id r') (reg_id r)) s = true) as Hex.
    { apply existsb_exists. exists r'. split; [apply list_elem_of_In; assumption|].
      apply Nat.eqb_eq. congruence. }
    congruence.
  - simpl. apply NoDup_singleton.
Qed.

Lemma set_union_NoDup (s t : list Region) :
  NoDup (map reg_id s) -> NoDup (map reg_id (set_union s t)).
Proof.
  unfold set_union. revert s. induction t as [|r t IH]; intros s Hs; simpl; [assumption|].
  apply IH, set_add_NoDup. assumption.
Qed.

Lemma set_union_absorbed (s t : list Region) :
  (forall r, r ∈ t -> region_in r s = true) -> set_union s t = s.
Proof.
  unfold set_union. induction t as [|r t IH]; intros Hin; simpl; [reflexivity|].
  unfold set_add. unfold region_in in Hin. rewrite (Hin r) by left.
  apply IH. intros r' Hr'. apply Hin. right. assumption.
Qed.

Lemma region_in_self (r : Region) (t : list Region) : r ∈ t -> region_in r t = true.
Proof.
  intros Hr. apply existsb_exists. exists r. split; [apply list_elem_of_In; assumption|].
  apply Nat.eqb_refl.
Qed.

End RegionSets.

(** X6.  addRegions with a list of Regions always succeeds and changes nothing
    but the region set: afterwards an object is in the set exactly when it was
    there or is in the list, no object is there twice if none was, and giving
    the same list again changes nothing. *)
Theorem addRegions_list_union (w : pangenome.World) (l : list pangenome.Region) :
  let '(r, w') := pangenome.addRegions (pangenome.AList l) w in
  r = Ok tt /\
  (exists s, w' = pangenome.with_pan (pangenome.with_regions s (pangenome.pan w)) w) /\
  (forall x, region_in x (pangenome.regions (pangenome.pan w'))
             = region_in x (pangenome.regions (pangenome.pan w)) || region_in x l) /\
  (NoDup (map pangenome.reg_id (pangenome.regions (pangenome.pan w))) ->
   NoDup (map pangenome.reg_id (pangenome.regions (pangenome.pan w')))) /\
  pangenome.addRegions (pangenome.AList l) w' = (Ok tt, w').
Proof.
  unfold pangenome.addRegions, bind, pangenome.get_pan, lift, pangenome.put_pan, modify.
  cbn [pangenome.isinstance_Iterable pangenome.set_of pangenome.set_ior
       pangenome.pan pangenome.with_pan pangenome.regions pangenome.with_regions].
  set (s := pangenome.regions (pangenome.pan w)).
  set (t := pangenome.set_union [] l).
  assert (forall x, region_in x t = region_in x l) as Ht.
  { intros x. subst t. rewrite region_in_set_union. reflexivity. }
  split; [reflexivity|]. split; [eauto|]. split.
  { intros x. rewrite region_in_set_union, Ht. reflexivity. }
  split; [apply set_union_NoDup|].
  rewrite (set_union_absorbed (pangenome.set_union s t) t); [reflexivity|].
  intros r Hr. rewrite region_in_set_union, (region_in_self r t Hr), orb_true_r. reflexivity.
Qed.

(** ** Pangenome.addOrganism: the other cases *)

Lemma addOrganism_name_present (w : pangenome.World) (name : string) (org : genome.Organism) :
  dget name (pangenome._orgGetter (pangenome.pan w)) = Some org ->
  pangenome.addOrganism (pangenome.AStr name) w = (Ok (Some org), w).
Proof.
  intros Hname. unfold pangenome.addOrganism, bind, pangenome.get_pan. rewrite Hname.
  reflexivity.
Qed.

Lemma addOrganism_name_absent (w : pangenome.World) (name : string) :
  dget name (pangenome._orgGetter (pangenome.pan w)) = None ->
  pangenome.addOrganism (pangenome.AStr name) w
  = (Ok (Some {| genome.org_id := pangenome.org_count w; genome.org_name := name |}),
     pangenome.with_pan
       (pangenome.with_orgGetter
          (dset name {| genome.org_id := pangenome.org_count w; genome.org_name := name |}
             (pangenome._orgGetter (pangenome.pan w)))
          (pangenome.pan w))
       (pangenome.with_org_count (S (pangenome.org_count w)) w)).
Proof.
  intros Hname. unfold pangenome.addOrganism, bind, pangenome.get_pan. rewrite Hname.
  reflexivity.
Qed.

(** X7.  addOrganism with a name is get-or-create: it never fails, the
    organism it returns is the one the getter then holds under that name, and a
    second call with the same name returns the same Organism object and
    changes nothing.  When the name was registered the first call changes
    nothing either. *)
Theorem addOrganism_by_name_idempotent (w : pangenome.World) (name : string) :
  let '(r1, w1) := pangenome.addOrganism (pangenome.AStr name) w in
  let '(r2, w2) := pangenome.addOrganism (pangenome.AStr name) w1 in
  exists org,
    r1 = Ok (Some org) /\ r2 = Ok (Some org) /\ w2 = w1 /\
    dget name (pangenome._orgGetter (pangenome.pan w1)) = Some org /\
    (forall old, dget name (pangenome._orgGetter (pangenome.pan w)) = Some old ->
                 org = old /\ w1 = w).
Proof.
  destruct (dget name (pangenome._orgGetter (pangenome.pan w))) as [org|] eqn:Hname.
  - rewrite (addOrganism_name_present w name org Hname).
    rewrite (addOrganism_name_present w name org Hname).
    exists org. split; [reflexivity|]. split; [reflexivity|]. split; [reflexivity|].
    split; [assumption|]. intros old [= <-]. split; reflexivity.
  - rewrite (addOrganism_name_absent w name Hname).
    rewrite (addOrganism_name_present _ name
               {| genome.org_id := pangenome.org_count w; genome.org_name := name |});
      [|apply dget_dset_eq].
    eexists. split; [reflexivity|]. split; [reflexivity|]. split; [reflexivity|].
    split; [apply dget_dset_eq|]. intros old Hold. discriminate Hold.
Qed.

Lemma addOrganism_instance_absent (w : pangenome.World) (newOrg : genome.Organism) :
  dget (genome.org_name newOrg) (pangenome._orgGetter (pangenome.pan w)) = None ->
  pangenome.addOrganism (pangenome.AnOrganism newOrg) w
  = (Ok (Some newOrg),
     pangenome.with_pan
       (pangenome.with_orgGetter
          (pangenome._orgGetter (pangenome.pan w) ++ [(genome.org_name newOrg, newOrg)])
          (pangenome.pan w)) w).
Proof.
  intros Hfree. unfold pangenome.addOrganism. unfold bind, pangenome.get_pan,
    pangenome.put_pan, modify, raise, ret.
  cbn [pangenome.pan pangenome.with_pan pangenome._orgGetter pangenome.with_orgGetter].
  rewrite (len_dset_absent _ _ _ Hfree).
  destruct (decide (S (len (pangenome._orgGetter (pangenome.pan w)))
                    = len (pangenome._orgGetter (pangenome.pan w)))) as [Habs|_]; [lia|].
  rewrite <- (dset_absent _ _ newOrg Hfree). reflexivity.
Qed.

(** X8.  addOrganism with an Organism instance whose name is not registered
    succeeds and returns the instance: the getter then holds it under its
    name, has one entry more, holds what it held under every other name, and
    nothing else of the store has changed; asking for that name afterwards
    returns the very instance. *)
Theorem addOrganism_new_instance (w : pangenome.World) (newOrg : genome.Organism) :
  dget (genome.org_name newOrg) (pangenome._orgGetter (pangenome.pan w)) = None ->
  let '(r, w') := pangenome.addOrganism (pangenome.AnOrganism newOrg) w in
  r = Ok (Some newOrg) /\
  w' = pangenome.with_pan
         (pangenome.with_orgGetter
            (pangenome._orgGetter (pangenome.pan w) ++ [(genome.org_name newOrg, newOrg)])
            (pangenome.pan w)) w /\
  dget (genome.org_name newOrg) (pangenome._orgGetter (pangenome.pan w')) = Some newOrg /\
  len (pangenome._orgGetter (pangenome.pan w'))
  = S (len (pangenome._orgGetter (pangenome.pan w))) /\
  (forall other, other <> genome.org_name newOrg ->
     dget other (pangenome._orgGetter (pangenome.pan w'))
     = dget other (pangenome._orgGetter (pangenome.pan w))) /\
  pangenome.addOrganism (pangenome.AStr (genome.org_name newOrg)) w' = (Ok (Some newOrg), w').
Proof.
  intros Hfree. unfold pangenome.addOrganism at 1. unfold bind, pangenome.get_pan,
    pangenome.put_pan, modify, raise, ret.
  cbn [pangenome.pan pangenome.with_pan pangenome._orgGetter pangenome.with_orgGetter].
  rewrite (len_dset_absent _ _ _ Hfree).
  destruct (decide (S (len (pangenome._orgGetter (pangenome.pan w)))
                    = len (pangenome._orgGetter (pangenome.pan w)))) as [Habs|_]; [lia|].
  cbn [pangenome.pan pangenome.with_pan pangenome._orgGetter pangenome.with_orgGetter].
  rewrite <- (dset_absent _ _ newOrg Hfree).
  split; [reflexivity|]. split; [reflexivity|]. split; [apply dget_dset_eq|].
  split; [apply len_dset_absent; assumption|].
  split; [intros other Hne; apply dget_dset_ne; congruence|].
  unfold pangenome.addOrganism, bind, pangenome.get_pan.
  cbn [pangenome.pan pangenome.with_pan pangenome._orgGetter pangenome.with_orgGetter].
  rewrite dget_dset_eq. reflexivity.
Qed.

Lemma addOrganism_new_instance_witness :
  let '(r, w') := pangenome.addOrganism (pangenome.AnOrganism strain_B) one_organism_world in
  r = Ok (Some strain_B) /\
  w' = pangenome.with_pan
         (pangenome.with_orgGetter
            (pangenome._orgGetter (pangenome.pan one_organism_world) ++ [("B", strain_B)])
            (pangenome.pan one_organism_world)) one_organism_world /\
  dget "B" (pangenome._orgGetter (pangenome.pan w')) = Some strain_B /\
  len (pangenome._orgGetter (pangenome.pan w'))
  = S (len (pangenome._orgGetter (pangenome.pan one_organism_world))) /\
  (forall other, other <> "B" ->
     dget other (pangenome._orgGetter (pangenome.pan w'))
     = dget other (pangenome._orgGetter (pangenome.pan one_organism_world))) /\
  pangenome.addOrganism (pangenome.AStr "B") w' = (Ok (Some strain_B), w').
Proof.
  apply (addOrganism_new_instance one_organism_world strain_B). reflexivity.
Defined.

(** ** Pangenome.addGeneFamily and Pangenome.getGeneFamily *)

Section GeneFamilies.
Import genome pangenome.

Lemma createGeneFamily_result (name : string) (w : World) :
  _createGeneFamily name w
  = (Ok (length (fam_heap w)),
     with_pan
       (with_famGetter (dset name (length (fam_heap w)) (_famGetter (pan w)))
          (with_max_fam_id (max_fam_id (pan w) + 1) (pan w)))
       (with_fam_heap (fam_heap w ++ [GeneFamily_init (max_fam_id (pan w)) name]) w)).
Proof.
  unfold _createGeneFamily, bind, get_pan, get, put_pan, modify, get_family, ret.
  cbn [fam_heap with_fam_heap with_pan pan].
  rewrite list_lookup_middle by reflexivity. reflexivity.
Qed.

Lemma addGeneFamily_known (name : string) (f : nat) (w : World) :
  dget name (_famGetter (pan w)) = Some f -> addGeneFamily name w = (Ok f, w).
Proof. intros Hf. unfold addGeneFamily, bind, get_pan. rewrite Hf. reflexivity. Qed.

Lemma addGeneFamily_unknown (name : string) (w : World) :
  dget name (_famGetter (pan w)) = None -> addGeneFamily name w = _createGeneFamily name w.
Proof. intros Hf. unfold addGeneFamily, bind, get_pan. rewrite Hf. reflexivity. Qed.

(** The counter is not negative, every registered family is in the store
    under its name with an ID from 0 up to the counter excluded, and no two
    registered names have families of the same ID. *)
Definition families_numbered (w : World) : Prop :=
  (0 <= max_fam_id (pan w))%Z /\
  (forall name f, dget name (_famGetter (pan w)) = Some f ->
     exists F, fam_heap w !! f = Some F /\ fam_name F = name /\
               (0 <= fam_ID F < max_fam_id (pan w))%Z) /\
  (forall n1 n2 f1 f2 F1 F2,
     dget n1 (_famGetter (pan w)) = Some f1 -> dget n2 (_famGetter (pan w)) = Some f2 ->
     fam_heap w !! f1 = Some F1 -> fam_heap w !! f2 = Some F2 ->
     fam_ID F1 = fam_ID F2 -> n1 = n2).

End GeneFamilies.

(** X9.  addGeneFamily is get-or-create and never fails: the family it
    returns is the one getGeneFamily then returns for the name, a second call
    with the name returns it again and changes nothing, and a name that is not
    registered makes getGeneFamily raise KeyError.  A family is created only
    for a name that was not registered: it is a new object with the name, the
    counter max_fam_id as its ID, and the counter moves up by one. *)
Theorem addGeneFamily_get_or_create (w : pangenome.World) (name : string) :
  let '(r1, w1) := pangenome.addGeneFamily name w in
  exists f,
    r1 = Ok f /\
    pangenome.addGeneFamily name w1 = (Ok f, w1) /\
    pangenome.getGeneFamily name w1 = (Ok f, w1) /\
    (forall other, dget other (pangenome._famGetter (pangenome.pan w1)) = None ->
       pangenome.getGeneFamily other w1 = (Raise KeyError, w1)) /\
    (forall old, dget name (pangenome._famGetter (pangenome.pan w)) = Some old ->
       f = old /\ w1 = w) /\
    (dget name (pangenome._famGetter (pangenome.pan w)) = None ->
       f = length (pangenome.fam_heap w) /\
       pangenome.fam_heap w1
       = pangenome.fam_heap w
         ++ [pangenome.GeneFamily_init (pangenome.max_fam_id (pangenome.pan w)) name] /\
       pangenome.max_fam_id (pangenome.pan w1)
       = (pangenome.max_fam_id (pangenome.pan w) + 1)%Z).
Proof.
  assert (forall w1 f, dget name (pangenome._famGetter (pangenome.pan w1)) = Some f ->
            pangenome.getGeneFamily name w1 = (Ok f, w1)) as Hget.
  { intros w1 f Hf. unfold pangenome.getGeneFamily, bind, pangenome.get_pan, lift.
    rewrite Hf. reflexivity. }
  assert (forall w1 other, dget other (pangenome._famGetter (pangenome.pan w1)) = None ->
            pangenome.getGeneFamily other w1 = (Raise KeyError, w1)) as Hmiss.
  { intros w1 other Hf. unfold pangenome.getGeneFamily, bind, pangenome.get_pan, lift.
    rewrite Hf. reflexivity. }
  destruct (dget name (pangenome._famGetter (pangenome.pan w))) as [f|] eqn:Hname.
  - rewrite (addGeneFamily_known name f w Hname). exists f.
    split; [reflexivity|]. split; [apply addGeneFamily_known; assumption|].
    split; [auto|]. split; [auto|]. split; [|discriminate].
    intros old [= <-]. split; reflexivity.
  - rewrite (addGeneFamily_unknown name w Hname), createGeneFamily_result.
    exists (length (pangenome.fam_heap w)). split; [reflexivity|].
    split; [apply addGeneFamily_known; apply dget_dset_eq|].
    split; [apply Hget; apply dget_dset_eq|]. split; [auto|].
    split; [discriminate|]. intros _. repeat split.
Qed.

(** X10.  addGeneFamily keeps the families numbered: if the counter
    max_fam_id is not negative, every registered family is in the store under
    its own name with an ID from 0 up to the counter excluded, and no two
    registered names have families with the same ID, then the same holds after
    addGeneFamily. *)
Theorem addGeneFamily_keeps_numbering (w : pangenome.World) (name : string) :
  families_numbered w -> families_numbered (pangenome.addGeneFamily name w).2.
Proof.
  intros (Hcount & Hreg & Hids).
  destruct (dget name (pangenome._famGetter (pangenome.pan w))) as [f|] eqn:Hname.
  { rewrite (addGeneFamily_known name f w Hname). repeat split; assumption. }
  rewrite (addGeneFamily_unknown name w Hname), createGeneFamily_result.
  cbn [snd].
  set (new := pangenome.GeneFamily_init (pangenome.max_fam_id (pangenome.pan w)) name).
  assert (forall n f,
            dget n (dset name (length (pangenome.fam_heap w))
                      (pangenome._famGetter (pangenome.pan w))) = Some f ->
            (n = name /\ f = length (pangenome.fam_heap w) /\
             (pangenome.fam_heap w ++ [new]) !! f = Some new) \/
            (n <> name /\ exists F,
               (pangenome.fam_heap w ++ [new]) !! f = Some F /\
               dget n (pangenome._famGetter (pangenome.pan w)) = Some f /\
               pangenome.fam_heap w !! f = Some F /\
               pangenome.fam_name F = n /\
               (0 <= pangenome.fam_ID F < pangenome.max_fam_id (pangenome.pan w))%Z))
    as Hcases.
  { intros n f Hn. destruct (decide (name = n)) as [<-|Hne].
    - rewrite dget_dset_eq in Hn. injection Hn as <-. left.
      split; [reflexivity|]. split; [reflexivity|]. apply list_lookup_middle. reflexivity.
    - rewrite dget_dset_ne in Hn by assumption. right. split; [congruence|].
      destruct (Hreg n f Hn) as (F & HF & Hnm & Hid). exists F.
      split; [apply lookup_app_l_Some; assumption | auto 6]. }
  unfold families_numbered.
  cbn [pangenome.pan pangenome.with_pan pangenome._famGetter pangenome.with_famGetter
       pangenome.fam_heap pangenome.with_fam_heap pangenome.max_fam_id
       pangenome.with_max_fam_id].
  split; [lia|]. split.
  - intros n f Hn.
    destruct (Hcases n f Hn) as [(-> & -> & HF)|(Hne & F & HF & _ & _ & Hnm & Hid)].
    + eexists. split; [exact HF|]. split; [reflexivity|]. cbn. clear - Hcount. lia.
    + exists F. split; [assumption|]. split; [assumption|]. lia.
  - intros n1 n2 f1 f2 F1 F2 Hn1 Hn2 HF1 HF2 Hsame.
    destruct (Hcases n1 f1 Hn1)
      as [(-> & -> & HF1')|(Hne1 & F1' & HF1' & Ho1 & Hh1 & Hnm1 & Hid1)],
        (Hcases n2 f2 Hn2)
      as [(-> & -> & HF2')|(Hne2 & F2' & HF2' & Ho2 & Hh2 & Hnm2 & Hid2)];
      rewrite HF1 in HF1'; rewrite HF2 in HF2';
      injection HF1' as Heq1; injection HF2' as Heq2; subst F1 F2.
    + reflexivity.
    + cbn in Hsame. lia.
    + cbn in Hsame. lia.
    + exact (Hids n1 n2 f1 f2 _ _ Ho1 Ho2 Hh1 Hh2 Hsame).
Qed.

Lemma addGeneFamily_keeps_numbering_witness :
  families_numbered (pangenome.addGeneFamily "fam_1" two_family_world).2.
Proof.
  apply (addGeneFamily_keeps_numbering two_family_world "fam_1").
  split; [simpl; lia|]. split; intros; discriminate.
Defined.

(** ** Pangenome.getIndex *)

Section OrganismIndex.
Import genome pangenome.

Lemma enumerate_into_spec (orgs pre : list Organism) (idx : dict (option Organism) nat) :
  (forall k i, dget k idx = Some i -> exists o, k = Some o /\ pre !! i = Some o) ->
  (forall o, o ∈ pre -> is_Some (dget (Some o) idx)) ->
  (forall k i, dget k (enumerate_into orgs (length pre) idx) = Some i ->
     exists o, k = Some o /\ (pre ++ orgs) !! i = Some o) /\
  (forall o, o ∈ pre ++ orgs -> is_Some (dget (Some o) (enumerate_into orgs (length pre) idx))).
Proof.
  revert pre idx. induction orgs as [|org orgs IH]; intros pre idx Hpos Hin.
  - cbn [enumerate_into]. rewrite app_nil_r. auto.
  - cbn [enumerate_into].
    replace (S (length pre)) with (length (pre ++ [org])) by (rewrite length_app; simpl; lia).
    replace (pre ++ org :: orgs) with ((pre ++ [org]) ++ orgs)
      by (rewrite <- app_assoc; reflexivity).
    apply IH.
    + intros k i Hk. destruct (decide (Some org = k)) as [<-|Hne].
      * rewrite dget_dset_eq in Hk. injection Hk as <-. exists org.
        split; [reflexivity|]. apply list_lookup_middle. reflexivity.
      * rewrite dget_dset_ne in Hk by assumption. destruct (Hpos k i Hk) as (o & -> & Ho).
        exists o. split; [reflexivity|]. apply lookup_app_l_Some. assumption.
    + intros o Ho. destruct (decide (org = o)) as [<-|Hne].
      * rewrite dget_dset_eq. eauto.
      * rewrite dget_dset_ne by congruence. apply Hin.
        apply elem_of_app in Ho as [Ho|Ho]; [assumption|].
        apply list_elem_of_singleton in Ho. congruence.
Qed.

End OrganismIndex.

(** X11.  The first getIndex never fails and builds the index from the
    registered organisms in their order: every position of the index is the
    place of its organism among [self.organisms], so it is below the number of
    organisms; every registered organism has a position; no two organisms
    share one. *)
Theorem getIndex_positions (w : pangenome.World) :
  pangenome._orgIndex (pangenome.pan w) = None ->
  let '(r, w') := pangenome.getIndex w in
  exists idx,
    r = Ok idx /\ pangenome._orgIndex (pangenome.pan w') = Some idx /\
    (forall k i, dget k idx = Some i ->
       exists o, k = Some o /\
                 values (pangenome._orgGetter (pangenome.pan w)) !! i = Some o /\
                 i < len (pangenome._orgGetter (pangenome.pan w))) /\
    (forall o, o ∈ values (pangenome._orgGetter (pangenome.pan w)) ->
               is_Some (dget (Some o) idx)) /\
    (forall k1 k2 i, dget k1 idx = Some i -> dget k2 idx = Some i -> k1 = k2).
Proof.
  intros Hnone. rewrite (getIndex_builds w Hnone).
  set (orgs := values (pangenome._orgGetter (pangenome.pan w))).
  destruct (enumerate_into_spec orgs [] []) as [Hpos Hin];
    [discriminate | intros o Ho; inversion Ho |].
  cbn [length app] in Hpos, Hin.
  eexists. split; [reflexivity|]. split; [reflexivity|]. split; [|split].
  - intros k i Hk. destruct (Hpos k i Hk) as (o & -> & Ho). exists o.
    split; [reflexivity|]. split; [assumption|].
    apply lookup_lt_Some in Ho. subst orgs. unfold values, len in *.
    rewrite length_map in Ho. assumption.
  - assumption.
  - intros k1 k2 i H1 H2. destruct (Hpos k1 i H1) as (o1 & -> & Ho1).
    destruct (Hpos k2 i H2) as (o2 & -> & Ho2). congruence.
Qed.

Lemma getIndex_positions_witness :
  let '(r, w') := pangenome.getIndex one_organism_world in
  exists idx,
    r = Ok idx /\ pangenome._orgIndex (pangenome.pan w') = Some idx /\
    (forall k i, dget k idx = Some i ->
       exists o, k = Some o /\
                 values (pangenome._orgGetter (pangenome.pan one_organism_world)) !! i
                 = Some o /\
                 i < len (pangenome._orgGetter (pangenome.pan one_organism_world))) /\
    (forall o, o ∈ values (pangenome._orgGetter (pangenome.pan one_organism_world)) ->
               is_Some (dget (Some o) idx)) /\
    (forall k1 k2 i, dget k1 idx = Some i -> dget k2 idx = Some i -> k1 = k2).
Proof. apply (getIndex_positions one_organism_world). reflexivity. Defined.

(** X12.  The index is built once: when an Organism that was not registered
    is added after getIndex, getIndex still returns the index it built, and
    the new organism, now registered, has no position in it. *)
Theorem getIndex_frozen (w : pangenome.World) (newOrg : genome.Organism) :
  pangenome._orgIndex (pangenome.pan w) = None ->
  dget (genome.org_name newOrg) (pangenome._orgGetter (pangenome.pan w)) = None ->
  newOrg ∉ values (pangenome._orgGetter (pangenome.pan w)) ->
  let '(r0, w0) := pangenome.getIndex w in
  let '(r1, w1) := pangenome.addOrganism (pangenome.AnOrganism newOrg) w0 in
  let '(r2, w2) := pangenome.getIndex w1 in
  exists idx,
    r0 = Ok idx /\ r1 = Ok (Some newOrg) /\ r2 = Ok idx /\ w2 = w1 /\
    dget (genome.org_name newOrg) (pangenome._orgGetter (pangenome.pan w1)) = Some newOrg /\
    dget (Some newOrg) idx = None.
Proof.
  intros Hnone Hfree Hnew.
  rewrite (getIndex_builds w Hnone).
  destruct (enumerate_into_spec (values (pangenome._orgGetter (pangenome.pan w))) [] [])
    as [Hpos _]; [discriminate | intros o Ho; inversion Ho |].
  cbn [length app] in Hpos.
  set (idx := pangenome.enumerate_into _ _ _) in *.
  set (w0 := pangenome.with_pan _ w).
  rewrite (addOrganism_instance_absent w0 newOrg Hfree).
  unfold pangenome.getIndex, bind, pangenome.get_pan. cbn.
  exists idx. split; [reflexivity|]. split; [reflexivity|]. split; [reflexivity|].
  split; [reflexivity|]. split; [rewrite <- (dset_absent _ _ newOrg Hfree); apply dget_dset_eq|].
  destruct (dget (Some newOrg) idx) as [i|] eqn:Hi; [|reflexivity].
  destruct (Hpos _ _ Hi) as (o & [= <-] & Ho). exfalso. apply Hnew.
  eapply list_elem_of_lookup_2. eassumption.
Qed.

Lemma getIndex_frozen_witness :
  let '(r0, w0) := pangenome.getIndex one_organism_world in
  let '(r1, w1) := pangenome.addOrganism (pangenome.AnOrganism strain_B) w0 in
  let '(r2, w2) := pangenome.getIndex w1 in
  exists idx,
    r0 = Ok idx /\ r1 = Ok (Some strain_B) /\ r2 = Ok idx /\ w2 = w1 /\
    dget "B" (pangenome._orgGetter (pangenome.pan w1)) = Some strain_B /\
    dget (Some strain_B) idx = None.
Proof.
  apply (getIndex_frozen one_organism_world strain_B); [reflexivity | reflexivity |].
  intros Hin. apply list_elem_of_singleton in Hin. discriminate Hin.
Defined.

(** ** Pangenome.computeFamilyBitarrays: what the first call computes *)

Section FirstBitarrays.
Import genome pangenome.
Variable idx : dict (option Organism) nat.

(** The bits of [b] are the positions the index gives to the organisms of the
    family [F]. *)
Definition bits_of (b : N) (F : GeneFamily) : Prop :=
  forall p, N.testbit b p = true <->
            exists org i, org ∈ keys (_genePerOrg F) /\ dget org idx = Some i /\
                          p = N.of_nat i.

Lemma with_fam_heap_id (w : World) : with_fam_heap (fam_heap w) w = w.
Proof. destruct w. reflexivity. Qed.

Lemma with_bitarray_id (F : GeneFamily) (b : N) :
  bitarray F = Some b -> with_bitarray (Some b) F = F.
Proof. destruct F. simpl. intros ->. reflexivity. Qed.

Lemma mkBitarray_loop (f : nat) (orgs : list (option Organism)) (w w' : World)
    (F : GeneFamily) (b0 : N) :
  fam_heap w !! f = Some F -> bitarray F = Some b0 ->
  for_each orgs (fun org =>
    let* i := lift (of_option KeyError (dget org idx)) in
    let* F := get_family f in
    put_family f
      (with_bitarray (Some (N.setbit (default 0%N (bitarray F)) (N.of_nat i))) F)) w
  = (Ok tt, w') ->
  exists b, w' = with_fam_heap (<[f := with_bitarray (Some b) F]> (fam_heap w)) w /\
    forall p, N.testbit b p = true <->
              N.testbit b0 p = true \/
              exists org i, org ∈ orgs /\ dget org idx = Some i /\ p = N.of_nat i.
Proof.
  revert w F b0. induction orgs as [|org orgs IH]; intros w F b0 HF Hb0; cbn [for_each].
  - intros [= <-]. exists b0. split.
    + rewrite (with_bitarray_id F b0 Hb0), (list_insert_id _ _ _ HF), with_fam_heap_id.
      reflexivity.
    + intros p. split; [auto|]. intros [?|(o & i & Hin & _)]; [assumption | inversion Hin].
  - unfold bind at 1. unfold bind at 1. unfold lift.
    destruct (dget org idx) as [i|] eqn:Hi; [|discriminate].
    unfold bind at 1. unfold get_family at 1. rewrite HF. cbn [of_option].
    unfold put_family at 1. cbn [modify]. rewrite Hb0. cbn [default].
    set (F1 := with_bitarray (Some (N.setbit b0 (N.of_nat i))) F).
    intros Hrest. apply (IH _ F1 (N.setbit b0 (N.of_nat i))) in Hrest as (b & -> & Hbits);
      [| cbn [fam_heap with_fam_heap]; apply list_lookup_insert_eq;
         eapply lookup_lt_Some; eassumption
       | reflexivity].
    exists b. split.
    + cbn [fam_heap with_fam_heap]. rewrite list_insert_insert_eq. reflexivity.
    + intros p. rewrite Hbits, N.setbit_iff. split.
      * intros [[<-|?]|(o & j & Hin & Hj & ->)]; [right|auto|right].
        -- exists org, i. split; [left|auto].
        -- exists o, j. split; [right|]; auto.
      * intros [?|(o & j & Hin & Hj & ->)]; [auto|].
        apply elem_of_cons in Hin as [->|Hin]; [left; left; congruence|].
        right. eauto 6.
Qed.

Lemma mkBitarray_spec (f : nat) (w w' : World) :
  mkBitarray f idx w = (Ok tt, w') ->
  exists F b, fam_heap w !! f = Some F /\
    w' = with_fam_heap (<[f := with_bitarray (Some b) F]> (fam_heap w)) w /\
    bits_of b F.
Proof.
  unfold mkBitarray. unfold bind at 1. unfold get_family at 1.
  destruct (fam_heap w !! f) as [F|] eqn:HF; [|discriminate]. cbn [of_option].
  unfold bind at 1. unfold put_family at 1. cbn [modify].
  intros Hloop.
  apply (mkBitarray_loop f _ _ _ (with_bitarray (Some 0%N) F) 0%N) in Hloop
    as (b & -> & Hbits);
    [| cbn [fam_heap with_fam_heap]; apply list_lookup_insert_eq;
       eapply lookup_lt_Some; eassumption
     | reflexivity].
  exists F, b. split; [reflexivity|]. split.
  - cbn [fam_heap with_fam_heap]. rewrite list_insert_insert_eq. reflexivity.
  - intros p. rewrite Hbits, N.bits_0. split; [intros [?|?]; [discriminate|assumption] | auto].
Qed.

(** The family [f] of the heap [h0] has its bitarray computed in [h]. *)
Definition computed (h0 h : list GeneFamily) (f : nat) : Prop :=
  exists F b, h0 !! f = Some F /\ h !! f = Some (with_bitarray (Some b) F) /\ bits_of b F.

Lemma mkBitarray_all (fams : list nat) (w w' : World) :
  for_each fams (fun fam => mkBitarray fam idx) w = (Ok tt, w') ->
  exists h, w' = with_fam_heap h w /\
    (forall f, f ∉ fams -> h !! f = fam_heap w !! f) /\
    (forall f, f ∈ fams -> computed (fam_heap w) h f).
Proof.
  revert w. induction fams as [|f fams IH]; intros w; cbn [for_each].
  - intros [= <-]. exists (fam_heap w). split; [symmetry; apply with_fam_heap_id|].
    split; [reflexivity|]. intros f Hf. inversion Hf.
  - unfold bind at 1. destruct (mkBitarray f idx w) as [[[]|x] w1] eqn:Hf; [|discriminate].
    apply mkBitarray_spec in Hf as (F & b & HF & -> & Hbits).
    intros Hrest. apply IH in Hrest as (h & -> & Hframe & Hdone).
    cbn [fam_heap with_fam_heap] in Hframe, Hdone.
    exists h. split; [reflexivity|]. split.
    + intros f' Hf'. rewrite Hframe by (intros ?; apply Hf'; right; assumption).
      apply list_lookup_insert_ne. intros ->. apply Hf'. left.
    + intros f' Hf'. destruct (decide (f' ∈ fams)) as [Hin|Hnotin].
      * destruct (Hdone f' Hin) as (F1 & b1 & HF1 & Hh & Hb1).
        destruct (decide (f = f')) as [<-|Hne].
        -- rewrite list_lookup_insert_eq in HF1 by (eapply lookup_lt_Some; eassumption).
           injection HF1 as <-. exists F, b1. auto.
        -- rewrite list_lookup_insert_ne in HF1 by assumption. exists F1, b1. auto.
      * apply elem_of_cons in Hf' as [->|?]; [|contradiction].
        exists F, b. split; [assumption|]. split; [|assumption].
        rewrite (Hframe f Hnotin). apply list_lookup_insert_eq.
        eapply lookup_lt_Some; eassumption.
Qed.

End FirstBitarrays.

(** X13.  When no index exists yet and computeFamilyBitarrays returns, it has
    built the index and given every registered family its bitarray: the bits
    set are exactly the positions of the organisms the family has genes in (the
    keys of its per-organism dictionary), the family is otherwise as it was, and
    the families that are not registered are untouched. *)
Theorem computeFamilyBitarrays_first_call
    (w w' : pangenome.World) (idx : dict (option genome.Organism) nat) :
  pangenome._orgIndex (pangenome.pan w) = None ->
  pangenome.computeFamilyBitarrays w = (Ok idx, w') ->
  (pangenome.getIndex w).1 = Ok idx /\
  pangenome.pan w' = pangenome.with_orgIndex (Some idx) (pangenome.pan w) /\
  (forall name f, dget name (pangenome._famGetter (pangenome.pan w)) = Some f ->
     exists F b,
       pangenome.fam_heap w !! f = Some F /\
       pangenome.fam_heap w' !! f = Some (pangenome.with_bitarray (Some b) F) /\
       forall p, N.testbit b p = true <->
                 exists org i, org ∈ keys (pangenome._genePerOrg F) /\
                               dget org idx = Some i /\ p = N.of_nat i) /\
  (forall f, f ∉ values (pangenome._famGetter (pangenome.pan w)) ->
     pangenome.fam_heap w' !! f = pangenome.fam_heap w !! f).
Proof.
  intros Hnone. unfold pangenome.computeFamilyBitarrays. unfold bind at 1.
  cbn [pangenome.get_pan]. rewrite Hnone. unfold bind at 1.
  rewrite (getIndex_builds w Hnone). unfold bind at 1. cbn [pangenome.get_pan].
  unfold bind at 1.
  destruct (for_each _ _ _) as [[[]|x] w2] eqn:Hloop; [|discriminate].
  cbn [ret]. intros [= <- <-].
  apply mkBitarray_all in Hloop as (h & -> & Hframe & Hdone).
  cbn [pangenome.pan pangenome.with_pan pangenome._famGetter pangenome.with_orgIndex
       pangenome.fam_heap pangenome.with_fam_heap] in *.
  split; [reflexivity|]. split; [reflexivity|]. split.
  - intros name f Hf. apply dget_Some_values in Hf.
    destruct (Hdone f Hf) as (F & b & HF & Hh & Hbits). exists F, b. auto.
  - assumption.
Qed.

Section BitarrayExample.
Import genome pangenome.

(** A pangenome of the organisms A and B with one registered family, which
    has a gene in B. *)
Definition family_in_B : GeneFamily :=
  {| fam_name := "fam_b"; fam_ID := 0; _edges := [];
     _genePerOrg := [(Some strain_B, [gene_of "b1" strain_B 0])];
     fam_genes := [gene_of "b1" strain_B 0]; removed := false; sequence := "";
     partition := "S"; bitarray := None |}.

Definition indexable_world : World :=
  {| fam_heap := [family_in_B]; edge_heap := []; contig_heap := []; org_count := 2;
     pan := {| _famGetter := [("fam_b", 0)]; max_fam_id := 1;
               _orgGetter := [("A", strain_A); ("B", strain_B)]; _edgeGetter := [];
               regions := []; _orgIndex := None |} |}.

End BitarrayExample.

Lemma computeFamilyBitarrays_first_call_witness :
  pangenome.fam_heap (pangenome.computeFamilyBitarrays indexable_world).2 !! 0
  = Some (pangenome.with_bitarray (Some 2%N) family_in_B) /\
  (forall name f,
     dget name (pangenome._famGetter (pangenome.pan indexable_world)) = Some f ->
     exists F b,
       pangenome.fam_heap indexable_world !! f = Some F /\
       pangenome.fam_heap (pangenome.computeFamilyBitarrays indexable_world).2 !! f
       = Some (pangenome.with_bitarray (Some b) F) /\
       forall p, N.testbit b p = true <->
                 exists org i, org ∈ keys (pangenome._genePerOrg F) /\
                               dget org [(Some strain_A, 0); (Some strain_B, 1)] = Some i /\
                               p = N.of_nat i).
Proof.
  split; [reflexivity|].
  apply (computeFamilyBitarrays_first_call indexable_world
           (pangenome.computeFamilyBitarrays indexable_world).2
           [(Some strain_A, 0); (Some strain_B, 1)]); reflexivity.
Defined.

(** ** Pangenome.addEdge: failures that change nothing, the edge maps, the pairs *)

Lemma addEdge_no_family (g1 g2 : genome.Gene) (w : pangenome.World) :
  dget {[ genome.family g1; genome.family g2 ]}
    (pangenome._edgeGetter (pangenome.pan w)) = None ->
  genome.family g1 = None \/ genome.family g2 = None ->
  pangenome.addEdge g1 g2 w = (Raise Exception, w).
Proof.
  unfold pangenome.addEdge. unfold bind at 1. cbn [pangenome.get_pan].
  intros -> Hfam. unfold bind at 1. unfold pangenome.Edge_init.
  destruct Hfam as [->| ->]; [reflexivity|].
  destruct (genome.family g1); reflexivity.
Qed.

(** X14.  addEdge raises and leaves the whole store as it was in two cases:
    when the family pair has no edge yet and one of the genes has no family
    (the check at the top of Edge.__init__), and when the family pair has its
    edge already and the genes are of different organisms (the check of
    addGenes, before anything is written). *)
Theorem addEdge_fails_unchanged (g1 g2 : genome.Gene) (w : pangenome.World) :
  (dget {[ genome.family g1; genome.family g2 ]}
     (pangenome._edgeGetter (pangenome.pan w)) = None /\
   (genome.family g1 = None \/ genome.family g2 = None)) \/
  (is_Some (dget {[ genome.family g1; genome.family g2 ]}
              (pangenome._edgeGetter (pangenome.pan w))) /\
   genome.organism g1 <> genome.organism g2) ->
  pangenome.addEdge g1 g2 w = (Raise Exception, w).
Proof.
  intros [[Hkey Hfam]|[[e Hkey] Horg]].
  - apply addEdge_no_family; assumption.
  - unfold pangenome.addEdge. unfold bind at 1. cbn [pangenome.get_pan]. rewrite Hkey.
    unfold bind at 1. rewrite (Edge_addGenes_other_organism e g1 g2 w Horg). reflexivity.
Qed.

Section AddEdgeFailures.
Import genome pangenome.

Definition orphan_gene : Gene :=
  {| gene_ID := "x1"; position := 0; organism := Some strain_A; contig := 0;
     family := None |}.

End AddEdgeFailures.

Lemma addEdge_fails_unchanged_witness :
  pangenome.addEdge orphan_gene (gene_of "a1" strain_A 0) two_family_world
  = (Raise Exception, two_family_world).
Proof.
  apply (addEdge_fails_unchanged orphan_gene (gene_of "a1" strain_A 0) two_family_world).
  left. split; [reflexivity | left; reflexivity].
Defined.

Section EdgeMaps.
Import genome pangenome.

(** Every edge of the edge getter is held by the families of its key: when
    the pair of families [a] and [b] leads to the edge [e], the edge map of [a]
    has [e] under [b]. *)
Definition edges_symmetric (w : World) : Prop :=
  forall a b e,
    dget {[ Some a; Some b ]} (_edgeGetter (pan w)) = Some e ->
    exists A, fam_heap w !! a = Some A /\ dget b (_edges A) = Some e.

Lemma pair_key_eq (a b c d : nat) :
  ({[ Some a; Some b ]} : gset (option nat)) = {[ Some c; Some d ]} ->
  (a = c /\ b = d) \/ (a = d /\ b = c).
Proof.
  intros Heq.
  assert (Some a ∈ ({[ Some c; Some d ]} : gset (option nat))) as Ha.
  { rewrite <- Heq. apply elem_of_union_l, elem_of_singleton. reflexivity. }
  assert (Some b ∈ ({[ Some c; Some d ]} : gset (option nat))) as Hb.
  { rewrite <- Heq. apply elem_of_union_r, elem_of_singleton. reflexivity. }
  assert (Some c ∈ ({[ Some a; Some b ]} : gset (option nat))) as Hc.
  { rewrite Heq. apply elem_of_union_l, elem_of_singleton. reflexivity. }
  assert (Some d ∈ ({[ Some a; Some b ]} : gset (option nat))) as Hd.
  { rewrite Heq. apply elem_of_union_r, elem_of_singleton. reflexivity. }
  apply elem_of_union in Ha, Hb, Hc, Hd. rewrite !elem_of_singleton in Ha, Hb, Hc, Hd.
  destruct Ha as [Ha|Ha], Hb as [Hb|Hb], Hc as [Hc|Hc], Hd as [Hd|Hd];
    simplify_eq; auto.
Qed.

Lemma link_families_elsewhere (src tgt e a b : nat) (h : list GeneFamily) (A : GeneFamily) :
  h !! a = Some A -> ~ (a = src /\ b = tgt) -> ~ (a = tgt /\ b = src) ->
  exists A', link_families src tgt e h !! a = Some A' /\
             dget b (_edges A') = dget b (_edges A).
Proof.
  intros HA Hst Hts. unfold link_families.
  assert (forall (l : list GeneFamily) x y X,
            l !! a = Some X ->
            ~ (a = x /\ b = y) ->
            exists X', (match l !! x with
                        | Some s => <[x := with_edges (dset y e (_edges s)) s]> l
                        | None => l end) !! a = Some X' /\
                       dget b (_edges X') = dget b (_edges X)) as Hstep.
  { intros l x y X HX Hxy. destruct (l !! x) as [s|] eqn:Hs; [|eauto].
    destruct (decide (x = a)) as [->|Hne].
    - rewrite list_lookup_insert_eq by (eapply lookup_lt_Some; eassumption).
      rewrite HX in Hs. injection Hs as <-. eexists. split; [reflexivity|].
      cbn [_edges with_edges]. apply dget_dset_ne. intros ->. apply Hxy. auto.
    - rewrite list_lookup_insert_ne by assumption. eauto. }
  destruct (Hstep h src tgt A HA Hst) as (A1 & HA1 & Hd1).
  destruct (Hstep _ tgt src A1 HA1 Hts) as (A2 & HA2 & Hd2).
  exists A2. split; [exact HA2 | congruence].
Qed.

Lemma Edge_addGenes_frame (e : nat) (g1 g2 : Gene) (w : World) :
  fam_heap (Edge_addGenes e g1 g2 w).2 = fam_heap w /\
  pan (Edge_addGenes e g1 g2 w).2 = pan w.
Proof.
  unfold Edge_addGenes. destruct (decide (organism g1 <> organism g2)); [auto|].
  unfold bind, get_edge. destruct (edge_heap w !! e); auto.
Qed.

End EdgeMaps.

(** X15.  addEdge keeps the edge getter and the edge maps of the families in
    step, whether it returns or raises: if every edge that the getter holds
    for a pair of families is held by the edge map of either family under the
    other, then so it is after addEdge on two genes whose families (if they
    have one) are in the store. *)
Theorem addEdge_keeps_edges_symmetric (g1 g2 : genome.Gene) (w : pangenome.World) :
  edges_symmetric w ->
  (forall f, genome.family g1 = Some f -> is_Some (pangenome.fam_heap w !! f)) ->
  (forall f, genome.family g2 = Some f -> is_Some (pangenome.fam_heap w !! f)) ->
  edges_symmetric (pangenome.addEdge g1 g2 w).2.
Proof.
  intros Hsym Hg1 Hg2.
  destruct (dget {[ genome.family g1; genome.family g2 ]}
              (pangenome._edgeGetter (pangenome.pan w))) as [e|] eqn:Hkey.
  { (* the pair has its edge: only the edge object may change *)
    unfold pangenome.addEdge. unfold bind at 1. cbn [pangenome.get_pan]. rewrite Hkey.
    unfold bind at 1.
    destruct (Edge_addGenes_frame e g1 g2 w) as [Hfam Hpan].
    destruct (pangenome.Edge_addGenes e g1 g2 w) as [[[]|x] w']; cbn [snd ret] in *;
      unfold edges_symmetric; rewrite Hpan, Hfam; exact Hsym. }
  destruct (genome.family g1) as [src|] eqn:H1.
  2:{ rewrite addEdge_no_family; [assumption | rewrite H1; assumption | auto]. }
  destruct (genome.family g2) as [tgt|] eqn:H2.
  2:{ rewrite addEdge_no_family; [assumption | rewrite H1, H2; assumption | auto]. }
  rewrite (addEdge_new_edge g1 g2 src tgt w H1 H2 (Hg1 _ eq_refl) (Hg2 _ eq_refl) Hkey).
  destruct (Edge_addGenes_frame (length (pangenome.edge_heap w)) g1 g2
              (registered src tgt w)) as [Hfam Hpan].
  cbn [pangenome.fam_heap registered pangenome.with_fam_heap pangenome.with_edge_heap
       pangenome.pan] in Hfam, Hpan.
  assert (forall a b e, dget {[ Some a; Some b ]}
                          (pangenome._edgeGetter (pangenome.pan w)) = Some e ->
            exists A, link_families src tgt (length (pangenome.edge_heap w))
                        (pangenome.fam_heap w) !! a = Some A /\
                      dget b (pangenome._edges A) = Some e) as Hold.
  { intros a b e He. destruct (Hsym a b e He) as (A & HA & Hb).
    destruct (link_families_elsewhere src tgt (length (pangenome.edge_heap w)) a b _ A HA)
      as (A' & HA' & Hb').
    - intros [-> ->]. rewrite Hkey in He. discriminate.
    - intros [-> ->]. rewrite (frozenset_swap (Some tgt) (Some src)), Hkey in He.
      discriminate.
    - exists A'. split; [assumption | congruence]. }
  destruct (pangenome.Edge_addGenes _ g1 g2 _) as [[[]|x] w'];
    unfold edges_symmetric;
    cbn [snd pangenome.pan pangenome.with_pan pangenome.fam_heap] in *;
    intros a b e He; rewrite ?Hpan in He; rewrite Hfam.
  - cbn [pangenome._edgeGetter pangenome.with_edgeGetter] in He.
    destruct (decide (({[ Some src; Some tgt ]} : gset (option nat)) = {[ Some a; Some b ]}))
      as [Heq|Hne].
    + rewrite Heq, dget_dset_eq in He. injection He as <-.
      destruct (link_families_linked src tgt (length (pangenome.edge_heap w))
                  (pangenome.fam_heap w) (Hg1 _ eq_refl) (Hg2 _ eq_refl)) as [Hs Ht].
      symmetry in Heq. apply pair_key_eq in Heq as [[-> ->]|[-> ->]]; assumption.
    + rewrite dget_dset_ne in He by assumption. apply Hold. assumption.
  - apply Hold. assumption.
Qed.

Lemma addEdge_keeps_edges_symmetric_witness :
  edges_symmetric
    (pangenome.addEdge (gene_of "a1" strain_A 0) (gene_of "a2" strain_A 1)
       two_family_world).2.
Proof.
  apply (addEdge_keeps_edges_symmetric (gene_of "a1" strain_A 0) (gene_of "a2" strain_A 1)
           two_family_world).
  - intros a b e He. discriminate He.
  - intros f [= <-]. eexists. reflexivity.
  - intros f [= <-]. eexists. reflexivity.
Defined.

Section GenePairs.
Import genome pangenome.

Lemma concat_values_dset {K V} `{EqDecision K} (d : dict K (list V)) (k : K) (x : V) :
  concat (values (dset k (default [] (dget k d) ++ [x]) d)) ≡ₚ concat (values d) ++ [x].
Proof.
  induction d as [|[k' l] d IH].
  - reflexivity.
  - cbn [dget]. cbn [dset]. destruct (decide (k' = k)) as [->|Hne].
    + destruct (decide (k = k)); [|contradiction]. cbn.
      rewrite <- !app_assoc. apply Permutation_app_head, Permutation_app_comm.
    + destruct (decide (k' = k)); [contradiction|]. cbn [values map snd concat].
      rewrite <- app_assoc. apply Permutation_app_head. exact IH.
Qed.

Lemma genePairs_record_pair (g1 g2 : Gene) (E : Edge) :
  genePairs (record_pair g1 g2 E) ≡ₚ genePairs E ++ [(g1, g2)].
Proof. unfold genePairs, record_pair. cbn [organisms with_organisms]. apply concat_values_dset. Qed.

End GenePairs.

(** X16.  When the family pair has its edge already and the two genes are of
    the same organism, addEdge returns that edge and only the edge object
    changes: its source and target are as before and its gene pairs are the
    pairs it had and the new pair (g1, g2), one pair more. *)
Theorem addEdge_existing_edge
    (g1 g2 : genome.Gene) (e : nat) (E : pangenome.Edge) (w : pangenome.World) :
  dget {[ genome.family g1; genome.family g2 ]}
    (pangenome._edgeGetter (pangenome.pan w)) = Some e ->
  pangenome.edge_heap w !! e = Some E ->
  genome.organism g1 = genome.organism g2 ->
  exists E',
    pangenome.addEdge g1 g2 w
    = (Ok e, pangenome.with_edge_heap (<[e := E']> (pangenome.edge_heap w)) w) /\
    pangenome.source E' = pangenome.source E /\
    pangenome.target E' = pangenome.target E /\
    pangenome.genePairs E' ≡ₚ pangenome.genePairs E ++ [(g1, g2)] /\
    length (pangenome.genePairs E') = S (length (pangenome.genePairs E)).
Proof.
  intros Hkey HE Horg. exists (record_pair g1 g2 E). split.
  { unfold pangenome.addEdge. unfold bind at 1. cbn [pangenome.get_pan]. rewrite Hkey.
    unfold bind at 1. rewrite (Edge_addGenes_same_organism e g1 g2 E w Horg HE).
    reflexivity. }
  split; [reflexivity|]. split; [reflexivity|].
  pose proof (genePairs_record_pair g1 g2 E) as Hperm.
  split; [exact Hperm|]. rewrite Hperm, length_app. simpl. lia.
Qed.

Section ExistingEdgeExample.
Import genome pangenome.

(** The store after [addEdge(a1, a2)] on the two families. *)
Definition one_edge_world : World :=
  (addEdge (gene_of "a1" strain_A 0) (gene_of "a2" strain_A 1) two_family_world).2.

End ExistingEdgeExample.

Lemma addEdge_existing_edge_witness :
  exists E',
    pangenome.addEdge (gene_of "b1" strain_B 1) (gene_of "b2" strain_B 0) one_edge_world
    = (Ok 0, pangenome.with_edge_heap (<[0 := E']> (pangenome.edge_heap one_edge_world))
               one_edge_world) /\
    pangenome.source E' = 0 /\
    pangenome.target E' = 1 /\
    pangenome.genePairs E'
    ≡ₚ [(gene_of "a1" strain_A 0, gene_of "a2" strain_A 1)]
       ++ [(gene_of "b1" strain_B 1, gene_of "b2" strain_B 0)] /\
    length (pangenome.genePairs E') = 2.
Proof.
  apply (addEdge_existing_edge (gene_of "b1" strain_B 1) (gene_of "b2" strain_B 0) 0
           (record_pair (gene_of "a1" strain_A 0) (gene_of "a2" strain_A 1) (bare_edge 0 1))
           one_edge_world); [| reflexivity | reflexivity].
  unfold one_edge_world.
  rewrite (addEdge_new_edge _ _ 0 1);
    [|reflexivity|reflexivity|eexists; reflexivity..|reflexivity].
  rewrite (Edge_addGenes_same_organism _ _ _ (bare_edge 0 1)); [|reflexivity|reflexivity].
  cbn [snd pangenome.pan pangenome.with_pan pangenome._edgeGetter pangenome.with_edgeGetter
       genome.family gene_of].
  rewrite (frozenset_swap (Some 1) (Some 0)). apply dget_dset_eq.
Defined.

(** ** GeneFamily.getGenesPerOrg (pangenome.py) *)

Section GenesPerOrg.
Import genome pangenome.

Lemma mkBitarray_loop_returns (idx : dict (option Organism) nat) (f : nat)
    (orgs : list (option Organism)) (w : World) :
  is_Some (fam_heap w !! f) ->
  (forall org, org ∈ orgs -> is_Some (dget org idx)) ->
  exists w', for_each orgs (fun org =>
    let* i := lift (of_option KeyError (dget org idx)) in
    let* F := get_family f in
    put_family f
      (with_bitarray (Some (N.setbit (default 0%N (bitarray F)) (N.of_nat i))) F)) w
  = (Ok tt, w').
Proof.
  revert w. induction orgs as [|org orgs IH]; intros w [F HF] Hall; cbn [for_each].
  - eauto.
  - destruct (Hall org) as [i Hi]; [left|].
    unfold bind at 1. unfold bind at 1. unfold lift. rewrite Hi. cbn [of_option].
    unfold bind at 1. unfold get_family at 1. rewrite HF. cbn [of_option].
    unfold put_family at 1. cbn [modify]. apply IH.
    + cbn [fam_heap with_fam_heap]. apply lookup_lt_is_Some_2. rewrite length_insert.
      eapply lookup_lt_Some. eassumption.
    + intros org' Hin. apply Hall. right. assumption.
Qed.

Lemma mkBitarray_returns (idx : dict (option Organism) nat) (f : nat) (F : GeneFamily)
    (w : World) :
  fam_heap w !! f = Some F ->
  (forall org, org ∈ keys (_genePerOrg F) -> is_Some (dget org idx)) ->
  exists w', mkBitarray f idx w = (Ok tt, w').
Proof.
  intros HF Hall. unfold mkBitarray. unfold bind at 1. unfold get_family at 1.
  rewrite HF. cbn [of_option]. unfold bind at 1. unfold put_family at 1. cbn [modify].
  apply mkBitarray_loop_returns; [|assumption].
  cbn [fam_heap with_fam_heap]. apply lookup_lt_is_Some_2. rewrite length_insert.
  eapply lookup_lt_Some. eassumption.
Qed.

End GenesPerOrg.

(** X17.  Asking a family for its genes in an organism that is no key of its
    per-organism dictionary does not raise and is not a plain read: the answer
    is the empty set, but the organism is left as a key of the dictionary, so
    it is from then on one of family.organisms and mkBitarray sets its bit.
    Asking again changes nothing more. *)
Theorem getGenesPerOrg_registers_organism
    (f : nat) (org : option genome.Organism) (F : pangenome.GeneFamily)
    (w : pangenome.World) (idx : dict (option genome.Organism) nat) (i : nat) :
  pangenome.fam_heap w !! f = Some F ->
  dget org (pangenome._genePerOrg F) = None ->
  dget org idx = Some i ->
  (forall o, o ∈ keys (pangenome._genePerOrg F) -> is_Some (dget o idx)) ->
  let '(r, w') := pangenome.getGenesPerOrg f org w in
  r = Ok [] /\
  pangenome.organisms_of f w' = (Ok (keys (pangenome._genePerOrg F) ++ [org]), w') /\
  pangenome.getGenesPerOrg f org w' = (Ok [], w') /\
  exists w'' F'' b,
    pangenome.mkBitarray f idx w' = (Ok tt, w'') /\
    pangenome.fam_heap w'' !! f = Some F'' /\
    pangenome.bitarray F'' = Some b /\ N.testbit b (N.of_nat i) = true.
Proof.
  intros HF Habsent Hi Hall.
  unfold pangenome.getGenesPerOrg at 1. unfold bind at 1. unfold pangenome.get_family at 1.
  rewrite HF. cbn [of_option]. rewrite Habsent. unfold bind at 1.
  unfold pangenome.put_family at 1. cbn [modify ret].
  set (F' := pangenome.with_genePerOrg (dset org [] (pangenome._genePerOrg F)) F).
  set (w' := pangenome.with_fam_heap _ w).
  assert (pangenome.fam_heap w' !! f = Some F') as HF'.
  { subst w'. cbn [pangenome.fam_heap pangenome.with_fam_heap].
    apply list_lookup_insert_eq. eapply lookup_lt_Some. eassumption. }
  split; [reflexivity|]. split; [|split].
  - unfold pangenome.organisms_of, bind, pangenome.get_family. rewrite HF'.
    cbn [of_option ret]. subst F'. cbn [pangenome._genePerOrg pangenome.with_genePerOrg].
    rewrite (keys_dset_absent _ _ _ Habsent). reflexivity.
  - unfold pangenome.getGenesPerOrg, bind, pangenome.get_family. rewrite HF'.
    cbn [of_option]. subst F'. cbn [pangenome._genePerOrg pangenome.with_genePerOrg].
    rewrite dget_dset_eq. reflexivity.
  - destruct (mkBitarray_returns idx f F' w' HF') as [w'' Hrun].
    { intros o. subst F'. cbn [pangenome._genePerOrg pangenome.with_genePerOrg].
      rewrite elem_of_keys_dset. intros [->|Ho]; [eauto | auto]. }
    destruct (mkBitarray_spec idx f w' w'' Hrun) as (F1 & b & HF1 & -> & Hbits).
    rewrite HF' in HF1. injection HF1 as <-.
    exists (pangenome.with_fam_heap
              (<[f := pangenome.with_bitarray (Some b) F']> (pangenome.fam_heap w')) w'),
      (pangenome.with_bitarray (Some b) F'), b.
    split; [exact Hrun|]. split.
    { cbn [pangenome.fam_heap pangenome.with_fam_heap]. apply list_lookup_insert_eq.
      eapply lookup_lt_Some. eassumption. }
    split; [reflexivity|]. apply Hbits. exists org, i.
    split; [|auto]. subst F'. cbn [pangenome._genePerOrg pangenome.with_genePerOrg].
    apply elem_of_keys_dset. auto.
Qed.

Lemma getGenesPerOrg_registers_organism_witness :
  let '(r, w') := pangenome.getGenesPerOrg 0 (Some strain_A) indexable_world in
  r = Ok [] /\
  pangenome.organisms_of 0 w' = (Ok ([Some strain_B] ++ [Some strain_A]), w') /\
  pangenome.getGenesPerOrg 0 (Some strain_A) w' = (Ok [], w') /\
  exists w'' F'' b,
    pangenome.mkBitarray 0 [(Some strain_A, 0); (Some strain_B, 1)] w' = (Ok tt, w'') /\
    pangenome.fam_heap w'' !! 0 = Some F'' /\
    pangenome.bitarray F'' = Some b /\ N.testbit b (N.of_nat 0) = true.
Proof.
  apply (getGenesPerOrg_registers_organism 0 (Some strain_A) family_in_B indexable_world
           [(Some strain_A, 0); (Some strain_B, 1)] 0);
    [reflexivity | reflexivity | reflexivity |].
  intros o Ho. apply list_elem_of_singleton in Ho. subst o. eexists. reflexivity.
Defined.

(** ** GeneFamily of geneFamily.py: genes in and out *)

Section GenesInAndOut.
Import genome geneFamily.

(** The gene object once [add] has set its [family]. *)
Definition with_family (self_ref : nat) (gene : Gene) : Gene :=
  {| gene_ID := gene_ID gene; position := position gene; organism := organism gene;
     contig := contig gene; family := Some self_ref |}.

Lemma dget_ddel_eq {V} (d : dict string V) (k : string) : dget k (ddel k d) = None.
Proof.
  unfold ddel, dict in *. induction d as [|[k' v] d IH]; [reflexivity|].
  rewrite filter_cons. cbn [fst]. destruct (decide (k' <> k)) as [Hne|Heq]; [|exact IH].
  cbn [dget]. destruct (decide (k' = k)); [contradiction | exact IH].
Qed.

Lemma dget_ddel_ne {V} (d : dict string V) (k k' : string) :
  k <> k' -> dget k' (ddel k d) = dget k' d.
Proof.
  intros Hkk. unfold ddel, dict in *. induction d as [|[k0 v] d IH]; [reflexivity|].
  rewrite filter_cons. cbn [fst]. destruct (decide (k0 <> k)) as [Hne|Heq].
  - cbn [dget]. destruct (decide (k0 = k')); [reflexivity | exact IH].
  - apply dec_stable in Heq. subst k0. cbn [dget].
    destruct (decide (k = k')); [contradiction | exact IH].
Qed.

Lemma ddel_absent {V} (d : dict string V) (k : string) : dget k d = None -> ddel k d = d.
Proof.
  unfold ddel, dict in *. induction d as [|[k' v] d IH]; [reflexivity|]. cbn [dget].
  destruct (decide (k' = k)); [discriminate|]. intros Hd.
  rewrite filter_cons. cbn [fst]. destruct (decide (k' <> k)); [|contradiction].
  f_equal. auto.
Qed.

Lemma ddel_dset_absent {V} (d : dict string V) (k : string) (v : V) :
  dget k d = None -> ddel k (dset k v d) = d.
Proof.
  intros Hd. rewrite (dset_absent _ _ _ Hd).
  pose proof (ddel_absent d k Hd) as Hsame. unfold ddel, dict in *.
  rewrite filter_app, Hsame, filter_cons. cbn [fst].
  destruct (decide (k <> k)); [contradiction|]. rewrite filter_nil. apply app_nil_r.
Qed.

Lemma len_ddel_present {V} (d : dict string V) (k : string) (v : V) :
  NoDup (keys d) -> dget k d = Some v -> S (len (ddel k d)) = len d.
Proof.
  unfold len, keys. induction d as [|[k' v'] d IH]; [discriminate|].
  cbn [map fst dget]. rewrite NoDup_cons. intros [Hnotin Hnodup].
  destruct (decide (k' = k)) as [->|Hne].
  - intros _.
    assert (dget k d = None) as Hd.
    { destruct (dget k d) eqn:Hd; [|reflexivity]. exfalso. apply Hnotin.
      apply (proj1 (dget_Some_keys d k)). eauto. }
    pose proof (ddel_absent d k Hd) as Hsame. unfold ddel, dict in *.
    rewrite filter_cons. cbn [fst]. destruct (decide (k <> k)); [contradiction|].
    rewrite Hsame. reflexivity.
  - intros Hd. specialize (IH Hnodup Hd). unfold ddel, dict in *.
    rewrite filter_cons. cbn [fst]. destruct (decide (k' <> k)); [|contradiction].
    cbn [length]. f_equal. exact IH.
Qed.

Lemma add_result (self_ref : nat) (gene : Gene) (s : GeneFamily) :
  dget (gene_ID gene) (_genes_getter s) = None ->
  add self_ref gene s
  = (Ok tt,
     match organism gene with
     | Some org =>
         with_genePerOrg (cache_add org (with_family self_ref gene) (_genePerOrg s))
           (with_genes_getter
              (dset (gene_ID gene) (with_family self_ref gene) (_genes_getter s)) s)
     | None =>
         with_genes_getter
           (dset (gene_ID gene) (with_family self_ref gene) (_genes_getter s)) s
     end).
Proof.
  intros Hfree. unfold add, __setitem__, bind, get, modify, raise, ret.
  rewrite Hfree. destruct (decide (is_Some (@None Gene))) as [[? ?]|_]; [discriminate|].
  unfold with_family. destruct (organism gene); reflexivity.
Qed.

Lemma add_duplicate (self_ref : nat) (gene : Gene) (s : GeneFamily) :
  is_Some (dget (gene_ID gene) (_genes_getter s)) ->
  add self_ref gene s = (Raise KeyError, s).
Proof.
  intros Hdup. unfold add, __setitem__, bind, get, raise.
  destruct (decide (is_Some (dget (gene_ID gene) (_genes_getter s)))); [|contradiction].
  reflexivity.
Qed.

End GenesInAndOut.

(** X18.  add of a gene whose ID the family does not hold succeeds: get of
    that ID then returns the gene, with its family set to this family; the
    other IDs lead where they led; the family has one gene more; and adding
    the gene again raises KeyError and leaves the family as it is. *)
Theorem add_then_get (self_ref : nat) (gene : genome.Gene) (s : geneFamily.GeneFamily) :
  dget (genome.gene_ID gene) (geneFamily._genes_getter s) = None ->
  let '(r, s') := geneFamily.add self_ref gene s in
  r = Ok tt /\
  geneFamily.get_gene (genome.gene_ID gene) s' = (Ok (with_family self_ref gene), s') /\
  (forall id, id <> genome.gene_ID gene ->
     (geneFamily.get_gene id s').1 = (geneFamily.get_gene id s).1) /\
  geneFamily.__len__ s' = (geneFamily.__len__ s + 1)%Z /\
  geneFamily.add self_ref gene s' = (Raise KeyError, s').
Proof.
  intros Hfree. rewrite (add_result self_ref gene s Hfree).
  set (s' := match genome.organism gene with Some _ => _ | None => _ end).
  assert (geneFamily._genes_getter s'
          = dset (genome.gene_ID gene) (with_family self_ref gene)
              (geneFamily._genes_getter s)) as Hgetter.
  { subst s'. destruct (genome.organism gene); reflexivity. }
  split; [reflexivity|]. split; [|split; [|split]].
  - unfold geneFamily.get_gene, geneFamily.__getitem__, bind, get, lift.
    rewrite Hgetter, dget_dset_eq. reflexivity.
  - intros id Hid. unfold geneFamily.get_gene, geneFamily.__getitem__, bind, get, lift.
    rewrite Hgetter, dget_dset_ne by congruence. reflexivity.
  - unfold geneFamily.__len__. rewrite Hgetter, (len_dset_absent _ _ _ Hfree). lia.
  - apply add_duplicate. rewrite Hgetter, dget_dset_eq. eauto.
Qed.

Lemma add_then_get_witness :
  let '(r, s') := geneFamily.add 7 gene_a1 fresh_family in
  r = Ok tt /\
  geneFamily.get_gene "a1" s' = (Ok (with_family 7 gene_a1), s') /\
  (forall id, id <> "a1" ->
     (geneFamily.get_gene id s').1 = (geneFamily.get_gene id fresh_family).1) /\
  geneFamily.__len__ s' = (geneFamily.__len__ fresh_family + 1)%Z /\
  geneFamily.add 7 gene_a1 s' = (Raise KeyError, s').
Proof. apply (add_then_get 7 gene_a1 fresh_family). reflexivity. Defined.

(** X19.  remove of an ID the family holds succeeds: get of that ID then
    raises KeyError, the other IDs lead where they led, the family has one gene
    less (its IDs being distinct), but the per-organism dictionary is not
    touched.  remove of an ID the family does not hold raises KeyError and
    changes nothing.  So add followed by remove of the same gene gives back the
    genes the family had, with the organism of the gene still in the
    per-organism dictionary. *)
Theorem remove_then_get (id : string) (s : geneFamily.GeneFamily) :
  (is_Some (dget id (geneFamily._genes_getter s)) ->
   let '(r, s') := geneFamily.remove id s in
   r = Ok tt /\
   geneFamily.get_gene id s' = (Raise KeyError, s') /\
   (forall id', id' <> id ->
      (geneFamily.get_gene id' s').1 = (geneFamily.get_gene id' s).1) /\
   geneFamily._genePerOrg s' = geneFamily._genePerOrg s /\
   (NoDup (keys (geneFamily._genes_getter s)) ->
    (geneFamily.__len__ s' + 1)%Z = geneFamily.__len__ s)) /\
  (dget id (geneFamily._genes_getter s) = None ->
   geneFamily.remove id s = (Raise KeyError, s) /\
   forall self_ref gene org,
     genome.gene_ID gene = id -> genome.organism gene = Some org ->
     let s1 := (geneFamily.add self_ref gene s).2 in
     let s2 := (geneFamily.remove id s1).2 in
     geneFamily._genes_getter s2 = geneFamily._genes_getter s /\
     org ∈ keys (geneFamily._genePerOrg s2)).
Proof.
  split.
  - intros [g Hg]. unfold geneFamily.remove, geneFamily.__delitem__, bind, get, modify, raise.
    rewrite Hg. split; [reflexivity|]. split; [|split; [|split]].
    + unfold geneFamily.get_gene, geneFamily.__getitem__, bind, get, lift.
      cbn [geneFamily._genes_getter geneFamily.with_genes_getter].
      rewrite dget_ddel_eq. reflexivity.
    + intros id' Hid'. unfold geneFamily.get_gene, geneFamily.__getitem__, bind, get, lift.
      cbn [geneFamily._genes_getter geneFamily.with_genes_getter].
      rewrite dget_ddel_ne by congruence. reflexivity.
    + reflexivity.
    + intros Hnodup. unfold geneFamily.__len__.
      cbn [geneFamily._genes_getter geneFamily.with_genes_getter].
      rewrite <- (len_ddel_present _ _ _ Hnodup Hg). lia.
  - intros Hnone. split.
    { unfold geneFamily.remove, geneFamily.__delitem__, bind, get, raise.
      rewrite Hnone. reflexivity. }
    intros self_ref gene org Hid Horg. subst id.
    rewrite (add_result self_ref gene s Hnone), Horg. cbn [snd].
    unfold geneFamily.remove, geneFamily.__delitem__, bind, get, modify, raise.
    cbn [geneFamily._genes_getter geneFamily.with_genes_getter geneFamily.with_genePerOrg].
    rewrite dget_dset_eq. cbn [snd geneFamily._genes_getter geneFamily.with_genes_getter
                                 geneFamily._genePerOrg geneFamily.with_genePerOrg].
    split; [apply ddel_dset_absent; assumption|].
    unfold geneFamily.cache_add. apply elem_of_keys_dset. auto.
Qed.

(** ** GeneFamily of geneFamily.py: the per-organism dictionary *)

Section PerOrganism.
Import genome geneFamily.

(** The gene [g] is in the set the dictionary [d] holds for [org]. *)
Definition cached (d : dict Organism (list Gene)) (org : Organism) (g : Gene) : Prop :=
  exists l, dget org d = Some l /\ g ∈ l.

(** The per-organism dictionary holds, for each organism, exactly the genes
    of the family that are of that organism, and no empty set. *)
Definition cache_exact (s : GeneFamily) : Prop :=
  (forall org g, cached (_genePerOrg s) org g <->
                 g ∈ genes_of s /\ organism g = Some org) /\
  (forall org l, dget org (_genePerOrg s) = Some l -> l <> []).

Lemma cached_cache_add (d : dict Organism (list Gene)) (o org : Organism) (g0 g : Gene) :
  cached (cache_add o g0 d) org g <-> cached d org g \/ (org = o /\ g = g0).
Proof.
  unfold cached, cache_add. destruct (decide (o = org)) as [->|Hne].
  - rewrite dget_dset_eq. set (s := default [] (dget org d)).
    assert ((exists l, dget org d = Some l /\ g ∈ l) <-> g ∈ s) as Hold.
    { subst s. destruct (dget org d) as [l|]; cbn [default]; split.
      - intros (l' & [= <-] & Hg). assumption.
      - eauto.
      - intros (l' & Hl & _). discriminate.
      - intros Hg. inversion Hg. }
    assert (g ∈ (if decide (g0 ∈ s) then s else s ++ [g0]) <-> g ∈ s \/ g = g0) as Hnew.
    { destruct (decide (g0 ∈ s)) as [Hin|_].
      - split; [auto|]. intros [?| ->]; assumption.
      - rewrite elem_of_app, list_elem_of_singleton. reflexivity. }
    rewrite Hold. split.
    + intros (l & [= <-] & Hg). apply Hnew in Hg as [?|?]; auto.
    + intros Hg. eexists. split; [reflexivity|]. apply Hnew. tauto.
  - rewrite dget_dset_ne by assumption. split; [auto|].
    intros [?|[-> _]]; [assumption | contradiction].
Qed.

Lemma cache_add_no_empty (d : dict Organism (list Gene)) (o : Organism) (g0 : Gene) :
  (forall org l, dget org d = Some l -> l <> []) ->
  forall org l, dget org (cache_add o g0 d) = Some l -> l <> [].
Proof.
  intros Hd org l. unfold cache_add. destruct (decide (o = org)) as [->|Hne].
  - rewrite dget_dset_eq. intros [= <-]. destruct (decide (g0 ∈ _)) as [Hin|_].
    + intros Hnil. rewrite Hnil in Hin. inversion Hin.
    + intros Hnil. apply app_eq_nil in Hnil as [_ Hnil]. discriminate.
  - rewrite dget_dset_ne by assumption. apply Hd.
Qed.

Lemma add_Ok_free (self_ref : nat) (gene : Gene) (s s' : GeneFamily) :
  add self_ref gene s = (Ok tt, s') -> dget (gene_ID gene) (_genes_getter s) = None.
Proof.
  intros Hadd. destruct (dget (gene_ID gene) (_genes_getter s)) as [g|] eqn:Hg;
    [|reflexivity].
  rewrite add_duplicate in Hadd by (rewrite Hg; eauto). discriminate.
Qed.

Lemma add_genes_of (self_ref : nat) (gene : Gene) (s s' : GeneFamily) :
  add self_ref gene s = (Ok tt, s') ->
  genes_of s' = genes_of s ++ [with_family self_ref gene] /\
  keys (_genes_getter s') = keys (_genes_getter s) ++ [gene_ID gene].
Proof.
  intros Hadd. pose proof (add_Ok_free _ _ _ _ Hadd) as Hfree.
  rewrite (add_result _ _ _ Hfree) in Hadd. injection Hadd as <-.
  assert (forall t, _genes_getter t
                    = dset (gene_ID gene) (with_family self_ref gene) (_genes_getter s) ->
            genes_of t = genes_of s ++ [with_family self_ref gene] /\
            keys (_genes_getter t) = keys (_genes_getter s) ++ [gene_ID gene]) as Hboth.
  { intros t Ht. unfold genes_of. rewrite Ht, (dset_absent _ _ _ Hfree).
    unfold values, keys. rewrite !map_app. auto. }
  destruct (organism gene); apply Hboth; reflexivity.
Qed.

Lemma add_cache_exact (self_ref : nat) (gene : Gene) (s s' : GeneFamily) :
  cache_exact s -> add self_ref gene s = (Ok tt, s') -> cache_exact s'.
Proof.
  intros [Hexact Hfull] Hadd. destruct (add_genes_of _ _ _ _ Hadd) as [Hgenes _].
  pose proof (add_Ok_free _ _ _ _ Hadd) as Hfree.
  rewrite (add_result _ _ _ Hfree) in Hadd. injection Hadd as Hs'.
  destruct (organism gene) as [o|] eqn:Ho; subst s'; split.
  - intros org g. cbn [_genePerOrg with_genePerOrg].
    rewrite cached_cache_add, Hgenes, elem_of_app, list_elem_of_singleton, (Hexact org g).
    split.
    + intros [[? ?]|[-> ->]]; [auto|]. split; [auto|]. exact Ho.
    + intros [[?| ->] Horg]; [auto|]. right. split; [|reflexivity].
      cbn in Horg. congruence.
  - cbn [_genePerOrg with_genePerOrg]. apply cache_add_no_empty. exact Hfull.
  - intros org g. cbn [_genePerOrg with_genes_getter].
    rewrite Hgenes, elem_of_app, list_elem_of_singleton, (Hexact org g). split.
    + intros [? ?]; auto.
    + intros [[?| ->] Horg]; [auto|]. cbn in Horg. congruence.
  - exact Hfull.
Qed.

Lemma adds_invariant (self_ref : nat) (genes : list Gene) (s0 s : GeneFamily) :
  for_each genes (add self_ref) s0 = (Ok tt, s) ->
  genes_of s = genes_of s0 ++ map (with_family self_ref) genes /\
  keys (_genes_getter s) = keys (_genes_getter s0) ++ map gene_ID genes /\
  (cache_exact s0 -> cache_exact s) /\
  (NoDup (keys (_genes_getter s0)) -> NoDup (keys (_genes_getter s))).
Proof.
  revert s0. induction genes as [|g genes IH]; intros s0; cbn [for_each].
  - intros [= <-]. cbn [map]. rewrite !app_nil_r. auto.
  - unfold bind at 1. destruct (add self_ref g s0) as [[[]|x] s1] eqn:Hadd; [|discriminate].
    intros Hrest. destruct (IH _ Hrest) as (Hgenes & Hkeys & Hexact & Hnodup).
    destruct (add_genes_of _ _ _ _ Hadd) as [Hg1 Hk1].
    pose proof (add_Ok_free _ _ _ _ Hadd) as Hfree.
    split; [rewrite Hgenes, Hg1, <- app_assoc; reflexivity|].
    split; [rewrite Hkeys, Hk1, <- app_assoc; reflexivity|].
    split; [intros H0; apply Hexact; eapply add_cache_exact; eassumption|].
    intros H0. apply Hnodup. rewrite Hk1. apply NoDup_app. split; [assumption|].
    split; [|apply NoDup_singleton].
    intros k Hk Hk'. apply list_elem_of_singleton in Hk'. subst k.
    apply dget_Some_keys in Hk as [v Hv]. congruence.
Qed.

End PerOrganism.

(** X20.  A family that [__init__] made and that a run of add calls has
    filled holds the genes given, in order, each with its family set; their
    IDs are distinct (or an add would have raised); and its per-organism
    dictionary is exact: under each organism it holds just the genes of the
    family that are of that organism, and no organism without a gene. *)
Theorem adds_fill_the_family
    (family_id : Z) (name : string) (self_ref : nat) (genes : list genome.Gene)
    (s0 s : geneFamily.GeneFamily) :
  geneFamily.__init__ family_id name = Ok s0 ->
  for_each genes (geneFamily.add self_ref) s0 = (Ok tt, s) ->
  geneFamily.genes_of s = map (with_family self_ref) genes /\
  NoDup (map genome.gene_ID genes) /\
  geneFamily.__len__ s = Z.of_nat (length genes) /\
  cache_exact s.
Proof.
  unfold geneFamily.__init__. destruct (decide (name = "")); [discriminate|].
  intros [= <-] Hadds. destruct (adds_invariant _ _ _ _ Hadds) as (Hgenes & Hkeys & He & Hn).
  cbn in Hgenes, Hkeys, Hn. split; [assumption|]. split.
  { rewrite <- Hkeys. apply Hn. constructor. }
  split.
  { unfold geneFamily.__len__, len. rewrite <- (length_map snd).
    change (map snd (geneFamily._genes_getter s)) with (geneFamily.genes_of s).
    rewrite Hgenes, length_map. reflexivity. }
  apply He. split.
  - intros org g. split.
    + intros (l & Hl & _). discriminate.
    + intros [Hg _]. inversion Hg.
  - intros org l Hl. discriminate.
Qed.

Lemma adds_fill_the_family_witness :
  geneFamily.genes_of family_AC = map (with_family 7) [gene_a1; gene_c1] /\
  NoDup (map genome.gene_ID [gene_a1; gene_c1]) /\
  geneFamily.__len__ family_AC = Z.of_nat (length [gene_a1; gene_c1]) /\
  cache_exact family_AC.
Proof.
  apply (adds_fill_the_family 7 "fam7" 7 [gene_a1; gene_c1] fresh_family family_AC);
    reflexivity.
Defined.

Section LazyCache.
Import genome geneFamily.

(** The loop of [get_org_dict] on genes that all have an organism runs to the
    end and enters each gene under its organism. *)
Lemma get_org_dict_loop_fills (gs : list Gene) (s : GeneFamily) :
  (forall g, g ∈ gs -> is_Some (organism g)) ->
  exists d,
    for_each gs (fun gene =>
      match organism gene with
      | None => raise AttributeError
      | Some org =>
          let* self := get in
          modify (with_genePerOrg (cache_add org gene (_genePerOrg self)))
      end) s = (Ok tt, with_genePerOrg d s) /\
    (forall org g, cached d org g <->
                   cached (_genePerOrg s) org g \/ (g ∈ gs /\ organism g = Some org)) /\
    ((forall org l, dget org (_genePerOrg s) = Some l -> l <> []) ->
     forall org l, dget org d = Some l -> l <> []).
Proof.
  revert s. induction gs as [|g gs IH]; intros s Hall; cbn [for_each].
  - exists (_genePerOrg s). split; [destruct s; reflexivity|]. split; [|auto].
    intros org g. split; [auto|]. intros [?|[Hin _]]; [assumption | inversion Hin].
  - destruct (Hall g) as [o Ho]; [left|]. rewrite Ho. unfold bind at 1.
    unfold bind at 1. cbn [get modify].
    destruct (IH (with_genePerOrg (cache_add o g (_genePerOrg s)) s)) as (d & Hrun & Hd & Hfull).
    { intros g' Hg'. apply Hall. right. assumption. }
    exists d. split; [exact Hrun|]. split.
    + intros org g'. rewrite Hd. cbn [_genePerOrg with_genePerOrg].
      rewrite cached_cache_add, elem_of_cons. split.
      * intros [[?|[-> ->]]|[? ?]]; auto.
      * intros [?|[[->|?] Horg]]; auto. left. right. split; congruence.
    + intros Hs. apply Hfull. cbn [_genePerOrg with_genePerOrg].
      apply cache_add_no_empty. exact Hs.
Qed.

(** The loop of [get_org_dict] raises at the first gene without organism. *)
Lemma get_org_dict_loop_raises (gs : list Gene) (s : GeneFamily) (g : Gene) :
  g ∈ gs -> organism g = None ->
  (for_each gs (fun gene =>
     match organism gene with
     | None => raise AttributeError
     | Some org =>
         let* self := get in
         modify (with_genePerOrg (cache_add org gene (_genePerOrg self)))
     end) s).1 = Raise AttributeError.
Proof.
  intros Hin Hnone. revert s. induction gs as [|g' gs IH]; intros s; [inversion Hin|].
  cbn [for_each]. unfold bind at 1. destruct (organism g') as [o|] eqn:Ho; [|reflexivity].
  unfold bind at 1. cbn [get modify]. apply IH.
  apply elem_of_cons in Hin as [->|Hin]; [congruence | assumption].
Qed.

End LazyCache.

(** X21.  get_org_dict on a family whose per-organism dictionary is empty
    rebuilds it from the genes.  If every gene has an organism the call
    returns the rebuilt dictionary, which is exact (under each organism just
    the genes of that organism, no empty set), and nothing but the dictionary
    has changed.  If some gene has no organism the call raises AttributeError. *)
Theorem get_org_dict_rebuilds (s : geneFamily.GeneFamily) :
  geneFamily._genePerOrg s = [] ->
  ((forall g, g ∈ geneFamily.genes_of s -> is_Some (genome.organism g)) ->
   exists d, geneFamily.get_org_dict s = (Ok d, geneFamily.with_genePerOrg d s) /\
             cache_exact (geneFamily.with_genePerOrg d s)) /\
  (forall g, g ∈ geneFamily.genes_of s -> genome.organism g = None ->
     (geneFamily.get_org_dict s).1 = Raise AttributeError).
Proof.
  intros Hempty. split.
  - intros Hall. destruct (get_org_dict_loop_fills (geneFamily.genes_of s) s Hall)
      as (d & Hrun & Hd & Hfull).
    exists d. split.
    + unfold geneFamily.get_org_dict. unfold bind at 1. cbn [get].
      unfold bind at 1.
      destruct (decide (len (geneFamily._genePerOrg s) = 0)) as [_|Hne];
        [|rewrite Hempty in Hne; contradiction Hne; reflexivity].
      rewrite Hrun. reflexivity.
    + split.
      * intros org g. cbn [geneFamily._genePerOrg geneFamily.with_genePerOrg].
        rewrite Hd, Hempty. split.
        -- intros [(l & Hl & _)|?]; [discriminate | assumption].
        -- auto.
      * cbn [geneFamily._genePerOrg geneFamily.with_genePerOrg]. apply Hfull.
        rewrite Hempty. intros org l Hl. discriminate.
  - intros g Hin Hnone. unfold geneFamily.get_org_dict. unfold bind at 1. cbn [get].
    unfold bind at 1.
    destruct (decide (len (geneFamily._genePerOrg s) = 0)) as [_|Hne];
      [|rewrite Hempty in Hne; contradiction Hne; reflexivity].
    pose proof (get_org_dict_loop_raises (geneFamily.genes_of s) s g Hin Hnone) as Hraise.
    destruct (for_each _ _ s) as [[[]|x] s1]; cbn [fst] in *; congruence.
Qed.

Section LazyCacheExample.
Import genome geneFamily.

(** A family whose genes were entered through [__setitem__]: the
    per-organism dictionary is still empty. *)
Definition family_unindexed : GeneFamily :=
  (__setitem__ "c1" gene_c1 (__setitem__ "a1" gene_a1 fresh_family).2).2.

End LazyCacheExample.

Lemma get_org_dict_rebuilds_witness :
  ((forall g, g ∈ geneFamily.genes_of family_unindexed -> is_Some (genome.organism g)) ->
   exists d, geneFamily.get_org_dict family_unindexed
             = (Ok d, geneFamily.with_genePerOrg d family_unindexed) /\
             cache_exact (geneFamily.with_genePerOrg d family_unindexed)) /\
  (forall g, g ∈ geneFamily.genes_of family_unindexed -> genome.organism g = None ->
     (geneFamily.get_org_dict family_unindexed).1 = Raise AttributeError).
Proof. apply (get_org_dict_rebuilds family_unindexed). reflexivity. Defined.

(** X22.  On a family whose per-organism dictionary is exact and not empty,
    get_genes_per_org changes nothing: for an organism in which the family has
    a gene it returns just the genes of the family that are of that organism;
    for any other organism it raises KeyError. *)
Theorem get_genes_per_org_exact (s : geneFamily.GeneFamily) (org : genome.Organism) :
  cache_exact s -> geneFamily._genePerOrg s <> [] ->
  let '(r, s') := geneFamily.get_genes_per_org org s in
  s' = s /\
  ((has_gene_in s org = true /\
    exists l, r = Ok l /\
      forall g, g ∈ l <-> g ∈ geneFamily.genes_of s /\ genome.organism g = Some org) \/
   (has_gene_in s org = false /\ r = Raise KeyError)).
Proof.
  intros [Hexact Hfull] Hnonempty.
  unfold geneFamily.get_genes_per_org, bind, get, ret, lift.
  destruct (decide (len (geneFamily._genePerOrg s) = 0)) as [Hlen|_].
  { destruct (geneFamily._genePerOrg s); [contradiction | discriminate]. }
  destruct (dget org (geneFamily._genePerOrg s)) as [l|] eqn:Hl; cbn [of_option].
  - split; [reflexivity|]. left.
    assert (forall g, g ∈ l <-> g ∈ geneFamily.genes_of s /\ genome.organism g = Some org)
      as Hl_exact.
    { intros g. rewrite <- (Hexact org g). unfold cached. rewrite Hl. split; [eauto|].
      intros (l' & [= <-] & Hg). assumption. }
    split; [|eauto]. apply has_gene_in_spec.
    destruct l as [|g l]; [exfalso; eapply Hfull; eauto|].
    exists g. apply Hl_exact. left.
  - split; [reflexivity|]. right. split; [|reflexivity].
    destruct (has_gene_in s org) eqn:Hhas; [|reflexivity].
    apply has_gene_in_spec in Hhas as (g & Hg & Horg).
    destruct (proj2 (Hexact org g) (conj Hg Horg)) as (l & Hl' & _). congruence.
Qed.

(** The example family filled by two add calls has an exact dictionary. *)
Lemma family_AC_cache_exact : cache_exact family_AC.
Proof.
  assert (for_each [gene_a1; gene_c1] (geneFamily.add 7) fresh_family = (Ok tt, family_AC))
    as Hadds by reflexivity.
  apply (adds_invariant _ _ _ _ Hadds). split.
  - intros org g. split.
    + intros (l & Hl & _). discriminate.
    + intros [Hg _]. inversion Hg.
  - intros org l Hl. discriminate.
Qed.

Lemma get_genes_per_org_exact_witness :
  let '(r, s') := geneFamily.get_genes_per_org strain_C family_AC in
  s' = family_AC /\
  ((has_gene_in family_AC strain_C = true /\
    exists l, r = Ok l /\
      forall g, g ∈ l <->
                g ∈ geneFamily.genes_of family_AC /\ genome.organism g = Some strain_C) \/
   (has_gene_in family_AC strain_C = false /\ r = Raise KeyError)).
Proof.
  apply (get_genes_per_org_exact family_AC strain_C); [|discriminate].
  apply family_AC_cache_exact.
Defined.

(** ** write_spaced_fasta *)

Section SpacedFasta.
Import writeSequences.

(** A slice that starts inside the sequence and has a positive width. *)
Lemma slice_from (sequence : str) (j p : nat) :
  j < length sequence -> 0 < p ->
  slice sequence (Z.of_nat j) (Z.of_nat j + Z.of_nat p) = take p (drop j sequence).
Proof.
  intros Hj Hp. unfold slice, adjust_index.
  destruct (Z.of_nat j <? 0)%Z eqn:H1; [apply Z.ltb_lt in H1; lia|].
  destruct (Z.of_nat j + Z.of_nat p <? 0)%Z eqn:H2; [apply Z.ltb_lt in H2; lia|].
  replace (Z.to_nat (Z.min (Z.of_nat j) (Z.of_nat (length sequence)))) with j by lia.
  destruct (decide (j + p <= length sequence)) as [Hle|Hgt].
  - replace (Z.to_nat (Z.min (Z.of_nat j + Z.of_nat p) (Z.of_nat (length sequence))) - j)
      with p by lia.
    reflexivity.
  - replace (Z.to_nat (Z.min (Z.of_nat j + Z.of_nat p) (Z.of_nat (length sequence))) - j)
      with (length sequence - j) by lia.
    rewrite !take_ge; [reflexivity | |]; rewrite length_drop; lia.
Qed.

(** The lines of a sequence cut every [p] characters: none is empty, none is
    longer than [p], and all but the last have [p] characters. *)
Definition cut_into (p : nat) (sequence : str) (lines : list str) : Prop :=
  concat lines = sequence /\
  Forall (fun l => l <> [] /\ length l <= p) lines /\
  (forall i l, lines !! i = Some l -> S i < length lines -> length l = p).

Definition with_newlines (lines : list str) : str :=
  concat (map (fun l => l ++ [newline]) lines).

Lemma write_spaced_fasta_loop_lines (p : nat) (sequence : str) :
  0 < p ->
  forall fuel j seq, length sequence - j < fuel ->
  exists lines,
    write_spaced_fasta_loop fuel sequence (Z.of_nat p) seq (Z.of_nat j)
    = Some (seq ++ with_newlines lines) /\
    cut_into p (drop j sequence) lines /\
    (length sequence <= j -> lines = []).
Proof.
  intros Hp. induction fuel as [|fuel IH]; intros j seq Hfuel; [lia|].
  cbn [write_spaced_fasta_loop].
  destruct (Z.of_nat j <? Z.of_nat (length sequence))%Z eqn:Hj.
  - apply Z.ltb_lt in Hj. assert (j < length sequence) as Hj' by lia.
    rewrite (slice_from sequence j p Hj' Hp).
    replace (Z.of_nat j + Z.of_nat p)%Z with (Z.of_nat (j + p)) by lia.
    destruct (IH (j + p) (seq ++ take p (drop j sequence) ++ [newline]))
      as (lines & Hrun & (Hcat & Hall & Hfull) & Hnil); [lia|].
    exists (take p (drop j sequence) :: lines). split; [|split].
    + rewrite Hrun. unfold with_newlines. cbn [map concat].
      rewrite <- !app_assoc. reflexivity.
    + split; [|split].
      * cbn [concat]. rewrite Hcat. rewrite <- drop_drop.
        apply take_drop.
      * constructor; [|assumption]. split.
        -- intros Hempty. apply (f_equal length) in Hempty.
           rewrite length_take, length_drop in Hempty. simpl in Hempty. lia.
        -- rewrite length_take. lia.
      * intros [|i] l Hl Hi.
        -- injection Hl as <-. rewrite length_take, length_drop.
           destruct (decide (length sequence <= j + p)) as [Hend|Hmore]; [|lia].
           rewrite (Hnil Hend) in Hi. simpl in Hi. lia.
        -- apply (Hfull i l Hl). simpl in Hi. lia.
    + intros Hend. lia.
  - apply Z.ltb_ge in Hj. exists []. split; [|split].
    + unfold with_newlines. cbn [map concat]. rewrite app_nil_r. reflexivity.
    + rewrite drop_ge by lia. split; [reflexivity|]. split; [constructor|].
      intros i l Hl. discriminate Hl.
    + reflexivity.
Qed.

(** Below the sequence's length with a step that is not positive, the loop
    never ends. *)
Lemma write_spaced_fasta_loop_stuck (sequence : str) (space : Z) :
  (space <= 0)%Z -> sequence <> [] ->
  forall fuel seq j, (j <= 0)%Z ->
    write_spaced_fasta_loop fuel sequence space seq j = None.
Proof.
  intros Hspace Hne. induction fuel as [|fuel IH]; intros seq j Hj; [reflexivity|].
  cbn [write_spaced_fasta_loop].
  destruct (j <? Z.of_nat (length sequence))%Z eqn:Hlt.
  - apply IH. lia.
  - apply Z.ltb_ge in Hlt. destruct sequence; [contradiction|]. simpl in Hlt. lia.
Qed.

End SpacedFasta.

(** X23.  write_spaced_fasta with a positive [space] returns, after at most
    one turn of its loop per character and one more: the result is the
    sequence cut into lines, each followed by a newline, where the lines put
    together give the sequence back, no line is empty, no line has more than
    [space] characters and every line but the last has [space] characters. *)
Theorem write_spaced_fasta_lines (sequence : writeSequences.str) (space : Z) (fuel : nat) :
  (0 < space)%Z -> length sequence < fuel ->
  exists lines,
    writeSequences.write_spaced_fasta fuel sequence space = Some (with_newlines lines) /\
    cut_into (Z.to_nat space) sequence lines.
Proof.
  intros Hspace Hfuel.
  destruct (write_spaced_fasta_loop_lines (Z.to_nat space) sequence ltac:(lia) fuel 0 [])
    as (lines & Hrun & Hcut & _); [lia|].
  exists lines. split; [|exact Hcut].
  unfold writeSequences.write_spaced_fasta.
  rewrite Z2Nat.id in Hrun by lia. exact Hrun.
Qed.

Section SpacedFastaExample.
Import writeSequences.

Definition acgtac : str := map Ascii.ascii_of_nat [65; 67; 71; 84; 65; 67].

End SpacedFastaExample.

Lemma write_spaced_fasta_lines_witness :
  exists lines,
    writeSequences.write_spaced_fasta 7 acgtac 4 = Some (with_newlines lines) /\
    cut_into (Z.to_nat 4) acgtac lines.
Proof. apply (write_spaced_fasta_lines acgtac 4 7); [lia | simpl; lia]. Defined.

(** X24.  write_spaced_fasta with a [space] that is zero or negative never
    returns on a sequence that is not empty: whatever the number of turns the
    loop is given, it has not ended. *)
Theorem write_spaced_fasta_never_returns
    (sequence : writeSequences.str) (space : Z) (fuel : nat) :
  (space <= 0)%Z -> sequence <> [] ->
  writeSequences.write_spaced_fasta fuel sequence space = None.
Proof.
  intros Hspace Hne. unfold writeSequences.write_spaced_fasta.
  apply write_spaced_fasta_loop_stuck; [assumption | assumption | lia].
Qed.

Lemma write_spaced_fasta_never_returns_witness :
  writeSequences.write_spaced_fasta 1000 acgtac 0 = None.
Proof.
  apply (write_spaced_fasta_never_returns acgtac 0 1000); [lia | discriminate].
Defined.

(** ** check_pangenome_to_write_sequences *)

Lemma truthy_false (x : option string) :
  writeSequences.truthy x = false <-> x = None \/ x = Some "".
Proof.
  destruct x as [s|]; cbn [writeSequences.truthy].
  - rewrite bool_decide_eq_false. split.
    + intros Hs. right. f_equal. destruct (decide (s = "")); [assumption | contradiction].
    + intros [?|[= ->]]; [discriminate | auto].
  - split; auto.
Qed.

Lemma truthy_not_None (x : option string) :
  writeSequences.truthy x = true -> writeSequences.is_not_None x = true.
Proof. destruct x; [reflexivity | discriminate]. Qed.

(** X25.  check_pangenome_to_write_sequences raises AssertionError just when
    none of its five filters is a non-empty string, and it never raises the
    ValueError of its unrecognised-filter branch: once one filter is given,
    the families are needed.  When it reaches the call of
    check_pangenome_info, the families are asked for, the graph and the spots
    are not, and the regions are never asked for without the annotations. *)
Theorem check_pangenome_to_write_sequences_outcomes
    (status : dict string string)
    (regions genes genes_prot gene_families prot_families : option string) :
  let r := writeSequences.check_pangenome_to_write_sequences status
             regions genes genes_prot gene_families prot_families in
  (r = Raise AssertionError <->
   Forall (fun x => x = None \/ x = Some "")
     [regions; genes; genes_prot; gene_families; prot_families]) /\
  r <> Raise ValueError /\
  (forall n, r = Ok n ->
     writeSequences.need_families n = true /\
     writeSequences.need_graph n = false /\
     writeSequences.need_spots n = false /\
     (writeSequences.need_regions n = true -> writeSequences.need_annotations n = true)).
Proof.
  cbv zeta. unfold writeSequences.check_pangenome_to_write_sequences.
  destruct (existsb writeSequences.truthy
              [regions; genes; genes_prot; prot_families; gene_families]) eqn:Hany;
    cbn [negb].
  - (* one filter is given *)
    assert (writeSequences.is_not_None prot_families = true \/
            existsb writeSequences.is_not_None [regions; genes; genes_prot; gene_families]
            = true) as Hgiven.
    { cbn [existsb] in Hany |- *. rewrite !orb_true_iff in Hany. rewrite !orb_true_iff.
      destruct Hany as [H|[H|[H|[H|[H|H]]]]]; try discriminate H;
        apply truthy_not_None in H; auto 10. }
    assert (~ Forall (fun x => x = None \/ x = Some "")
                [regions; genes; genes_prot; gene_families; prot_families]) as Hnot.
    { rewrite !Forall_cons. intros (H1 & H2 & H3 & H4 & H5 & _).
      apply truthy_false in H1, H2, H3, H4, H5. cbn [existsb] in Hany.
      rewrite H1, H2, H3, H4, H5 in Hany. discriminate Hany. }
    set (somewhere := existsb writeSequences.is_not_None _) in *.
    set (rgp := (_ || existsb (fun x => bool_decide (x = Some "rgp")) _)).
    set (parts := existsb (writeSequences.among _) _).
    set (mods := fold_left _ _ _).
    clearbody somewhere rgp parts mods.
    assert (forall r : result writeSequences.needs,
              r <> Raise AssertionError -> r <> Raise ValueError ->
              (forall n, r = Ok n ->
                 writeSequences.need_families n = true /\
                 writeSequences.need_graph n = false /\
                 writeSequences.need_spots n = false /\
                 (writeSequences.need_regions n = true ->
                  writeSequences.need_annotations n = true)) ->
              (r = Raise AssertionError <->
               Forall (fun x => x = None \/ x = Some "")
                 [regions; genes; genes_prot; gene_families; prot_families]) /\
              r <> Raise ValueError /\
              (forall n, r = Ok n ->
                 writeSequences.need_families n = true /\
                 writeSequences.need_graph n = false /\
                 writeSequences.need_spots n = false /\
                 (writeSequences.need_regions n = true ->
                  writeSequences.need_annotations n = true))) as Hshape.
    { intros r H1 H2 H3. split; [|split; assumption]. split; intros; contradiction. }
    apply Hshape; clear Hshape Hnot Hany;
      (destruct prot_families as [pf|], somewhere;
        [ | | | exfalso; destruct Hgiven as [H|H]; cbn in H; discriminate H]);
      clear Hgiven;
      try destruct (bool_decide (pf ∈ ["core"; "softcore"]));
      destruct rgp, parts; cbn [negb orb];
      destruct (dget "geneSequences" status) as [gs|]; cbn [of_option rbind];
      try discriminate;
      try destruct (bool_decide (gs ∉ ["inFile"]) && _);
      try discriminate;
      destruct (dget "geneFamilySequences" status) as [gfs|]; cbn [of_option rbind];
      try discriminate;
      try destruct (bool_decide (gfs ∉ ["Loaded"; "Computed"; "inFile"]) && _);
      try discriminate;
      intros n [= <-]; cbn; auto.
  - split; [|split; [discriminate | intros n Hn; discriminate Hn]].
    split; [|reflexivity]. intros _.
    cbn [existsb] in Hany. rewrite !orb_false_iff in Hany.
    destruct Hany as (H1 & H2 & H3 & H4 & H5 & _).
    repeat (apply Forall_cons_2; [apply truthy_false; assumption|]). apply Forall_nil_2.
Qed.

(** ** GeneFamily.mk_bitarray: a second call, and the calls that raise *)

Section BitarrayAgain.
Import genome geneFamily.

Lemma with_genePerOrg_id (s : GeneFamily) : with_genePerOrg (_genePerOrg s) s = s.
Proof. destruct s; reflexivity. Qed.

(** What [organisms] yields and leaves behind, it yields and leaves behind
    when asked again. *)
Lemma organisms_of_stable (s s' : GeneFamily) (orgs : list Organism) :
  organisms_of s = (Ok orgs, s') ->
  organisms_of s' = (Ok orgs, s') /\ bitarray s' = bitarray s /\
  partition s' = partition s.
Proof.
  intros H. pose proof H as H0. revert H0.
  unfold organisms_of at 1. unfold get_org_dict, bind, get, ret.
  destruct (decide (len (_genePerOrg s) = 0)) as [Hlen|Hlen].
  - destruct (decide (len (_genePerOrg s) = 0)) as [_|]; [|contradiction].
    destruct (for_each _ _ s) as [[[]|x] s1] eqn:Hloop; [|discriminate].
    apply get_org_dict_loop in Hloop as (d & -> & _).
    intros [= <- <-]. cbn [_genePerOrg with_genePerOrg] in *.
    split; [|split; reflexivity].
    destruct d as [|kv d].
    + assert (_genePerOrg s = []) as Hs by (destruct (_genePerOrg s); [reflexivity | discriminate]).
      rewrite <- Hs, with_genePerOrg_id in H |- *. exact H.
    + unfold organisms_of, bind, get, ret. cbn [_genePerOrg with_genePerOrg].
      destruct (decide (len (kv :: d) = 0)) as [Habs|_]; [discriminate Habs|].
      reflexivity.
  - intros [= <- <-]. split; [exact H|]. split; reflexivity.
Qed.

(** The loop that sets the bits changes the bitarray only. *)
Lemma set_bits_loop_frame (index : dict Organism nat) (orgs : list Organism)
    (s s' : GeneFamily) :
  for_each orgs (fun org =>
    let* i := lift (of_option KeyError (dget org index)) in
    let* self := get in
    modify (with_bitarray (Some (N.setbit (default 0%N (bitarray self)) (N.of_nat i))))) s
  = (Ok tt, s') ->
  exists b, s' = with_bitarray b s.
Proof.
  revert s. induction orgs as [|org orgs IH]; intros s; cbn [for_each].
  - intros [= <-]. exists (bitarray s). destruct s; reflexivity.
  - unfold bind at 1. unfold bind at 1. unfold lift.
    destruct (dget org index) as [i|] eqn:Hi; [|discriminate]. cbn.
    intros Hrest. apply IH in Hrest as [b ->]. exists b. destruct s; reflexivity.
Qed.

Lemma set_organism_bits_again (index : dict Organism nat) (s s' : GeneFamily) :
  bitarray s = Some 0%N ->
  set_organism_bits index s = (Ok tt, s') ->
  exists s0, with_bitarray (Some 0%N) s' = s0 /\ set_organism_bits index s0 = (Ok tt, s') /\
             partition s0 = partition s.
Proof.
  intros Hzero. unfold set_organism_bits. unfold bind at 1.
  destruct (organisms_of s) as [[orgs|x] s1] eqn:Horgs; [|discriminate].
  apply organisms_of_stable in Horgs as (Hagain & Hbits & Hpart).
  intros Hloop. destruct (set_bits_loop_frame _ _ _ _ Hloop) as [b ->].
  exists s1. split.
  - rewrite Hzero in Hbits. destruct s1; cbn [bitarray with_bitarray] in *.
    rewrite Hbits. reflexivity.
  - split; [|assumption]. unfold bind at 1. rewrite Hagain. exact Hloop.
Qed.

End BitarrayAgain.

(** X26.  mk_bitarray is idempotent: when a call returns, the same call on
    the family it leaves behind returns and leaves the family as it is, be the
    per-organism dictionary rebuilt by the first call, kept, or out of date. *)
Theorem mk_bitarray_idempotent
    (self self' : geneFamily.GeneFamily) (index : dict genome.Organism nat) (flt : string) :
  geneFamily.mk_bitarray index flt self = (Ok tt, self') ->
  geneFamily.mk_bitarray index flt self' = (Ok tt, self').
Proof.
  unfold geneFamily.mk_bitarray. intros H. unfold bind at 1 in H. unfold bind at 1.
  cbn [modify] in *. revert H.
  set (s0 := geneFamily.with_bitarray (Some 0%N) self).
  assert (geneFamily.bitarray s0 = Some 0%N) as Hzero by reflexivity.
  assert (geneFamily.with_bitarray (Some 0%N) s0 = s0) as Hs0 by (destruct self; reflexivity).
  clearbody s0.
  assert (geneFamily.set_organism_bits index s0 = (Ok tt, self') ->
          geneFamily.set_organism_bits index (geneFamily.with_bitarray (Some 0%N) self')
          = (Ok tt, self') /\
          geneFamily.named_partition (geneFamily.with_bitarray (Some 0%N) self')
          = geneFamily.named_partition s0) as Hbits.
  { intros Hs'. destruct (set_organism_bits_again index s0 self' Hzero Hs')
      as (s1 & <- & Hrun & Hpart). split; [assumption|].
    unfold geneFamily.named_partition. rewrite Hpart. reflexivity. }
  assert (ret tt s0 = (Ok tt, self') ->
          geneFamily.with_bitarray (Some 0%N) self' = s0) as Hsame.
  { intros [= <-]. exact Hs0. }
  destruct (decide (flt = "all")) as [->|_].
  { intros H. apply Hbits. exact H. }
  destruct (decide (flt ∈ ["shell"; "cloud"])) as [_|_].
  { unfold bind, get, lift.
    destruct (geneFamily.named_partition s0) as [p|] eqn:Hp; [|discriminate].
    destruct (decide (p = flt)) as [Heq|Hne]; intros H.
    - destruct (Hbits H) as [Hrun Hnp]. rewrite Hnp.
      destruct (decide (p = flt)); [exact Hrun | contradiction].
    - rewrite (Hsame H), Hp. destruct (decide (p = flt)); [contradiction | exact H]. }
  destruct (decide (flt = "accessory")) as [_|_].
  { unfold bind, get, lift.
    destruct (geneFamily.named_partition s0) as [p|] eqn:Hp; [|discriminate].
    destruct (decide (p ∈ ["shell"; "cloud"])) as [Hin|Hout]; intros H.
    - destruct (Hbits H) as [Hrun Hnp]. rewrite Hnp.
      destruct (decide (p ∈ ["shell"; "cloud"])); [exact Hrun | contradiction].
    - rewrite (Hsame H), Hp.
      destruct (decide (p ∈ ["shell"; "cloud"])); [contradiction | exact H]. }
  intros H. rewrite (Hsame H). exact H.
Qed.

Lemma mk_bitarray_idempotent_witness :
  geneFamily.mk_bitarray index_ABC "all"
    (geneFamily.mk_bitarray index_ABC "all" family_unindexed).2
  = (Ok tt, (geneFamily.mk_bitarray index_ABC "all" family_unindexed).2).
Proof.
  apply (mk_bitarray_idempotent family_unindexed _ index_ABC "all"). reflexivity.
Defined.

Section BitarrayErrors.
Import genome geneFamily.

(** The loop that sets the bits raises KeyError at the first organism that
    the index does not hold. *)
Lemma set_bits_loop_raises (index : dict Organism nat) (orgs : list Organism)
    (org : Organism) (s : GeneFamily) :
  org ∈ orgs -> dget org index = None ->
  (for_each orgs (fun org =>
     let* i := lift (of_option KeyError (dget org index)) in
     let* self := get in
     modify (with_bitarray (Some (N.setbit (default 0%N (bitarray self)) (N.of_nat i))))) s).1
  = Raise KeyError.
Proof.
  intros Hin Hnone. revert s. induction orgs as [|o orgs IH]; intros s; [inversion Hin|].
  cbn [for_each]. unfold bind at 1. unfold bind at 1. unfold lift.
  destruct (dget o index) as [i|] eqn:Hi; cbn [of_option]; [|reflexivity].
  unfold bind at 1. cbn [get modify]. apply IH.
  apply elem_of_cons in Hin as [->|Hin]; [congruence | assumption].
Qed.

End BitarrayErrors.

(** X27.  mk_bitarray with one of the filters shell, cloud and accessory on a
    family whose partition is not set raises ValueError, and by then the
    bitarray of the family has been replaced by the empty one: what it held
    before is lost. *)
Theorem mk_bitarray_no_partition
    (self : geneFamily.GeneFamily) (index : dict genome.Organism nat) (flt : string) :
  flt ∈ ["shell"; "cloud"; "accessory"] ->
  geneFamily.partition self = "" ->
  geneFamily.mk_bitarray index flt self
  = (Raise ValueError, geneFamily.with_bitarray (Some 0%N) self).
Proof.
  intros Hflt Hpart. unfold geneFamily.mk_bitarray. unfold bind at 1. cbn [modify].
  assert (geneFamily.named_partition (geneFamily.with_bitarray (Some 0%N) self)
          = Raise ValueError) as Hnp.
  { unfold geneFamily.named_partition. cbn [geneFamily.partition geneFamily.with_bitarray].
    rewrite Hpart. reflexivity. }
  destruct (decide (flt = "all")) as [->|_].
  { exfalso. revert Hflt. rewrite !elem_of_cons, elem_of_nil. intros [H|[H|[H|[]]]]; discriminate H. }
  destruct (decide (flt ∈ ["shell"; "cloud"])) as [_|Hout].
  { unfold bind, get, lift. rewrite Hnp. reflexivity. }
  destruct (decide (flt = "accessory")) as [_|Hne].
  { unfold bind, get, lift. rewrite Hnp. reflexivity. }
  exfalso. apply elem_of_cons in Hflt as [->|Hflt]; [apply Hout; left|].
  apply elem_of_cons in Hflt as [->|Hflt]; [apply Hout; right; left|].
  apply list_elem_of_singleton in Hflt. contradiction.
Qed.

Lemma mk_bitarray_no_partition_witness :
  geneFamily.mk_bitarray index_ABC "accessory" family_AC
  = (Raise ValueError, geneFamily.with_bitarray (Some 0%N) family_AC).
Proof.
  apply (mk_bitarray_no_partition family_AC index_ABC "accessory"); [|reflexivity].
  do 2 right. left.
Defined.

(** X28.  mk_bitarray with the filter all raises KeyError when the
    per-organism dictionary of the family, not empty, holds an organism that
    the index has no position for. *)
Theorem mk_bitarray_missing_organism
    (self : geneFamily.GeneFamily) (index : dict genome.Organism nat) (org : genome.Organism) :
  org ∈ keys (geneFamily._genePerOrg self) ->
  dget org index = None ->
  (geneFamily.mk_bitarray index "all" self).1 = Raise KeyError.
Proof.
  intros Hin Hnone. unfold geneFamily.mk_bitarray. unfold bind at 1. cbn [modify].
  destruct (decide ("all" = "all")) as [_|Hne]; [|contradiction].
  unfold geneFamily.set_organism_bits. unfold bind at 1.
  unfold geneFamily.organisms_of, bind, get, ret.
  cbn [geneFamily._genePerOrg geneFamily.with_bitarray].
  destruct (decide (len (geneFamily._genePerOrg self) = 0)) as [Hlen|_].
  { destruct (geneFamily._genePerOrg self); [inversion Hin | discriminate Hlen]. }
  apply set_bits_loop_raises with (org := org); assumption.
Qed.

Lemma mk_bitarray_missing_organism_witness :
  (geneFamily.mk_bitarray [(strain_A, 0)] "all" family_AC).1 = Raise KeyError.
Proof.
  apply (mk_bitarray_missing_organism family_AC [(strain_A, 0)] strain_C); [|reflexivity].
  assert (keys (geneFamily._genePerOrg family_AC) = [strain_A; strain_C]) as Hkeys
    by reflexivity.
  rewrite Hkeys. right. left.
Defined.
